(** * chandan-dashboard: the streaming chat client and the data-fetching wrappers

    A shallow embedding of [src/lib/utils.ts] ([callChatAPI]) and of
    [src/lib/api.ts] ([fetchAnalytics], [fetchHubSpotSessions],
    [handleApiError]), together with the platform functions they call
    (String.prototype methods, [JSON.parse], the streaming UTF-8
    [TextDecoder]), and the properties of the chat-stream decoder. *)

From Stdlib Require Import List NArith ZArith Bool String Ascii Lia.
From Stdlib Require Import DecimalString.
Import ListNotations.

Set Implicit Arguments.
Set Warnings "-register-all".

(* ================================================================== *)
(** ** JavaScript strings: sequences of UTF-16 code units *)
(* ================================================================== *)

Module JSString.
Local Open Scope N_scope.

Definition jsstring := list N.

(** A string literal of the source, as code units. *)
Definition lit (s : string) : jsstring :=
  map N_of_ascii (list_ascii_of_string s).

Definition LF : N := 10.
Definition BACKSLASH : N := 92.

Fixpoint eqb (a b : jsstring) : bool :=
  match a, b with
  | [], [] => true
  | x :: a', y :: b' => (x =? y) && eqb a' b'
  | _, _ => false
  end.

(** [s.startsWith(p)] *)
Fixpoint startsWith (s p : jsstring) {struct p} : bool :=
  match p, s with
  | [], _ => true
  | x :: p', y :: s' => (x =? y) && startsWith s' p'
  | _ :: _, [] => false
  end.

(** [s.includes(p)] *)
Fixpoint includes (s p : jsstring) : bool :=
  startsWith s p ||
  match s with
  | [] => false
  | _ :: s' => includes s' p
  end.

(** [s.substring(n)] for [n] within the string or beyond it. *)
Definition substring (n : nat) (s : jsstring) : jsstring := skipn n s.

(** ECMAScript WhiteSpace and LineTerminator code units, the ones
    [String.prototype.trim] strips. *)
Definition isWhiteSpace (c : N) : bool :=
  (c =? 9) || (c =? 10) || (c =? 11) || (c =? 12) || (c =? 13) ||
  (c =? 32) || (c =? 160) || (c =? 5760) ||
  ((8192 <=? c) && (c <=? 8202)) ||
  (c =? 8232) || (c =? 8233) || (c =? 8239) || (c =? 8287) ||
  (c =? 12288) || (c =? 65279).

Fixpoint trimStart (s : jsstring) : jsstring :=
  match s with
  | c :: r => if isWhiteSpace c then trimStart r else s
  | [] => []
  end.

(** [s.trim()] *)
Definition trim (s : jsstring) : jsstring :=
  rev (trimStart (rev (trimStart s))).

(** Truthiness of a string: non-empty. *)
Definition nonEmpty (s : jsstring) : bool :=
  match s with [] => false | _ :: _ => true end.

(** [s.split("\n")]: never the empty array. *)
Fixpoint split (s : jsstring) : list jsstring :=
  match s with
  | [] => [[]]
  | c :: r =>
      if c =? LF then [] :: split r
      else match split r with
           | l :: ls => (c :: l) :: ls
           | [] => [[c]]
           end
  end.

(** [s.replace(/\\n/g, "\n")]: every backslash followed by [n] becomes
    one line feed, scanning left to right. *)
Fixpoint replaceEscapedNewlines (s : jsstring) : jsstring :=
  match s with
  | [] => []
  | c :: r =>
      match r with
      | d :: r' =>
          if (c =? BACKSLASH) && (d =? 110)
          then LF :: replaceEscapedNewlines r'
          else c :: replaceEscapedNewlines r
      | [] => [c]
      end
  end.

End JSString.
Export JSString.

(* ================================================================== *)
(** ** JSON values and [JSON.parse] *)
(* ================================================================== *)

Module JSON.
Local Open Scope N_scope.

(** A number keeps the decimal it was written as: sign, digits, and
    power of ten; only its being zero as a double matters here. *)
Inductive value : Type :=
| JNull
| JBool (b : bool)
| JNumber (neg : bool) (mant : N) (exp : Z)
| JString (s : jsstring)
| JArray (items : list value)
| JObject (fields : list (jsstring * value)).

(** A decimal [mant * 10^exp] is the double zero when it is zero or at
    most half the least subnormal, [2^-1075] (ties go to even). *)
Definition numberIsZero (mant : N) (exp : Z) : bool :=
  (mant =? 0) ||
  ((exp <? 0)%Z &&
   (Z.of_N mant * 2 ^ 1075 <=? 10 ^ (- exp))%Z).

(** ToBoolean on a value, [None] standing for [undefined]. *)
Definition truthy (v : option value) : bool :=
  match v with
  | None => false
  | Some JNull => false
  | Some (JBool b) => b
  | Some (JNumber _ m e) => negb (numberIsZero m e)
  | Some (JString s) => nonEmpty s
  | Some (JArray _) => true
  | Some (JObject _) => true
  end.

(** The last binding of a key: [JSON.parse] lets a repeated key
    overwrite. *)
Fixpoint lookup (k : jsstring) (fields : list (jsstring * value))
  : option value :=
  match fields with
  | [] => None
  | (k', v) :: rest =>
      match lookup k rest with
      | Some w => Some w
      | None => if JSString.eqb k k' then Some v else None
      end
  end.

(** ** The parser *)

Definition isWs (c : N) : bool :=
  (c =? 9) || (c =? 10) || (c =? 13) || (c =? 32).

Fixpoint skipWs (s : jsstring) : jsstring :=
  match s with
  | c :: r => if isWs c then skipWs r else s
  | [] => []
  end.

Definition isDigit (c : N) : bool := (48 <=? c) && (c <=? 57).

(** Reads a run of digits: the accumulated number, how many digits were
    read, and the rest. *)
Fixpoint digits (s : jsstring) (acc : N) (n : nat) : N * nat * jsstring :=
  match s with
  | c :: r => if isDigit c then digits r (10 * acc + (c - 48)) (S n)
              else (acc, n, s)
  | [] => (acc, n, [])
  end.

Definition hexDigit (c : N) : option N :=
  if isDigit c then Some (c - 48)
  else if (97 <=? c) && (c <=? 102) then Some (c - 87)
  else if (65 <=? c) && (c <=? 70) then Some (c - 55)
  else None.

Definition hex4 (a b c d : N) : option N :=
  match hexDigit a, hexDigit b, hexDigit c, hexDigit d with
  | Some x, Some y, Some z, Some w => Some (((x * 16 + y) * 16 + z) * 16 + w)
  | _, _, _, _ => None
  end.

Definition simpleEscape (c : N) : option N :=
  if c =? 34 then Some 34          (* quote *)
  else if c =? 92 then Some 92     (* backslash *)
  else if c =? 47 then Some 47     (* slash *)
  else if c =? 98 then Some 8      (* b *)
  else if c =? 102 then Some 12    (* f *)
  else if c =? 110 then Some 10    (* n *)
  else if c =? 114 then Some 13    (* r *)
  else if c =? 116 then Some 9     (* t *)
  else None.

Definition consChar (c : N) (r : option (jsstring * jsstring))
  : option (jsstring * jsstring) :=
  match r with
  | Some (s, rest) => Some (c :: s, rest)
  | None => None
  end.

(** The characters of a string after its opening quote, up to the
    closing one. *)
Fixpoint stringChars (s : jsstring) : option (jsstring * jsstring) :=
  match s with
  | [] => None
  | c :: r =>
      if c =? 34 then Some ([], r)
      else if c =? 92 then
        match r with
        | [] => None
        | e :: r1 =>
            if e =? 117 then
              match r1 with
              | h1 :: h2 :: h3 :: h4 :: r2 =>
                  match hex4 h1 h2 h3 h4 with
                  | Some u => consChar u (stringChars r2)
                  | None => None
                  end
              | _ => None
              end
            else
              match simpleEscape e with
              | Some x => consChar x (stringChars r1)
              | None => None
              end
        end
      else if c <? 32 then None
      else consChar c (stringChars r)
  end.

(** A JSON number: an optional minus, an integer part without leading
    zeros, an optional fraction, an optional exponent. *)
Definition number (s : jsstring) : option (value * jsstring) :=
  let (neg, s1) :=
    match s with
    | c :: r => if c =? 45 then (true, r) else (false, s)
    | [] => (false, s)
    end in
  match s1 with
  | [] => None
  | c :: r =>
      if negb (isDigit c) then None else
      let '(int, _, s2) :=
        if c =? 48 then (0, 1%nat, r) else digits s1 0 0%nat in
      let fracPart :=
        match s2 with
        | d :: r2 =>
            if d =? 46 then
              let '(m, n, s3) := digits r2 int 0%nat in
              match n with
              | O => None
              | _ => Some (m, Z.of_nat n, s3)
              end
            else Some (int, 0%Z, s2)
        | [] => Some (int, 0%Z, s2)
        end in
      match fracPart with
      | None => None
      | Some (mant, nfrac, s3) =>
          match s3 with
          | e :: r3 =>
              if (e =? 101) || (e =? 69) then
                let (eneg, s4) :=
                  match r3 with
                  | sg :: r4 =>
                      if sg =? 45 then (true, r4)
                      else if sg =? 43 then (false, r4)
                      else (false, r3)
                  | [] => (false, r3)
                  end in
                let '(ex, n, s5) := digits s4 0 0%nat in
                match n with
                | O => None
                | _ =>
                    let ez := if eneg then (- Z.of_N ex)%Z else Z.of_N ex in
                    Some (JNumber neg mant (ez - nfrac)%Z, s5)
                end
              else Some (JNumber neg mant (- nfrac)%Z, s3)
          | [] => Some (JNumber neg mant (- nfrac)%Z, s3)
          end
      end
  end.

Definition stripPrefix (p s : jsstring) : option jsstring :=
  if startsWith s p then Some (skipn (List.length p) s) else None.

(** One JSON value, leading white space allowed, and the text after it.
    Every call takes one unit of fuel; a value, a comma or a bracket is
    read between two calls, so twice the length of the text is enough
    ([JSONFacts.parse_fuel]). *)
Fixpoint parseValue (fuel : nat) (s : jsstring) {struct fuel}
  : option (value * jsstring) :=
  match fuel with
  | O => None
  | S fuel' =>
      match skipWs s with
      | [] => None
      | c :: r =>
          if c =? 123 then                       (* { *)
            match skipWs r with
            | d :: r' =>
                if d =? 125 then Some (JObject [], r')
                else parseMembers fuel' [] r
            | [] => None
            end
          else if c =? 91 then                   (* [ *)
            match skipWs r with
            | d :: r' =>
                if d =? 93 then Some (JArray [], r')
                else parseElements fuel' [] r
            | [] => None
            end
          else if c =? 34 then                   (* quote *)
            match stringChars r with
            | Some (str, rest) => Some (JString str, rest)
            | None => None
            end
          else if c =? 116 then                  (* true *)
            option_map (pair (JBool true)) (stripPrefix (lit "rue") r)
          else if c =? 102 then                  (* false *)
            option_map (pair (JBool false)) (stripPrefix (lit "alse") r)
          else if c =? 110 then                  (* null *)
            option_map (pair JNull) (stripPrefix (lit "ull") r)
          else number (c :: r)
      end
  end
with parseElements (fuel : nat) (acc : list value) (s : jsstring)
  {struct fuel} : option (value * jsstring) :=
  match fuel with
  | O => None
  | S fuel' =>
      match parseValue fuel' s with
      | None => None
      | Some (v, rest) =>
          match skipWs rest with
          | c :: r =>
              if c =? 44 then parseElements fuel' (acc ++ [v]) r
              else if c =? 93 then Some (JArray (acc ++ [v]), r)
              else None
          | [] => None
          end
      end
  end
with parseMembers (fuel : nat) (acc : list (jsstring * value)) (s : jsstring)
  {struct fuel} : option (value * jsstring) :=
  match fuel with
  | O => None
  | S fuel' =>
      match skipWs s with
      | q :: r =>
          if negb (q =? 34) then None else
          match stringChars r with
          | None => None
          | Some (key, rest) =>
              match skipWs rest with
              | c :: r1 =>
                  if negb (c =? 58) then None else
                  match parseValue fuel' r1 with
                  | None => None
                  | Some (v, rest') =>
                      match skipWs rest' with
                      | d :: r2 =>
                          if d =? 44
                          then parseMembers fuel' (acc ++ [(key, v)]) r2
                          else if d =? 125
                          then Some (JObject (acc ++ [(key, v)]), r2)
                          else None
                      | [] => None
                      end
                  end
              | [] => None
              end
          end
      | [] => None
      end
  end.

(** [JSON.parse(text)]: [None] is the SyntaxError. *)
Definition parse (text : jsstring) : option value :=
  match parseValue (2 * List.length text + 2) text with
  | Some (v, rest) =>
      match skipWs rest with
      | [] => Some v
      | _ :: _ => None
      end
  | None => None
  end.

End JSON.
Export JSON.

(* ================================================================== *)
(** ** The streaming UTF-8 [TextDecoder] *)
(* ================================================================== *)

Module TextDecoder.
Local Open Scope N_scope.

(** The decoder's state between two [decode(value, {stream: true})]
    calls: the code point being assembled, the continuation bytes seen
    and needed, the range allowed for the next byte, and whether the
    byte-order mark has been looked for. *)
Record state : Type := mkState {
  codePoint : N;
  bytesSeen : N;
  bytesNeeded : N;
  lower : N;
  upper : N;
  bomSeen : bool
}.

Definition init : state := mkState 0 0 0 128 191 false.

Definition REPLACEMENT : N := 65533.

Definition idle (st : state) : state :=
  mkState 0 0 0 128 191 (bomSeen st).

(** A byte met while no sequence is open. *)
Definition leadByte (st : state) (b : N) : state * list N :=
  if b <=? 127 then (st, [b])
  else if (194 <=? b) && (b <=? 223) then
    (mkState (N.land b 31) 0 1 128 191 (bomSeen st), [])
  else if (224 <=? b) && (b <=? 239) then
    (mkState (N.land b 15) 0 2
       (if b =? 224 then 160 else 128)
       (if b =? 237 then 159 else 191) (bomSeen st), [])
  else if (240 <=? b) && (b <=? 244) then
    (mkState (N.land b 7) 0 3
       (if b =? 240 then 144 else 128)
       (if b =? 244 then 143 else 191) (bomSeen st), [])
  else (st, [REPLACEMENT]).

(** One byte through the decoder: the code points it completes. A byte
    that cannot continue the open sequence ends it with U+FFFD and is
    then read again as a lead byte. *)
Definition handler (st : state) (b : N) : state * list N :=
  if bytesNeeded st =? 0 then leadByte st b
  else if negb ((lower st <=? b) && (b <=? upper st)) then
    let (st', cps) := leadByte (idle st) b in
    (st', REPLACEMENT :: cps)
  else
    let cp := N.lor (N.shiftl (codePoint st) 6) (N.land b 63) in
    let seen := bytesSeen st + 1 in
    if seen =? bytesNeeded st then (idle st, [cp])
    else (mkState cp seen (bytesNeeded st) 128 191 (bomSeen st), []).

(** A code point as UTF-16 code units. *)
Definition codeUnits (cp : N) : jsstring :=
  if cp <? 65536 then [cp]
  else [55296 + N.shiftr (cp - 65536) 10; 56320 + N.land (cp - 65536) 1023].

(** Code points to text; the first code point of the stream is dropped
    when it is the byte-order mark. *)
Fixpoint serialize (bom : bool) (cps : list N) : bool * jsstring :=
  match cps with
  | [] => (bom, [])
  | cp :: rest =>
      if negb bom && (cp =? 65279) then serialize true rest
      else let (bom', s) := serialize true rest in (bom', codeUnits cp ++ s)
  end.

Definition withBom (st : state) (b : bool) : state :=
  mkState (codePoint st) (bytesSeen st) (bytesNeeded st)
          (lower st) (upper st) b.

Definition decodeByte (st : state) (b : Byte.byte) : state * jsstring :=
  let (st1, cps) := handler st (Byte.to_N b) in
  let (bom, s) := serialize (bomSeen st1) cps in
  (withBom st1 bom, s).

(** [decoder.decode(value, { stream: true })] *)
Fixpoint decode (st : state) (value : list Byte.byte) : state * jsstring :=
  match value with
  | [] => (st, [])
  | b :: rest =>
      let (st1, s1) := decodeByte st b in
      let (st2, s2) := decode st1 rest in
      (st2, s1 ++ s2)
  end.

(** The end of the input: an open sequence ends with U+FFFD. *)
Definition flush (st : state) : jsstring :=
  if bytesNeeded st =? 0 then []
  else snd (serialize (bomSeen st) [REPLACEMENT]).

(** UTF-8 decode of a whole body, as [response.json()] does it. *)
Definition decodeAll (bytes : list Byte.byte) : jsstring :=
  let (st, s) := decode init bytes in s ++ flush st.

End TextDecoder.

(* ================================================================== *)
(** ** The network as the program sees it *)
(* ================================================================== *)

Module Net.

(** One [await reader.read()]: a chunk of bytes, or the read rejects.
    The end of the list is [{ done: true }]. *)
Inductive readResult : Type :=
| Chunk (value : list Byte.byte)
| ReadFailure (message : jsstring).

(** The [Response] of a [fetch]: [body] is absent when there is no
    stream to read. *)
Record Response : Type := mkResponse {
  ok : bool;
  status : N;
  contentType : option jsstring;      (* headers.get("content-type") *)
  body : option (list readResult)
}.

(** [await fetch(...)]: a response, or the request itself fails. *)
Inductive fetchOutcome : Type :=
| NetworkFailure (message : jsstring)
| Responded (response : Response).

(** All the bytes of a body, unless a read fails. *)
Fixpoint allBytes (reads : list readResult)
  : jsstring + list Byte.byte :=
  match reads with
  | [] => inr []
  | Chunk v :: rest =>
      match allBytes rest with
      | inr bs => inr (v ++ bs)
      | inl m => inl m
      end
  | ReadFailure m :: _ => inl m
  end.

End Net.
Export Net.

(* ================================================================== *)
(** ** Exceptions, the sink and the correlation-id slot *)
(* ================================================================== *)

Module Eff.

Inductive errorClass : Type := ErrorC | TypeErrorC | SyntaxErrorC.

(** What a [throw] carries. [ApiError] is the class of [api.ts];
    [NonError] is any thrown value that is not an [Error]. *)
Inductive exn : Type :=
| Native (cls : errorClass) (message : jsstring)
| ApiError (message : jsstring) (status : option N)
           (endpoint : option jsstring)
| NonError.

Inductive outcome (A : Type) : Type :=
| Ok (a : A)
| Throw (e : exn).
Arguments Ok {A} a.
Arguments Throw {A} e.

(** A run: how it ended, the value left in [agentMessageId] ([None] is
    [null]), and the texts passed to [onStreamChunk], in call order. *)
Record Res (A : Type) : Type := mkRes {
  result : outcome A;
  agentMessageId : option value;
  emitted : list jsstring
}.

Definition M (A : Type) : Type := option value -> Res A.

Definition ret {A} (a : A) : M A := fun s => mkRes (Ok a) s [].

Definition bind {A B} (m : M A) (f : A -> M B) : M B :=
  fun s =>
    let r := m s in
    match result r with
    | Ok a =>
        let r' := f a (agentMessageId r) in
        mkRes (result r') (agentMessageId r') (emitted r ++ emitted r')
    | Throw e => mkRes (Throw e) (agentMessageId r) (emitted r)
    end.

Definition throw {A} (e : exn) : M A := fun s => mkRes (Throw e) s [].

(** [try { m } catch (e) { h e }]: what [m] did before it threw stays
    done. *)
Definition tryCatch {A} (m : M A) (h : exn -> M A) : M A :=
  fun s =>
    let r := m s in
    match result r with
    | Ok _ => r
    | Throw e =>
        let r' := h e (agentMessageId r) in
        mkRes (result r') (agentMessageId r') (emitted r ++ emitted r')
    end.

Definition onStreamChunk (chunk : jsstring) : M unit :=
  fun s => mkRes (Ok tt) s [chunk].

Definition setAgentMessageId (v : option value) : M unit :=
  fun _ => mkRes (Ok tt) v [].

Definition getAgentMessageId : M (option value) :=
  fun s => mkRes (Ok s) s [].

Definition when (b : bool) (m : M unit) : M unit :=
  if b then m else ret tt.

End Eff.
Export Eff.

Declare Scope js_scope.
Delimit Scope js_scope with js.
Notation "x <- m ;; k" := (bind m (fun x => k))
  (at level 61, m at next level, right associativity) : js_scope.
Notation "m ;; k" := (bind m (fun _ => k))
  (at level 61, right associativity) : js_scope.

(* ================================================================== *)
(** ** [src/lib/utils.ts]: [callChatAPI] *)
(* ================================================================== *)

Module Chat.
Local Open Scope js_scope.

(** [JSON.parse(text)] inside a [try]. *)
Definition jsonParse (text : jsstring) : M value :=
  match JSON.parse text with
  | Some v => ret v
  | None => throw (Native SyntaxErrorC (lit "Unexpected token in JSON"))
  end.

(** [data.name] for the names the source reads ([type],
    [agent_message_id], [response], [message], [chunk], [content]):
    reading from [null] throws; an object gives its own field; booleans,
    numbers, strings and arrays have no property of these names. *)
Definition getProp (data : value) (name : jsstring) : M (option value) :=
  match data with
  | JNull => throw (Native TypeErrorC (lit "Cannot read properties of null"))
  | JObject fields => ret (lookup name fields)
  | _ => ret None
  end.

(** [a || b] *)
Definition orElse (a b : option value) : option value :=
  if truthy a then a else b.

(** [v === "literal"] *)
Definition strictEq (v : option value) (s : jsstring) : bool :=
  match v with
  | Some (JString t) => JSString.eqb t s
  | _ => false
  end.

(** [v.replace(/\\n/g, "\n")]: only a string has the method. *)
Definition callReplace (v : option value) : M jsstring :=
  match v with
  | Some (JString s) => ret (replaceEscapedNewlines s)
  | _ => throw (Native TypeErrorC (lit "replace is not a function"))
  end.

(** The [try] block on a data payload, lines 160-177, and again lines
    201-214 for the text left in the buffer. *)
Definition tryBlock (dataContent : jsstring) : M unit :=
  data <- jsonParse dataContent ;;
  type <- getProp data (lit "type") ;;
  id <- getProp data (lit "agent_message_id") ;;
  when (strictEq type (lit "end_metadata") && truthy id)
       (setAgentMessageId id) ;;
  response <- getProp data (lit "response") ;;
  message <- getProp data (lit "message") ;;
  chunk <- getProp data (lit "chunk") ;;
  content <- getProp data (lit "content") ;;
  let chunk :=
    orElse (orElse (orElse (orElse response message) chunk) content)
           (Some (JString [])) in
  if truthy chunk then
    processedChunk <- callReplace chunk ;;
    onStreamChunk processedChunk
  else ret tt.

(** Its [catch] block, lines 178-184 and 215-221. *)
Definition catchBlock (dataContent : jsstring) (parseError : exn) : M unit :=
  when (nonEmpty (trim dataContent))
       (onStreamChunk (replaceEscapedNewlines dataContent)).

Definition handleData (dataContent : jsstring) : M unit :=
  tryCatch (tryBlock dataContent) (catchBlock dataContent).

Inductive control : Type := Continue | Break.

(** The body of [for (const line of lines)], lines 151-193. *)
Definition forBody (line : jsstring) : M control :=
  if nonEmpty (trim line) then
    if startsWith line (lit "data: ") then
      let dataContent := substring 6 line in
      if includes dataContent (lit "[DONE]") then ret Break
      else handleData dataContent ;; ret Continue
    else if nonEmpty (trim line)
            && negb (startsWith line (lit "event:"))
            && negb (startsWith line (lit "id:")) then
      onStreamChunk (replaceEscapedNewlines line) ;; ret Continue
    else ret Continue
  else ret Continue.

(** [for (const line of lines) { ... }]: a [break] leaves this loop. *)
Fixpoint forLines (lines : list jsstring) : M unit :=
  match lines with
  | [] => ret tt
  | line :: rest =>
      c <- forBody line ;;
      match c with
      | Break => ret tt
      | Continue => forLines rest
      end
  end.

(** [while (true) { ... }], lines 140-195: one turn per read; gives the
    buffer left when the stream is done. *)
Fixpoint readLoop (reads : list readResult) (decoder : TextDecoder.state)
         (buffer : jsstring) : M jsstring :=
  match reads with
  | [] => ret buffer
  | ReadFailure m :: _ => throw (Native TypeErrorC m)
  | Chunk value :: rest =>
      let (decoder', text) := TextDecoder.decode decoder value in
      let buffer := buffer ++ text in
      let lines := split buffer in
      let buffer := last lines [] in            (* [lines.pop()] *)
      let lines := removelast lines in
      forLines lines ;;
      readLoop rest decoder' buffer
  end.

(** [if (buffer.trim()) { ... }], lines 197-224. *)
Definition flushBuffer (buffer : jsstring) : M unit :=
  if nonEmpty (trim buffer) then
    if startsWith buffer (lit "data: ") then
      let dataContent := substring 6 buffer in
      if negb (includes dataContent (lit "[DONE]")) then
        handleData dataContent
      else ret tt
    else ret tt
  else ret tt.

(** The streaming branch, lines 130-226. *)
Definition streaming (response : Response) : M (option value) :=
  match body response with
  | None => throw (Native ErrorC (lit "No response body reader available"))
  | Some reads =>
      setAgentMessageId None ;;
      buffer <- readLoop reads TextDecoder.init [] ;;
      flushBuffer buffer ;;
      getAgentMessageId
  end.

(** [await response.json()] *)
Definition responseJson (response : Response) : M value :=
  match allBytes (match body response with Some r => r | None => [] end) with
  | inl m => throw (Native TypeErrorC m)
  | inr bytes => jsonParse (TextDecoder.decodeAll bytes)
  end.

(** The single-document branch, lines 119-126. *)
Definition nonStreaming (response : Response) : M (option value) :=
  data <- responseJson response ;;
  r <- getProp data (lit "response") ;;
  m <- getProp data (lit "message") ;;
  c <- getProp data (lit "content") ;;
  let responseText := orElse (orElse (orElse r m) c) (Some data) in
  (if truthy responseText then
     processedResponse <- callReplace responseText ;;
     onStreamChunk processedResponse
   else ret tt) ;;
  id <- getProp data (lit "agent_message_id") ;;
  ret (orElse id None).

Definition decimal (n : N) : jsstring :=
  lit (DecimalString.NilZero.string_of_uint (N.to_uint n)).

Definition isJson (contentType : option jsstring) : bool :=
  match contentType with
  | Some ct => nonEmpty ct && includes ct (lit "application/json")
  | None => false
  end.

(** [callChatAPI(sessionId, message, onStreamChunk)], with [net] what
    the POST of [{ session_id, message }] meets. The sink is the log of
    [emitted] texts; it is taken to return normally. *)
Definition callChatAPI (net : fetchOutcome) : M (option value) :=
  tryCatch
    (response <-
       match net with
       | NetworkFailure m => throw (Native TypeErrorC m)
       | Responded r => ret r
       end ;;
     (if negb (ok response) then
        throw (Native ErrorC
                 (lit "API request failed with status "
                  ++ decimal (status response)))
      else ret tt) ;;
     if isJson (contentType response) then nonStreaming response
     else streaming response)
    (fun error =>
       throw (Native ErrorC (lit "Failed to get response from chat API"))).

(** A call from a fresh state. *)
Definition run {A} (m : M A) : Res A := m None.

(** ** Inputs for examples *)

(** A literal with each apostrophe standing for a double quote. *)
Definition wire (s : string) : jsstring :=
  map (fun c => if N.eqb c 39 then 34%N else c) (lit s).

Definition bytes (s : string) : list Byte.byte :=
  map (fun c => match Byte.of_N c with Some b => b | None => Byte.x00 end)
      (wire s).

Definition NL : string := String (ascii_of_nat 10) EmptyString.

(** A line of text with its newline, as bytes. *)
Definition lineBytes (s : string) : list Byte.byte :=
  bytes (s ++ NL)%string.

(** An [end_metadata] data line carrying the given id. *)
Definition metadataLine (id : string) : string :=
  ("data: {'type':'end_metadata','agent_message_id':'" ++ id ++ "'}")%string.

(** An event-stream response delivered in the given chunks. *)
Definition streamResponse (chunks : list (list Byte.byte)) : Response :=
  mkResponse true 200 (Some (lit "text/event-stream"))
             (Some (map Chunk chunks)).

Definition eventStream (chunks : list (list Byte.byte)) : fetchOutcome :=
  Responded (streamResponse chunks).

(** A response that is one JSON document. *)
Definition documentResponse (doc : list Byte.byte) : Response :=
  mkResponse true 200 (Some (lit "application/json")) (Some [Chunk doc]).

Definition jsonDocument (doc : list Byte.byte) : fetchOutcome :=
  Responded (documentResponse doc).

End Chat.

(* ================================================================== *)
(** ** [src/lib/api.ts]: the data-fetching wrappers *)
(* ================================================================== *)

Module Api.

Inductive TimeFilter : Type := today | week | month.

Record AnalyticsQueryParams : Type := mkParams {
  start_date : option jsstring;
  end_date : option jsstring;
  timeFilter : option TimeFilter
}.

(** Truthiness of an optional string field. *)
Definition given (v : option jsstring) : bool :=
  match v with
  | Some s => nonEmpty s
  | None => false
  end.

Definition andThen {A B} (m : outcome A) (f : A -> outcome B) : outcome B :=
  match m with
  | Ok a => f a
  | Throw e => Throw e
  end.

Definition catch {A} (m : outcome A) (h : exn -> outcome A) : outcome A :=
  match m with
  | Ok a => Ok a
  | Throw e => h e
  end.

(** [await response.json()] *)
Definition responseJson (response : Response) : outcome value :=
  match allBytes (match body response with Some r => r | None => [] end) with
  | inl m => Throw (Native TypeErrorC m)
  | inr bytes =>
      match JSON.parse (TextDecoder.decodeAll bytes) with
      | Some v => Ok v
      | None => Throw (Native SyntaxErrorC (lit "Unexpected token in JSON"))
      end
  end.

Section Wrappers.

(** The configured base URL as it prints in a template literal. *)
Variable API_BASE_URL : jsstring.

(** The network: what a GET of a URL meets. *)
Variable fetch : jsstring -> fetchOutcome.

(** [getDateRangeFromFilter], which reads the browser's clock and time
    zone: the start and end dates of a filter. *)
Variable getDateRangeFromFilter : TimeFilter -> jsstring * jsstring.

(** [URLSearchParams.prototype.toString] on the appended pairs. *)
Variable searchParamsToString : list (jsstring * jsstring) -> jsstring.

(** [buildQueryString]: the entries with a non-empty value, encoded. *)
Definition buildQueryString (params : list (jsstring * jsstring))
  : jsstring :=
  searchParamsToString (filter (fun kv => nonEmpty (snd kv)) params).

(** The [queryParams] object both wrappers build, in insertion order. *)
Definition queryParams (params : AnalyticsQueryParams)
  : list (jsstring * jsstring) :=
  (match start_date params with
   | Some s => if nonEmpty s then [(lit "start_date", s)] else []
   | None => []
   end) ++
  (match end_date params with
   | Some s => if nonEmpty s then [(lit "end_date", s)] else []
   | None => []
   end) ++
  (match timeFilter params with
   | Some f =>
       if negb (given (start_date params)) && negb (given (end_date params))
       then let (s, e) := getDateRangeFromFilter f in
            [(lit "start_date", s); (lit "end_date", e)]
       else []
   | None => []
   end).

Definition urlOf (path : jsstring) (params : AnalyticsQueryParams)
  : jsstring :=
  let queryString := buildQueryString (queryParams params) in
  API_BASE_URL ++ path ++
  (if nonEmpty queryString then lit "?" ++ queryString else []).

Definition awaitFetch (url : jsstring) : outcome Response :=
  match fetch url with
  | NetworkFailure m => Throw (Native TypeErrorC m)
  | Responded r => Ok r
  end.

(** [fetchAnalytics(params)], lines 253-290. *)
Definition fetchAnalytics (params : AnalyticsQueryParams) : outcome value :=
  catch
    (andThen (awaitFetch (urlOf (lit "/api/lyzr/analytics") params))
       (fun response =>
          if negb (ok response) then
            Throw (Native ErrorC
                     (lit "Analytics API request failed with status "
                      ++ Chat.decimal (status response)))
          else responseJson response))
    (fun error => Throw (Native ErrorC (lit "Failed to fetch analytics data"))).

(** [fetchHubSpotSessions(params)], lines 304-341. *)
Definition fetchHubSpotSessions (params : AnalyticsQueryParams)
  : outcome value :=
  catch
    (andThen (awaitFetch (urlOf (lit "/api/lyzr/hubspot-sessions") params))
       (fun response =>
          if negb (ok response) then
            Throw (Native ErrorC
                     (lit "HubSpot sessions API request failed with status "
                      ++ Chat.decimal (status response)))
          else responseJson response))
    (fun error =>
       Throw (Native ErrorC (lit "Failed to fetch HubSpot sessions data"))).

(** The request of a wrapper fails: the network fails, or the status is
    not a success. *)
Definition requestFails (path : jsstring) (params : AnalyticsQueryParams)
  : Prop :=
  match fetch (urlOf path params) with
  | NetworkFailure _ => True
  | Responded r => ok r = false
  end.

End Wrappers.

(** [handleApiError(error, endpoint)], lines 367-374: it always throws. *)
Definition handleApiError {A} (error : exn) (endpoint : jsstring)
  : outcome A :=
  match error with
  | ApiError _ _ _ => Throw error
  | Native _ message => Throw (ApiError message None (Some endpoint))
  | NonError => Throw (ApiError (lit "Unknown API error") None (Some endpoint))
  end.

(** An error is of the uniform type and names an endpoint. *)
Definition isApiErrorWithEndpoint (e : exn) : Prop :=
  exists message status endpoint, e = ApiError message status (Some endpoint).

End Api.

(* ================================================================== *)
(** ** The decoder as the specification describes it *)
(* ================================================================== *)

Module Spec.

(** A terminal marker: a data line whose payload contains [[DONE]]. *)
Definition isMarker (line : jsstring) : bool :=
  startsWith line (lit "data: ") &&
  includes (substring 6 line) (lit "[DONE]").

(** The id a line records: it is a data line, its payload is a JSON
    object whose [type] is [end_metadata] and whose [agent_message_id]
    is non-empty (truthy). *)
Definition metadataId (line : jsstring) : option value :=
  if startsWith line (lit "data: ") then
    match JSON.parse (substring 6 line) with
    | Some (JObject fields) =>
        if Chat.strictEq (lookup (lit "type") fields) (lit "end_metadata")
           && truthy (lookup (lit "agent_message_id") fields)
        then lookup (lit "agent_message_id") fields
        else None
    | _ => None
    end
  else None.

(** Last write wins: the id of the last line that records one. *)
Definition lastId (start : option value) (lines : list jsstring)
  : option value :=
  fold_left
    (fun id line =>
       match metadataId line with
       | Some v => Some v
       | None => id
       end)
    lines start.

(** The lines of one chunk that are processed: those before its first
    terminal marker. *)
Fixpoint untilMarker (lines : list jsstring) : list jsstring :=
  match lines with
  | [] => []
  | l :: rest => if isMarker l then [] else l :: untilMarker rest
  end.

(** The text left without a newline at the end of the stream is
    processed when it is a data line and not a terminal marker. *)
Definition tailLine (buffer : jsstring) : list jsstring :=
  if startsWith buffer (lit "data: ")
     && negb (includes (substring 6 buffer) (lit "[DONE]"))
  then [buffer] else [].

(** The lines of a stream that are processed, chunk after chunk, and
    last the text left in the buffer. *)
Fixpoint processedLines (decoder : TextDecoder.state) (buffer : jsstring)
         (chunks : list (list Byte.byte)) : list jsstring :=
  match chunks with
  | [] => tailLine buffer
  | value :: rest =>
      let (decoder', text) := TextDecoder.decode decoder value in
      let lines := split (buffer ++ text) in
      untilMarker (removelast lines)
      ++ processedLines decoder' (last lines []) rest
  end.

(** The whole text of a stream, however it is cut into chunks. *)
Definition textOf (chunks : list (list Byte.byte)) : jsstring :=
  snd (TextDecoder.decode TextDecoder.init (List.concat chunks)).

(** No complete line of the stream is a terminal marker. *)
Definition markerFree (chunks : list (list Byte.byte)) : Prop :=
  Forall (fun l => isMarker l = false) (removelast (split (textOf chunks))).

(** The first truthy value in priority order, as [a || b || ...]
    picks it. *)
Definition firstTruthy (candidates : list (option value))
  : option (option value) :=
  find truthy candidates.

(** The first value that is present, empty or not. *)
Definition firstPresent (candidates : list (option value))
  : option (option value) :=
  find (fun v => match v with Some _ => true | None => false end) candidates.

(** The two-character sequence backslash, [n]. *)
Definition escapedNewline : jsstring := [92; 110]%N.

(** A text came out of the escaped-newline replacement. *)
Definition normalized (e : jsstring) : Prop :=
  (exists s, e = replaceEscapedNewlines s) /\
  includes e escapedNewline = false.

(** A run that first emits [out] and then goes on as [r]. *)
Definition after {A} (out : list jsstring) (r : Res A) : Res A :=
  mkRes (result r) (agentMessageId r) (out ++ emitted r).

(** A response that is read as a stream of the given chunks. *)
Definition streams (response : Response) (chunks : list (list Byte.byte))
  : Prop :=
  ok response = true /\
  Chat.isJson (contentType response) = false /\
  body response = Some (map Chunk chunks).

(** A response that is read as one JSON document [data]. *)
Definition carries (response : Response) (data : value) : Prop :=
  ok response = true /\
  Chat.isJson (contentType response) = true /\
  exists bytes,
    allBytes (match body response with Some r => r | None => [] end)
    = inr bytes /\
    JSON.parse (TextDecoder.decodeAll bytes) = Some data.

(** The decoder run on the whole text of a stream at once: its
    complete lines in order, then the text after the last newline. *)
Definition decodeText (text : jsstring) : M (option value) :=
  bind (setAgentMessageId None) (fun _ =>
  bind (Chat.forLines (removelast (split text))) (fun _ =>
  bind (Chat.flushBuffer (last (split text) [])) (fun _ =>
  getAgentMessageId))).

(** Every text a computation passes to the sink satisfies [P]. *)
Definition emits {A} (P : jsstring -> Prop) (m : M A) : Prop :=
  forall s, Forall P (emitted (m s)).

(** Every value a computation returns satisfies [Q]. *)
Definition yields {A} (Q : A -> Prop) (m : M A) : Prop :=
  forall s a, result (m s) = Ok a -> Q a.

(** A computation that ends without an exception. *)
Definition total {A} (m : M A) : Prop :=
  forall s, exists a, result (m s) = Ok a.

End Spec.

(* ================================================================== *)
(** ** [src/lib/utils.ts]: [sendFeedback] and [sendHubSpotInteraction] *)
(* ================================================================== *)

Module Senders.
Import Api.

Inductive Feedback : Type := like | dislike.

Inductive Interaction : Type := rendered | filled | none.

(** [JSON.stringify({ feedback })] *)
Definition feedbackBody (feedback : Feedback) : jsstring :=
  match feedback with
  | like => Chat.wire "{'feedback':'like'}"
  | dislike => Chat.wire "{'feedback':'dislike'}"
  end.

(** [JSON.stringify({ hubspot_interaction: interaction })] *)
Definition interactionBody (interaction : Interaction) : jsstring :=
  match interaction with
  | rendered => Chat.wire "{'hubspot_interaction':'rendered'}"
  | filled => Chat.wire "{'hubspot_interaction':'filled'}"
  | none => Chat.wire "{'hubspot_interaction':'none'}"
  end.

Section Posts.

(** [import.meta.env.VITE_API_URL] as it prints in a template literal. *)
Variable VITE_API_URL : jsstring.

(** The network: what a POST of a body to a URL meets. *)
Variable post : jsstring -> jsstring -> fetchOutcome.

Definition awaitPost (url body : jsstring) : outcome Response :=
  match post url body with
  | NetworkFailure m => Throw (Native TypeErrorC m)
  | Responded r => Ok r
  end.

(** [sendFeedback(sessionId, messageId, feedback)], lines 239-273. *)
Definition sendFeedback (sessionId messageId : jsstring)
           (feedback : Feedback) : outcome unit :=
  catch
    (andThen
       (awaitPost (VITE_API_URL ++ lit "/api/lyzr/feedback/" ++ sessionId
                   ++ lit "/" ++ messageId)
                  (feedbackBody feedback))
       (fun response =>
          if negb (ok response) then
            Throw (Native ErrorC
                     (lit "Feedback API request failed with status "
                      ++ Chat.decimal (status response)))
          else Ok tt))
    (fun error => Throw (Native ErrorC (lit "Failed to send feedback"))).

(** [sendHubSpotInteraction(sessionId, interaction)], lines 280-313. *)
Definition sendHubSpotInteraction (sessionId : jsstring)
           (interaction : Interaction) : outcome unit :=
  catch
    (andThen
       (awaitPost (VITE_API_URL ++ lit "/api/lyzr/hubspot-interaction/"
                   ++ sessionId)
                  (interactionBody interaction))
       (fun response =>
          if negb (ok response) then
            Throw (Native ErrorC
                     (lit "HubSpot interaction API request failed with status "
                      ++ Chat.decimal (status response)))
          else Ok tt))
    (fun error =>
       Throw (Native ErrorC (lit "Failed to send HubSpot interaction"))).

End Posts.

End Senders.

(* ================================================================== *)
(** ** [URLSearchParams]: the query string of [buildQueryString] *)
(* ================================================================== *)

Module URLSearchParams.
Local Open Scope N_scope.

Definition isHighSurrogate (c : N) : bool := (55296 <=? c) && (c <=? 56319).
Definition isLowSurrogate (c : N) : bool := (56320 <=? c) && (c <=? 57343).

(** The code points of a string as a USVString: a surrogate pair is one
    code point, a surrogate on its own becomes U+FFFD. *)
Fixpoint codePoints (s : jsstring) : list N :=
  match s with
  | [] => []
  | c :: r =>
      match r with
      | d :: r' =>
          if isHighSurrogate c && isLowSurrogate d
          then (65536 + (c - 55296) * 1024 + (d - 56320)) :: codePoints r'
          else (if isHighSurrogate c || isLowSurrogate c then 65533 else c)
               :: codePoints r
      | [] => [if isHighSurrogate c || isLowSurrogate c then 65533 else c]
      end
  end.

(** UTF-8 encode of one code point. *)
Definition utf8 (cp : N) : list N :=
  if cp <? 128 then [cp]
  else if cp <? 2048 then [192 + N.shiftr cp 6; 128 + N.land cp 63]
  else if cp <? 65536 then
    [224 + N.shiftr cp 12; 128 + N.land (N.shiftr cp 6) 63;
     128 + N.land cp 63]
  else
    [240 + N.shiftr cp 18; 128 + N.land (N.shiftr cp 12) 63;
     128 + N.land (N.shiftr cp 6) 63; 128 + N.land cp 63].

Definition isAlphanumeric (b : N) : bool :=
  ((48 <=? b) && (b <=? 57)) || ((65 <=? b) && (b <=? 90))
  || ((97 <=? b) && (b <=? 122)).

(** The bytes the form-urlencoded serializer leaves as they are:
    alphanumerics and [* - . _]. *)
Definition isUnreserved (b : N) : bool :=
  isAlphanumeric b || (b =? 42) || (b =? 45) || (b =? 46) || (b =? 95).

Definition hexUpper (d : N) : N :=
  if d <? 10 then 48 + d else 55 + d.

(** One byte, percent-encoded with space as plus. *)
Definition encodeByte (b : N) : jsstring :=
  if isUnreserved b then [b]
  else if b =? 32 then [43]
  else [37; hexUpper (N.shiftr b 4); hexUpper (N.land b 15)].

Definition encode (s : jsstring) : jsstring :=
  flat_map encodeByte (flat_map utf8 (codePoints s)).

(** [params.toString()] for the pairs appended to [params], in order. *)
Fixpoint toString (pairs : list (jsstring * jsstring)) : jsstring :=
  match pairs with
  | [] => []
  | (name, value) :: rest =>
      encode name ++ [61] ++ encode value
      ++ match rest with
         | [] => []
         | _ :: _ => [38] ++ toString rest
         end
  end.

(** The code units a serialized query is made of. *)
Definition isQueryUnit (c : N) : bool :=
  isUnreserved c || (c =? 43) || (c =? 37) || (c =? 61) || (c =? 38).

End URLSearchParams.

(* ================================================================== *)
(** ** [src/lib/utils.ts]: [handleScroll] and the timers it sets *)
(* ================================================================== *)

Module Scroll.

(** A timer set by [setTimeout]; every timer of [handleScroll] runs
    [setIsScrolling(false)]. *)
Record Timer : Type := mkTimer { timerId : N; due : Z }.

(** The clock, the timers that wait, the [isScrolling] state and the
    [scrollTimeout] ref. *)
Record World : Type := mkWorld {
  now : Z;
  nextId : N;
  waiting : list Timer;
  isScrolling : bool;
  scrollTimeout : option N
}.

(** [clearTimeout(id)]: the timer is dropped if it still waits. *)
Definition clearTimeout (id : N) (w : World) : World :=
  mkWorld (now w) (nextId w)
          (filter (fun t => negb (N.eqb (timerId t) id)) (waiting w))
          (isScrolling w) (scrollTimeout w).

(** The delay of a timer is a WebIDL [long]: the number wraps around
    to 32 signed bits. *)
Definition toInt32 (d : Z) : Z :=
  ((d + 2147483648) mod 4294967296 - 2147483648)%Z.

(** [setTimeout(callback, delay)]: a negative delay counts as zero; the
    new id is returned. *)
Definition setTimeout (delay : Z) (w : World) : N * World :=
  (nextId w,
   mkWorld (now w) (N.succ (nextId w))
           (waiting w
            ++ [mkTimer (nextId w) (now w + Z.max 0 (toInt32 delay))%Z])
           (isScrolling w) (scrollTimeout w)).

(** [handleScroll(setIsScrolling, scrollTimeout, timeoutDuration)],
    lines 72-84; [None] is a call without [timeoutDuration]. *)
Definition handleScroll (timeoutDuration : option Z) (w : World) : World :=
  let timeoutDuration :=
    match timeoutDuration with Some d => d | None => 1000%Z end in
  let w := mkWorld (now w) (nextId w) (waiting w) true (scrollTimeout w) in
  let w := match scrollTimeout w with
           | Some id => if N.eqb id 0 then w else clearTimeout id w
           | None => w
           end in
  let (id, w) := setTimeout timeoutDuration w in
  mkWorld (now w) (nextId w) (waiting w) (isScrolling w) (Some id).

(** The clock reaches [t]: the timers due by then run, as soon as they
    are due, and are gone. *)
Definition advance (t : Z) (w : World) : World :=
  let t := Z.max (now w) t in
  let fired := filter (fun x => Z.leb (due x) t) (waiting w) in
  mkWorld t (nextId w)
          (filter (fun x => negb (Z.leb (due x) t)) (waiting w))
          (match fired with [] => isScrolling w | _ :: _ => false end)
          (scrollTimeout w).

(** What happens to a component that uses [handleScroll]. *)
Inductive event : Type :=
| Scrolled (timeoutDuration : option Z)
| Clock (t : Z).

Definition step (w : World) (e : event) : World :=
  match e with
  | Scrolled d => handleScroll d w
  | Clock t => advance t w
  end.

(** The component as it mounts: not scrolling, no timer, an empty ref. *)
Definition mounted (t : Z) : World := mkWorld t 1 [] false None.

Definition run (t : Z) (events : list event) : World :=
  fold_left step events (mounted t).

(** At most one timer waits, it is the one the ref names, and
    [isScrolling] is true exactly while it waits. *)
(** The time a timer of [handleScroll] waits. *)
Definition resetDelay (timeoutDuration : option Z) : Z :=
  Z.max 0 (toInt32 (match timeoutDuration with
                    | Some d => d
                    | None => 1000%Z
                    end)).

Definition wellFormed (w : World) : Prop :=
  (0 < nextId w)%N /\
  match waiting w with
  | [] => isScrolling w = false
  | [t] => isScrolling w = true /\ scrollTimeout w = Some (timerId t)
           /\ (0 < timerId t < nextId w)%N
  | _ => False
  end.

End Scroll.

(* ================================================================== *)
(** ** [Date]: the clock and the calendar of [getDateRangeFromFilter] *)
(* ================================================================== *)

Module JSDate.
Import Api.
Local Open Scope Z_scope.

(** Time values are milliseconds since 1970-01-01T00:00:00Z. *)
Definition msPerDay : Z := 86400000.

Definition Day (t : Z) : Z := t / msPerDay.

Definition TimeWithinDay (t : Z) : Z := t mod msPerDay.

Definition DaysInYear (y : Z) : Z :=
  if negb (y mod 4 =? 0) then 365
  else if negb (y mod 100 =? 0) then 366
  else if negb (y mod 400 =? 0) then 365
  else 366.

Definition DayFromYear (y : Z) : Z :=
  365 * (y - 1970) + (y - 1969) / 4 - (y - 1901) / 100 + (y - 1601) / 400.

(** The largest [y] whose first day is not after [t]: the estimate from
    the mean length of a year is one off at most. *)
Definition YearFromTime (t : Z) : Z :=
  let y := 1970 + (Day t * 400) / 146097 in
  if Day t <? DayFromYear y then y - 1
  else if DayFromYear (y + 1) <=? Day t then y + 1
  else y.

Definition InLeapYear (t : Z) : Z :=
  if DaysInYear (YearFromTime t) =? 366 then 1 else 0.

Definition DayWithinYear (t : Z) : Z := Day t - DayFromYear (YearFromTime t).

Definition MonthFromTime (t : Z) : Z :=
  let d := DayWithinYear t in
  let leap := InLeapYear t in
  if d <? 31 then 0
  else if d <? 59 + leap then 1
  else if d <? 90 + leap then 2
  else if d <? 120 + leap then 3
  else if d <? 151 + leap then 4
  else if d <? 181 + leap then 5
  else if d <? 212 + leap then 6
  else if d <? 243 + leap then 7
  else if d <? 273 + leap then 8
  else if d <? 304 + leap then 9
  else if d <? 334 + leap then 10
  else 11.

(** The day within the year on which a month starts. *)
Definition monthStart (m leap : Z) : Z :=
  if m =? 0 then 0
  else if m =? 1 then 31
  else if m =? 2 then 59 + leap
  else if m =? 3 then 90 + leap
  else if m =? 4 then 120 + leap
  else if m =? 5 then 151 + leap
  else if m =? 6 then 181 + leap
  else if m =? 7 then 212 + leap
  else if m =? 8 then 243 + leap
  else if m =? 9 then 273 + leap
  else if m =? 10 then 304 + leap
  else 334 + leap.

Definition DateFromTime (t : Z) : Z :=
  DayWithinYear t - monthStart (MonthFromTime t) (InLeapYear t) + 1.

Definition WeekDay (t : Z) : Z := (Day t + 4) mod 7.

Definition HourFromTime (t : Z) : Z := (t / 3600000) mod 24.
Definition MinFromTime (t : Z) : Z := (t / 60000) mod 60.
Definition SecFromTime (t : Z) : Z := (t / 1000) mod 60.
Definition msFromTime (t : Z) : Z := t mod 1000.

Definition MakeTime (hour min sec ms : Z) : Z :=
  hour * 3600000 + min * 60000 + sec * 1000 + ms.

(** The day number of a date; months and dates out of range carry over. *)
Definition MakeDay (year month date : Z) : Z :=
  let ym := year + month / 12 in
  let mn := month mod 12 in
  DayFromYear ym
  + monthStart mn (if DaysInYear ym =? 366 then 1 else 0)
  + date - 1.

Definition MakeDate (day time : Z) : Z := day * msPerDay + time.

(** [None] is [NaN], the time value of an invalid date. *)
Definition TimeClip (t : Z) : option Z :=
  if 8640000000000000 <? Z.abs t then None else Some t.

(** *** [toISOString] and [split("T")] *)

Fixpoint digits (width : nat) (n : Z) : jsstring :=
  match width with
  | O => []
  | S w => digits w (n / 10) ++ [(48 + Z.to_N (n mod 10))%N]
  end.

Definition isoYear (y : Z) : jsstring :=
  if (0 <=? y) && (y <=? 9999) then digits 4 y
  else (if y <? 0 then lit "-" else lit "+") ++ digits 6 (Z.abs y).

(** The date part, [YYYY-MM-DD], of the time value [t] in UTC. *)
Definition isoDate (t : Z) : jsstring :=
  isoYear (YearFromTime t) ++ lit "-" ++ digits 2 (MonthFromTime t + 1)
  ++ lit "-" ++ digits 2 (DateFromTime t).

Definition isoTime (t : Z) : jsstring :=
  digits 2 (HourFromTime t) ++ lit ":" ++ digits 2 (MinFromTime t)
  ++ lit ":" ++ digits 2 (SecFromTime t) ++ lit "." ++ digits 3 (msFromTime t).

(** [d.toISOString()]; [None] is the [RangeError] of an invalid date. *)
Definition toISOString (d : option Z) : option jsstring :=
  match d with
  | Some t => Some (isoDate t ++ lit "T" ++ isoTime t ++ lit "Z")
  | None => None
  end.

(** [s.split("T")], never the empty array. *)
Fixpoint split (s : jsstring) : list jsstring :=
  match s with
  | [] => [[]]
  | c :: r =>
      if (c =? 84)%N then [] :: split r
      else match split r with
           | l :: ls => (c :: l) :: ls
           | [] => [[c]]
           end
  end.

(** The number of days of a month of a year. *)
Definition DaysInMonth (year month : Z) : Z :=
  MakeDay year (month + 1) 1 - MakeDay year month 1.

(** The first and the last millisecond of the day of [t]. *)
Definition startOfDay (t : Z) : Z := MakeDate (Day t) (MakeTime 0 0 0 0).

Definition endOfDay (t : Z) : Z := MakeDate (Day t) (MakeTime 23 59 59 999).

(** The time of day of [t] on the first of its month, on the day before
    the first, and as many days later as its month has. *)
Definition firstOfMonth (t : Z) : Z := t - (DateFromTime t - 1) * msPerDay.

Definition dayZero (t : Z) : Z := t - DateFromTime t * msPerDay.

Definition aMonthLater (t : Z) : Z :=
  t + DaysInMonth (YearFromTime t) (MonthFromTime t) * msPerDay.

Section Zone.

(** The browser's time zone: [LocalTZA t true] is the offset of local
    time from UTC, in milliseconds, at the UTC time [t], and
    [LocalTZA t false] is the offset to take for the local time [t]. *)
Variable LocalTZA : Z -> bool -> Z.

Definition LocalTime (t : Z) : Z := t + LocalTZA t true.

Definition UTC (t : Z) : Z := t - LocalTZA t false.

(** The methods of a [Date] whose time value is [d]. *)
Definition getDate (t : Z) : Z := DateFromTime (LocalTime t).

Definition getDay (t : Z) : Z := WeekDay (LocalTime t).

Definition getMonth (t : Z) : Z := MonthFromTime (LocalTime t).

Definition setHours (hour min sec ms : Z) (d : option Z) : option Z :=
  match d with
  | None => None
  | Some t =>
      let t := LocalTime t in
      TimeClip (UTC (MakeDate (Day t) (MakeTime hour min sec ms)))
  end.

Definition setDate (date : Z) (d : option Z) : option Z :=
  match d with
  | None => None
  | Some t =>
      let t := LocalTime t in
      TimeClip (UTC (MakeDate (MakeDay (YearFromTime t) (MonthFromTime t) date)
                              (TimeWithinDay t)))
  end.

Definition setMonth (month : Z) (d : option Z) : option Z :=
  match d with
  | None => None
  | Some t =>
      let t := LocalTime t in
      TimeClip (UTC (MakeDate (MakeDay (YearFromTime t) month (DateFromTime t))
                              (TimeWithinDay t)))
  end.

(** [getDateRangeFromFilter(timeFilter)], lines 180-210, with the clock
    as the three [new Date()] read it. *)
Definition getDateRangeFromFilter (now startDate endDate : Z)
           (timeFilter : TimeFilter) : option (jsstring * jsstring) :=
  let (startDate, endDate) :=
    match timeFilter with
    | today =>
        (setHours 0 0 0 0 (Some startDate),
         setHours 23 59 59 999 (Some endDate))
    | week =>
        (setHours 0 0 0 0
           (setDate (getDate now - getDay now) (Some startDate)),
         setHours 23 59 59 999 (Some endDate))
    | month =>
        (setHours 0 0 0 0 (setDate 1 (Some startDate)),
         setHours 23 59 59 999
           (setDate 0 (setMonth (getMonth endDate + 1) (Some endDate))))
    end in
  match toISOString startDate with
  | None => None
  | Some s =>
      match toISOString endDate with
      | None => None
      | Some e => Some (hd [] (split s), hd [] (split e))
      end
  end.

(** The offsets of the zone stay within a day. *)
Definition bounded : Prop :=
  forall t isUTC, - msPerDay < LocalTZA t isUTC < msPerDay.

(** The local time [t] exists in the zone: no transition skips it, so
    its UTC time reads as [t] again. *)
Definition represented (t : Z) : Prop := LocalTime (UTC t) = t.

End Zone.

(** A zone without transitions. *)
Definition fixedZone (offset : Z) : Z -> bool -> Z := fun _ _ => offset.

(** London through 2024: an hour ahead of UTC from 2024-03-31T01:00Z to
    2024-10-27T01:00Z. A local time that is skipped or repeated takes
    the offset before the transition. *)
Definition londonIn2024 (t : Z) (isUTC : bool) : Z :=
  if isUTC
  then if (1711846800000 <=? t) && (t <? 1729990800000) then 3600000 else 0
  else if (1711850400000 <=? t) && (t <? 1729994400000) then 3600000 else 0.

End JSDate.

(* ================================================================== *)
(** ** Regular expressions: the fragment [cleanStreamingContent] uses *)
(* ================================================================== *)

Module RegExp.
Local Open Scope N_scope.

(** [\w], without the [u] flag. *)
Definition isWord (c : N) : bool :=
  ((48 <=? c) && (c <=? 57)) || ((65 <=? c) && (c <=? 90)) || (c =? 95)
  || ((97 <=? c) && (c <=? 122)).

(** [\s]: the white space and the line terminators. *)
Definition isSpace (c : N) : bool := isWhiteSpace c.

(** [.], without the [s] flag: all but the line terminators. *)
Definition isDot (c : N) : bool :=
  negb ((c =? 10) || (c =? 13) || (c =? 8232) || (c =? 8233)).

(** [[^x]] *)
Definition isNot (x c : N) : bool := negb (c =? x).

(** [x] as a class, for [x+]. *)
Definition isChar (x c : N) : bool := c =? x.

(** A regular expression is a sequence of items: literal characters, a
    class, or a class repeated, [p*], [p+] or [p*?]; a class or a
    repeated class may be a capture group. *)
Inductive item : Type :=
| Lit (s : jsstring)
| One (p : N -> bool) (capture : bool)
| Many (p : N -> bool) (min : nat) (lazy capture : bool).

Definition regexp : Type := list item.

Section Many.

Variable R : Type.
Variable p : N -> bool.
Variable lazy : bool.

(** What follows the repetition: it gets the characters taken and the
    rest of the input. *)
Variable k : jsstring -> jsstring -> option R.

(** Backtracking: a greedy repetition takes all it can and gives back
    one character at a time until what follows matches; a lazy one
    takes one more character each time what follows fails. *)
Fixpoint many (min : nat) (taken s : jsstring) : option R :=
  let stop := match min with O => k taken s | S _ => None end in
  let more :=
    match s with
    | c :: s' => if p c then many (pred min) (taken ++ [c]) s' else None
    | [] => None
    end in
  if lazy then match stop with Some r => Some r | None => more end
  else match more with Some r => Some r | None => stop end.

End Many.

(** The repetition of [p] can take nothing of [rest]. *)
Definition stops (p : N -> bool) (rest : jsstring) : Prop :=
  match rest with
  | [] => True
  | c :: _ => p c = false
  end.

(** A match of [re] at the start of [s]: the captures, in the order of
    their groups, and the input left after the match. *)
Fixpoint exec (re : regexp) (captures : list jsstring) (s : jsstring)
  : option (list jsstring * jsstring) :=
  match re with
  | [] => Some (captures, s)
  | Lit l :: re' =>
      if startsWith s l then exec re' captures (skipn (List.length l) s) else None
  | One p capture :: re' =>
      match s with
      | c :: s' =>
          if p c
          then exec re' (if capture then captures ++ [[c]] else captures) s'
          else None
      | [] => None
      end
  | Many p min lazy capture :: re' =>
      many p lazy
           (fun taken rest =>
              exec re' (if capture then captures ++ [taken] else captures)
                   rest)
           min [] s
  end.

(** [s.replace(re, f)] for [re] with the flag [g]: the matches are
    found left to right and do not overlap; [f] gets the match and the
    captures. [skip] counts the characters of a match still to pass. *)
Fixpoint replaceFrom (re : regexp)
         (f : jsstring -> list jsstring -> jsstring)
         (skip : nat) (s : jsstring) : jsstring :=
  match skip with
  | S n => match s with _ :: s' => replaceFrom re f n s' | [] => [] end
  | O =>
      match exec re [] s with
      | Some (captures, rest) =>
          let n := (List.length s - List.length rest)%nat in
          f (firstn n s) captures ++
          match s with
          | c :: s' =>
              match n with
              | S m => replaceFrom re f m s'
              | O => c :: replaceFrom re f 0 s'
              end
          | [] => []
          end
      | None =>
          match s with
          | c :: s' => c :: replaceFrom re f 0 s'
          | [] => []
          end
      end
  end.

Definition replace (re : regexp) (f : jsstring -> list jsstring -> jsstring)
           (s : jsstring) : jsstring :=
  replaceFrom re f 0 s.

(** A replacement string without [$]. *)
Definition always (r : jsstring) : jsstring -> list jsstring -> jsstring :=
  fun _ _ => r.

(** [$n] in a replacement string. *)
Definition group (n : nat) (captures : list jsstring) : jsstring :=
  nth (n - 1) captures [].

End RegExp.

(* ================================================================== *)
(** ** [cleanStreamingContent] *)
(* ================================================================== *)

Module Clean.
Import RegExp.
Local Open Scope N_scope.

(** The rupee sign, U+20B9. *)
Definition RUPEE : jsstring := [8377].

(** [/data: /g] to nothing. *)
Definition removeDataPrefixes : jsstring -> jsstring :=
  replace [Lit (lit "data: ")] (always []).

(** [/\\n/g] to a line feed. *)
Definition unescapeNewlines : jsstring -> jsstring :=
  replace [Lit (lit "\n")] (always [LF]).

(** [/<follow_up_question>.*?<\/follow_up_question>/g] to nothing. *)
Definition removeFollowUps : jsstring -> jsstring :=
  replace [Lit (lit "<follow_up_question>"); Many isDot 0 true false;
           Lit (lit "</follow_up_question>")] (always []).

(** [/\[DONE\]/g] to nothing. *)
Definition removeDone : jsstring -> jsstring :=
  replace [Lit (lit "[DONE]")] (always []).

(** [/<emudra_hubspot_form>/g] to nothing. *)
Definition removeFormTags : jsstring -> jsstring :=
  replace [Lit (lit "<emudra_hubspot_form>")] (always []).

(** [/##\s+/g] to a line feed and [## ]. *)
Definition spaceHeadings : jsstring -> jsstring :=
  replace [Lit (lit "##"); Many isSpace 1 false false] (always (LF :: lit "## ")).

(** [/(\w+)\s*\n\s*(\w+)/g] *)
Definition wordBreak : regexp :=
  [Many isWord 1 false true; Many isSpace 0 false false; Lit [LF];
   Many isSpace 0 false false; Many isWord 1 false true].

(** The callback of the word break, lines 24-41. *)
Definition joinOrKeep (match_ : jsstring) (captures : list jsstring)
  : jsstring :=
  let word1 := group 1 captures in
  let word2 := group 2 captures in
  if includes word1 (lit "**") || includes word2 (lit "**")
     || includes word1 (lit "#") || includes word2 (lit "#")
     || includes word1 (lit "-") || includes word2 (lit "-")
     || includes word1 RUPEE || includes word2 RUPEE
     || includes word1 (lit "/") || includes word2 (lit "/")
  then match_
  else word1 ++ word2.

Definition joinWords : jsstring -> jsstring := replace wordBreak joinOrKeep.

(** [/\*\* ([^*]+) \*\*/g] to [**$1**]. *)
Definition fixSpacedBold : jsstring -> jsstring :=
  replace [Lit (lit "** "); Many (isNot 42) 1 false true; Lit (lit " **")]
          (fun _ captures => lit "**" ++ group 1 captures ++ lit "**").

(** [/\*\*([^*]+)\*\*/g] to [**$1**]. *)
Definition fixBold : jsstring -> jsstring :=
  replace [Lit (lit "**"); Many (isNot 42) 1 false true; Lit (lit "**")]
          (fun _ captures => lit "**" ++ group 1 captures ++ lit "**").

(** [/₹1\s*,000/g] and the four [/₹...\s*per/g]. *)
Definition fixPrice (amount unit_ : jsstring) (sep : jsstring)
  : jsstring -> jsstring :=
  replace [Lit (RUPEE ++ amount); Many isSpace 0 false false; Lit unit_]
          (always (RUPEE ++ amount ++ sep ++ unit_)).

Definition fixPrices (s : jsstring) : jsstring :=
  fixPrice (lit "3,000") (lit "per") (lit " ")
    (fixPrice (lit "1,650") (lit "per") (lit " ")
       (fixPrice (lit "800") (lit "per") (lit " ")
          (fixPrice (lit "5") (lit "per") (lit " ")
             (fixPrice (lit "1") (lit ",000") [] s)))).

(** A literal to a literal. *)
Definition rename (old new : string) : jsstring -> jsstring :=
  replace [Lit (lit old)] (always (lit new)).

Definition fixPlanNames (s : jsstring) : jsstring :=
  rename "KeyBenefits" "**Key Benefits**"
    (rename "Bharat Plan:" "**Bharat Plan:**"
       (rename "ProfessionalPlan:" "**Professional Plan:**"
          (rename "Advanced Plan:" "**Advanced Plan:**"
             (rename "EssentialPlan:" "**Essential Plan:**" s)))).

Definition fixHyphenation : jsstring -> jsstring :=
  rename "Enterprise-grade" "Enterprise-grade".

Definition fixLegalSpacing : jsstring -> jsstring :=
  rename "legalcompliance" "legal compliance".

Definition fixStoreSpacing : jsstring -> jsstring :=
  rename "document store included" "document store included".

(** [/\n\n+/g] to two line feeds. *)
Definition normalizeNewlines : jsstring -> jsstring :=
  replace [Lit [LF]; Many (isChar LF) 1 false false] (always [LF; LF]).

(** [/([^\n])\n([^\n])/g] to [$1\n\n$2]. *)
Definition paragraphBreaks : jsstring -> jsstring :=
  replace [One (isNot LF) true; Lit [LF]; One (isNot LF) true]
          (fun _ captures =>
             group 1 captures ++ [LF; LF] ++ group 2 captures).

(** [cleanStreamingContent(content)], lines 14-64. *)
Definition cleanStreamingContent (content : jsstring) : jsstring :=
  trim
    (paragraphBreaks
       (normalizeNewlines
          (fixStoreSpacing
             (fixLegalSpacing
                (fixHyphenation
                   (fixPlanNames
                      (fixPrices
                         (fixBold
                            (fixSpacedBold
                               (joinWords
                                  (spaceHeadings
                                     (removeFormTags
                                        (removeDone
                                           (removeFollowUps
                                              (unescapeNewlines
                                                 (removeDataPrefixes
                                                    content)))))))))))))))).

End Clean.

(* ================================================================== *)
(** ** The dashboard page, [Home.tsx] *)
(* ================================================================== *)

Module Home.

Record Filters : Type := mkFilters {
  timeFilter : Api.TimeFilter;
  start_date : jsstring;
  end_date : jsstring
}.

(** The state of the component; [None] is [null]. [requested] is the
    log of the URLs given to [fetch], the oldest first. *)
Record State : Type := mkState {
  analyticsData : option value;
  loading : bool;
  error : option jsstring;
  filters : Filters;
  showHubSpotDialog : bool;
  hubSpotData : option value;
  loadingHubSpot : bool;
  requested : list jsstring
}.

Definition initial : State :=
  mkState None true None (mkFilters Api.today [] []) false None false [].

(** What one run of a fetching function meets: the clock as the three
    [new Date()] read it, and the network. *)
Record Load : Type := mkLoad {
  now : Z;
  startDate : Z;
  endDate : Z;
  fetch : jsstring -> fetchOutcome
}.

(** What the component shows. *)
Inductive View : Type :=
| Spinner
| Failure (message : jsstring)
| NoData
| Dashboard (data : value).

(** The three early returns of the component, and the dashboard. *)
Definition render (st : State) : View :=
  if loading st then Spinner
  else if match error st with Some m => nonEmpty m | None => false end
       then Failure (match error st with Some m => m | None => [] end)
       else match analyticsData st with
            | Some data => if truthy (Some data) then Dashboard data else NoData
            | None => NoData
            end.

(** The load is over and the message of a failure is set. *)
Definition failed (st : State) : Prop :=
  loading st = false /\ error st = Some (lit "Failed to load analytics data").

(** The rest of a [try] block once the URL is made, [None] standing
    for a throw on the way to it: the URL given to [fetch], if any, and
    the document, or [None] when anything throws. *)
Definition request (l : Load) (url : option jsstring)
  : list jsstring * option value :=
  match url with
  | None => ([], None)
  | Some url =>
      ([url],
       match fetch l url with
       | NetworkFailure _ => None
       | Responded response =>
           if negb (ok response) then None
           else match Api.responseJson response with
                | Ok data => Some data
                | Throw _ => None
                end
       end)
  end.

Section Page.

(** [import.meta.env.VITE_BACKEND_URL] as it prints in a template
    literal, and the browser's time zone. *)
Variable VITE_BACKEND_URL : jsstring.
Variable LocalTZA : Z -> bool -> Z.

(** The pairs appended to [params] in [fetchAnalytics], lines 125-154;
    the dates are computed by the statements of
    [getDateRangeFromFilter], repeated in the component. [None]:
    [toISOString] throws. *)
Definition searchParams (l : Load) (f : Filters)
  : option (list (jsstring * jsstring)) :=
  match JSDate.getDateRangeFromFilter LocalTZA (now l) (startDate l)
                                      (endDate l) (timeFilter f) with
  | None => None
  | Some (s, e) =>
      Some ((if nonEmpty (start_date f)
             then [(lit "start_date", start_date f)] else [])
            ++ (if nonEmpty (end_date f)
                then [(lit "end_date", end_date f)] else [])
            ++ [(lit "start_date", s); (lit "end_date", e)])
  end.

Definition urlOf (l : Load) (f : Filters) : option jsstring :=
  match searchParams l f with
  | None => None
  | Some params =>
      Some (VITE_BACKEND_URL ++ lit "/api/lyzr/analytics?"
            ++ URLSearchParams.toString params)
  end.

(** The URL of [fetchHubSpotData], lines 192-224: the same dates, and
    no custom date. *)
Definition hubSpotUrlOf (l : Load) (f : Filters) : option jsstring :=
  match JSDate.getDateRangeFromFilter LocalTZA (now l) (startDate l)
                                      (endDate l) (timeFilter f) with
  | None => None
  | Some (s, e) =>
      Some (VITE_BACKEND_URL ++ lit "/api/lyzr/hubspot-sessions?"
            ++ URLSearchParams.toString
                 [(lit "start_date", s); (lit "end_date", e)])
  end.

(** A URL of one of the two endpoints that holds the two dates of a
    time filter and nothing else. *)
Definition filterDatesOnly (url : jsstring) : Prop :=
  exists (endpoint : jsstring) (f : Api.TimeFilter) (l : Load)
         (s e : jsstring),
    (endpoint = lit "/api/lyzr/analytics?" \/
     endpoint = lit "/api/lyzr/hubspot-sessions?") /\
    JSDate.getDateRangeFromFilter LocalTZA (now l) (startDate l) (endDate l) f
    = Some (s, e) /\
    url = VITE_BACKEND_URL ++ endpoint
          ++ lit "start_date=" ++ URLSearchParams.encode s
          ++ lit "&end_date=" ++ URLSearchParams.encode e.

(** The custom dates of the filters are empty, and so were they at
    every fetch so far. *)
Definition plain (st : State) : Prop :=
  start_date (filters st) = [] /\ end_date (filters st) = [] /\
  Forall filterDatesOnly (requested st).

(** The [try] block of [fetchAnalytics]: the document, or [None] when
    anything throws. *)
Definition attempt (l : Load) (f : Filters) : option value :=
  snd (request l (urlOf l f)).

(** [fetchAnalytics()] of the component, lines 122-171, run to its end. *)
Definition fetchAnalytics (l : Load) (st : State) : State :=
  let f := filters st in
  let requested := requested st ++ fst (request l (urlOf l f)) in
  match attempt l f with
  | Some data =>
      mkState (Some data) false (error st) f (showHubSpotDialog st)
              (hubSpotData st) (loadingHubSpot st) requested
  | None =>
      mkState (analyticsData st) false
              (Some (lit "Failed to load analytics data")) f
              (showHubSpotDialog st) (hubSpotData st) (loadingHubSpot st)
              requested
  end.

(** [fetchHubSpotData()], lines 189-235, run to its end: a failure is
    logged to the console and leaves the data as they were. *)
Definition fetchHubSpotData (l : Load) (st : State) : State :=
  let (log, data) := request l (hubSpotUrlOf l (filters st)) in
  mkState (analyticsData st) (loading st) (error st) (filters st)
          (showHubSpotDialog st)
          (match data with Some d => Some d | None => hubSpotData st end)
          false (requested st ++ log).

(** What the user can do once a load has ended: the Retry button of the
    failure view and, on the dashboard, the three filter buttons, the
    View Details button, closing or opening the dialog, and a click on
    a row of the dialog, which opens a session in a new tab and leaves
    the page as it is. A change of [filters] runs the effect, which
    loads again. *)
Inductive event : Type :=
| Retry (l : Load)
| Pick (f : Api.TimeFilter) (l : Load)
| ViewDetails (l : Load)
| DialogChange (open : bool)
| OpenSession (session_id : jsstring).

Definition step (st : State) (e : event) : State :=
  match e, render st with
  | Retry l, Failure _ => fetchAnalytics l st
  | Pick f l, Dashboard _ =>
      fetchAnalytics l
        (mkState (analyticsData st) (loading st) (error st)
                 (mkFilters f (start_date (filters st))
                            (end_date (filters st)))
                 (showHubSpotDialog st) (hubSpotData st) (loadingHubSpot st)
                 (requested st))
  | ViewDetails l, Dashboard _ =>
      fetchHubSpotData l
        (mkState (analyticsData st) (loading st) (error st) (filters st)
                 true (hubSpotData st) true (requested st))
  | DialogChange open, Dashboard _ =>
      mkState (analyticsData st) (loading st) (error st) (filters st)
              open (hubSpotData st) (loadingHubSpot st) (requested st)
  | _, _ => st
  end.

(** The component mounts, loads, and then follows the user. *)
Definition run (l : Load) (events : list event) : State :=
  fold_left step events (fetchAnalytics l initial).

End Page.

End Home.

(* ================================================================== *)
(** ** Facts about the string operations *)
(* ================================================================== *)

Unset Implicit Arguments.

Module StringFacts.
Local Open Scope N_scope.

Lemma lit_data : lit "data: " = [100; 97; 116; 97; 58; 32].
Proof. reflexivity. Qed.

Lemma startsWith_split (p s : jsstring) :
  startsWith s p = true -> s = p ++ skipn (List.length p) s.
Proof.
  revert s; induction p as [|x p IH]; intros s H; simpl in *.
  - reflexivity.
  - destruct s as [|y s]; [discriminate|].
    apply andb_prop in H as [Hxy Hp].
    apply N.eqb_eq in Hxy; subst y.
    simpl. f_equal. now apply IH.
Qed.

Lemma startsWith_app (p s : jsstring) : startsWith (p ++ s) p = true.
Proof.
  induction p as [|x p IH]; simpl; [reflexivity|].
  now rewrite N.eqb_refl.
Qed.

(** A data line is its prefix followed by its payload. *)
Lemma data_line (line : jsstring) :
  startsWith line (lit "data: ") = true ->
  line = lit "data: " ++ substring 6 line.
Proof. intros H. exact (startsWith_split _ _ H). Qed.

Lemma trimStart_last (l : jsstring) (c : N) :
  isWhiteSpace c = false -> trimStart (l ++ [c]) <> [].
Proof.
  intros Hc. induction l as [|x l IH]; simpl.
  - rewrite Hc. discriminate.
  - destruct (isWhiteSpace x); [exact IH | discriminate].
Qed.

(** A string whose first code unit is not white space does not trim to
    the empty string. *)
Lemma trim_head (c : N) (s : jsstring) :
  isWhiteSpace c = false -> nonEmpty (trim (c :: s)) = true.
Proof.
  intros Hc. unfold trim. simpl trimStart. rewrite Hc. simpl rev.
  pose proof (trimStart_last (rev s) c Hc) as Hne.
  destruct (trimStart (rev s ++ [c])) as [|y t] eqn:E; [congruence|].
  simpl. destruct (rev t ++ [y]) eqn:E2; [|reflexivity].
  now destruct (rev t).
Qed.

Lemma data_line_not_blank (line : jsstring) :
  startsWith line (lit "data: ") = true -> nonEmpty (trim line) = true.
Proof.
  intros H. rewrite (data_line _ H), lit_data. simpl app.
  now apply trim_head.
Qed.

Lemma trim_nonEmpty (s : jsstring) :
  nonEmpty (trim s) = true -> s <> [].
Proof. intros H ->. discriminate H. Qed.

Lemma trimStart_head (s t : jsstring) (c : N) :
  trimStart s = c :: t -> isWhiteSpace c = false.
Proof.
  induction s as [|x s IH]; simpl; [discriminate|].
  destruct (isWhiteSpace x) eqn:E; [exact IH|].
  now intros [= -> _].
Qed.

Lemma trimStart_blank (s : jsstring) :
  trimStart s = [] -> forallb isWhiteSpace s = true.
Proof.
  induction s as [|x s IH]; simpl; [reflexivity|].
  destruct (isWhiteSpace x); [exact IH | discriminate].
Qed.

(** A string that trims to the empty string is made of white space. *)
Lemma trim_blank (s : jsstring) :
  nonEmpty (trim s) = false -> forallb isWhiteSpace s = true.
Proof.
  unfold trim. intros H. apply trimStart_blank.
  destruct (trimStart s) as [|c t] eqn:E; [reflexivity|].
  pose proof (trimStart_head _ _ _ E) as Hc.
  pose proof (trimStart_last (rev t) c Hc) as Hne.
  simpl rev in H.
  destruct (trimStart (rev t ++ [c])) as [|y u]; [congruence|].
  simpl rev in H. now destruct (rev u).
Qed.

(** *** The escaped-newline replacement *)

Lemma replace_nonEmpty (s : jsstring) :
  s <> [] -> replaceEscapedNewlines s <> [].
Proof.
  destruct s as [|c [|d r]]; simpl; try congruence.
  intros _. destruct ((c =? BACKSLASH) && (d =? 110)); discriminate.
Qed.

(** The replacement never starts with an [n] that the input did not
    start with. *)
Lemma replace_head_n (s : jsstring) :
  startsWith (replaceEscapedNewlines s) [110] = true ->
  startsWith s [110] = true.
Proof.
  destruct s as [|c [|d r]]; simpl; try easy.
  destruct ((c =? BACKSLASH) && (d =? 110)) eqn:E; simpl; [|easy].
  discriminate.
Qed.

Lemma replace_no_escape_len (n : nat) :
  forall s, (List.length s <= n)%nat ->
  includes (replaceEscapedNewlines s) [92; 110] = false.
Proof.
  induction n as [|n IH]; intros s Hlen.
  - destruct s; [reflexivity | simpl in Hlen; lia].
  - destruct s as [|c [|d r]].
    + reflexivity.
    + simpl. now rewrite !andb_false_r.
    + change (replaceEscapedNewlines (c :: d :: r))
        with (if (c =? BACKSLASH) && (d =? 110)
              then LF :: replaceEscapedNewlines r
              else c :: replaceEscapedNewlines (d :: r)).
      simpl in Hlen.
      destruct ((c =? BACKSLASH) && (d =? 110)) eqn:E.
      * simpl. apply IH. lia.
      * change (includes (c :: replaceEscapedNewlines (d :: r)) [92; 110])
          with (startsWith (c :: replaceEscapedNewlines (d :: r)) [92; 110]
                || includes (replaceEscapedNewlines (d :: r)) [92; 110]).
        rewrite (IH (d :: r)) by (simpl; lia).
        rewrite orb_false_r.
        change (startsWith (c :: replaceEscapedNewlines (d :: r)) [92; 110])
          with ((92 =? c)
                && startsWith (replaceEscapedNewlines (d :: r)) [110]).
        destruct (startsWith (replaceEscapedNewlines (d :: r)) [110]) eqn:Es;
          [|apply andb_false_r].
        apply replace_head_n in Es.
        change (startsWith (d :: r) [110]) with ((110 =? d) && true) in Es.
        rewrite andb_true_r in Es. apply N.eqb_eq in Es. subst d.
        rewrite andb_true_r.
        rewrite andb_true_r in E. unfold BACKSLASH in E.
        now rewrite N.eqb_sym.
Qed.

(** After the replacement no backslash is followed by [n]. *)
Lemma replace_no_escape (s : jsstring) :
  includes (replaceEscapedNewlines s) [92; 110] = false.
Proof. exact (replace_no_escape_len (List.length s) s (le_n _)). Qed.

(** *** Splitting on newlines *)

Lemma split_nonempty (s : jsstring) : split s <> [].
Proof.
  destruct s as [|c r]; simpl; [discriminate|].
  destruct (c =? LF); [discriminate|].
  destruct (split r); discriminate.
Qed.

(** Appending text continues the last line: the complete lines stay,
    and the last one is split again with the new text. *)
Lemma split_app (a b : jsstring) :
  split (a ++ b) = removelast (split a) ++ split (last (split a) [] ++ b).
Proof.
  induction a as [|c a IH].
  - reflexivity.
  - simpl app. simpl split. destruct (c =? LF) eqn:E.
    + rewrite IH.
      pose proof (split_nonempty a) as Hne.
      destruct (split a) as [|l ls] eqn:Ea; [congruence|].
      reflexivity.
    + rewrite IH.
      pose proof (split_nonempty a) as Hne.
      destruct (split a) as [|l ls] eqn:Ea; [congruence|].
      destruct ls as [|l' ls'].
      * simpl. rewrite E.
        pose proof (split_nonempty (l ++ b)) as Hne2.
        destruct (split (l ++ b)); [congruence | reflexivity].
      * reflexivity.
Qed.

Lemma last_app_nonempty {A} (l l' : list A) (d : A) :
  l' <> [] -> last (l ++ l') d = last l' d.
Proof.
  intros Hne. induction l as [|x l IH]; [reflexivity|].
  simpl. rewrite IH. destruct (l ++ l') eqn:E; [|reflexivity].
  now apply app_eq_nil in E as [_ ->].
Qed.

Lemma removelast_split_app (a b : jsstring) :
  removelast (split (a ++ b))
  = removelast (split a) ++ removelast (split (last (split a) [] ++ b)).
Proof.
  rewrite split_app. apply removelast_app. apply split_nonempty.
Qed.

Lemma last_split_app (a b : jsstring) :
  last (split (a ++ b)) [] = last (split (last (split a) [] ++ b)) [].
Proof.
  rewrite split_app. apply last_app_nonempty. apply split_nonempty.
Qed.

(** *** What the replacement does *)

(** One step of the replacement. *)
Lemma replace_cons2 (c d : N) (r : jsstring) :
  replaceEscapedNewlines (c :: d :: r)
  = if (c =? BACKSLASH) && (d =? 110)
    then LF :: replaceEscapedNewlines r
    else c :: replaceEscapedNewlines (d :: r).
Proof. reflexivity. Qed.

(** An escaped newline becomes a line feed, wherever it stands. *)
Lemma replace_pair_len (n : nat) :
  forall a b, (List.length a <= n)%nat ->
  replaceEscapedNewlines (a ++ Spec.escapedNewline ++ b)
  = replaceEscapedNewlines a ++ LF :: replaceEscapedNewlines b.
Proof.
  unfold Spec.escapedNewline.
  induction n as [|n IH]; intros a b Hlen.
  - destruct a; [reflexivity | simpl in Hlen; lia].
  - destruct a as [|c [|d r]].
    + reflexivity.
    + cbn [app]. rewrite replace_cons2.
      change (92 =? 110) with false. rewrite andb_false_r.
      reflexivity.
    + cbn [app]. rewrite !replace_cons2. simpl in Hlen.
      destruct ((c =? BACKSLASH) && (d =? 110)).
      * cbn [app]. f_equal. apply IH. lia.
      * cbn [app]. f_equal. apply (IH (d :: r)). simpl. lia.
Qed.

(** A text without an escaped newline is left as it is. *)
Lemma replace_identity_len (n : nat) :
  forall s, (List.length s <= n)%nat ->
  includes s Spec.escapedNewline = false -> replaceEscapedNewlines s = s.
Proof.
  unfold Spec.escapedNewline.
  induction n as [|n IH]; intros s Hlen H.
  - destruct s; [reflexivity | simpl in Hlen; lia].
  - destruct s as [|c [|d r]]; [reflexivity | reflexivity |].
    rewrite replace_cons2. simpl in Hlen.
    change (includes (c :: d :: r) [92; 110])
      with (((92 =? c) && ((110 =? d) && true))
            || includes (d :: r) [92; 110]) in H.
    apply orb_false_elim in H as [H1 H2].
    rewrite andb_true_r in H1. unfold BACKSLASH.
    rewrite (N.eqb_sym c 92), (N.eqb_sym d 110), H1.
    f_equal. apply IH; [simpl; lia | exact H2].
Qed.

Lemma replace_pair (a b : jsstring) :
  replaceEscapedNewlines (a ++ Spec.escapedNewline ++ b)
  = replaceEscapedNewlines a ++ [LF] ++ replaceEscapedNewlines b.
Proof. exact (replace_pair_len (List.length a) a b (le_n _)). Qed.

Lemma replace_identity (s : jsstring) :
  includes s Spec.escapedNewline = false -> replaceEscapedNewlines s = s.
Proof. exact (replace_identity_len (List.length s) s (le_n _)). Qed.

End StringFacts.

(* ================================================================== *)
(** ** Facts about [JSON.parse] *)
(* ================================================================== *)

Module JSONFacts.
Local Open Scope N_scope.

(** The white space of [trim] that the JSON grammar does not skip. *)
Lemma whiteSpace_cases (c : N) :
  isWhiteSpace c = true -> isWs c = false ->
  In c [11; 12; 160; 5760; 8192; 8193; 8194; 8195; 8196; 8197; 8198; 8199;
        8200; 8201; 8202; 8232; 8233; 8239; 8287; 12288; 65279].
Proof.
  unfold isWhiteSpace, isWs. intros H Hj.
  repeat (apply orb_false_elim in Hj as [Hj ?]).
  assert (Hin : forall k l, k = c -> In k l -> In c l) by now intros k l <-.
  repeat (apply orb_prop in H as [H|H]);
    try (apply N.eqb_eq in H; subst c;
         first [ discriminate
               | cbn [In]; repeat (first [left; reflexivity | right]) ]).
  apply andb_prop in H as [Hl Hu].
  apply N.leb_le in Hl. apply N.leb_le in Hu.
  assert (Hc : c = 8192 \/ c = 8193 \/ c = 8194 \/ c = 8195 \/ c = 8196 \/
               c = 8197 \/ c = 8198 \/ c = 8199 \/ c = 8200 \/ c = 8201 \/
               c = 8202) by lia.
  clear - Hc.
  repeat (destruct Hc as [-> | Hc];
          [cbn [In]; repeat (first [left; reflexivity | right])|]).
  subst c. cbn [In]. repeat (first [left; reflexivity | right]).
Qed.

Lemma skipWs_blank (s : jsstring) :
  forallb isWhiteSpace s = true ->
  skipWs s = [] \/
  exists c r, skipWs s = c :: r /\ isWhiteSpace c = true /\ isWs c = false.
Proof.
  induction s as [|x s IH]; simpl; [now left|].
  intros H. apply andb_prop in H as [Hx Hs].
  destruct (isWs x) eqn:E; [now apply IH|].
  right. now exists x, s.
Qed.

(** Text made of white space is not JSON. *)
Lemma parse_blank (s : jsstring) :
  forallb isWhiteSpace s = true -> JSON.parse s = None.
Proof.
  intros H. unfold JSON.parse.
  replace (2 * List.length s + 2)%nat
    with (S (2 * List.length s + 1)) by lia.
  cbn [parseValue].
  destruct (skipWs_blank s H) as [-> | (c & r & -> & Hc & Hj)];
    [reflexivity|].
  pose proof (whiteSpace_cases c Hc Hj) as Hin.
  repeat (destruct Hin as [<- | Hin]; [reflexivity|]).
  destruct Hin.
Qed.

(** *** The fuel of the parser is enough *)

Lemma skipWs_length (s : jsstring) :
  (List.length (skipWs s) <= List.length s)%nat.
Proof.
  induction s as [|c s IH]; simpl; [lia|].
  destruct (isWs c); simpl; lia.
Qed.

Lemma skipWs_cons_length (s t : jsstring) (c : N) :
  skipWs s = c :: t -> (List.length t < List.length s)%nat.
Proof.
  intros H. pose proof (skipWs_length s) as Hl. rewrite H in Hl.
  simpl in Hl. lia.
Qed.

Lemma consChar_length (c : N) (o : option (jsstring * jsstring))
      (str rest : jsstring) (n : nat) :
  consChar c o = Some (str, rest) ->
  (forall str' rest', o = Some (str', rest') ->
                      (List.length rest' < n)%nat) ->
  (List.length rest < n)%nat.
Proof.
  destruct o as [[s' r']|]; simpl; [|discriminate].
  intros [= _ <-] H. now apply (H s' r').
Qed.

Lemma stringChars_length_bounded (n : nat) :
  forall s str rest,
  (List.length s <= n)%nat ->
  stringChars s = Some (str, rest) ->
  (List.length rest < List.length s)%nat.
Proof.
  induction n as [|n IH]; intros s str rest Hn H.
  - destruct s; [discriminate | simpl in Hn; lia].
  - destruct s as [|c r]; [discriminate|].
    cbn [stringChars] in H. simpl in Hn.
    destruct (c =? 34).
    { injection H as _ <-. simpl. lia. }
    destruct (c =? 92).
    + destruct r as [|e r1]; [discriminate|].
      destruct (e =? 117).
      * destruct r1 as [|h1 [|h2 [|h3 [|h4 r2]]]]; try discriminate.
        destruct (hex4 h1 h2 h3 h4); [|discriminate].
        apply (consChar_length _ _ _ _ _ H). intros s' r' Hr.
        apply IH in Hr; simpl in *; lia.
      * destruct (simpleEscape e); [|discriminate].
        apply (consChar_length _ _ _ _ _ H). intros s' r' Hr.
        apply IH in Hr; simpl in *; lia.
    + destruct (c <? 32); [discriminate|].
      apply (consChar_length _ _ _ _ _ H). intros s' r' Hr.
      apply IH in Hr; simpl in *; lia.
Qed.

Lemma stringChars_length (s str rest : jsstring) :
  stringChars s = Some (str, rest) ->
  (List.length rest < List.length s)%nat.
Proof. apply (stringChars_length_bounded (List.length s)). lia. Qed.

Lemma digits_length (s : jsstring) :
  forall acc n a k r,
  digits s acc n = (a, k, r) -> (List.length r <= List.length s)%nat.
Proof.
  induction s as [|c s IH]; intros acc n a k r H; simpl in H.
  - injection H as _ _ <-. simpl. lia.
  - destruct (isDigit c).
    + apply IH in H. simpl. lia.
    + injection H as _ _ <-. lia.
Qed.

Lemma number_length (s : jsstring) (v : value) (rest : jsstring) :
  number s = Some (v, rest) -> (List.length rest < List.length s)%nat.
Proof.
  unfold number.
  set (p := match s with
            | c :: r => if c =? 45 then (true, r) else (false, s)
            | [] => (false, s)
            end).
  assert (Hp : (List.length (snd p) <= List.length s)%nat).
  { subst p. destruct s as [|c r]; simpl; [lia|].
    destruct (c =? 45); simpl; lia. }
  destruct p as [neg s1]. simpl in Hp.
  destruct s1 as [|c r]; [discriminate|].
  destruct (negb (isDigit c)) eqn:Ed; [discriminate|].
  apply negb_false_iff in Ed.
  set (q := if c =? 48 then (0, 1%nat, r) else digits (c :: r) 0 0).
  assert (Hq : (List.length (snd q) <= List.length r)%nat).
  { subst q. destruct (c =? 48); [simpl; lia|].
    cbn [digits]. rewrite Ed.
    destruct (digits r (10 * 0 + (c - 48)) 1) as [[a k] r'] eqn:E.
    apply digits_length in E. simpl. lia. }
  destruct q as [[int k0] s2]. simpl in Hq. simpl in Hp.
  set (fp := match s2 with
             | d :: r2 =>
                 if d =? 46 then
                   let '(m, n, s3) := digits r2 int 0 in
                   match n with
                   | O => None
                   | S _ => Some (m, Z.of_nat n, s3)
                   end
                 else Some (int, 0%Z, s2)
             | [] => Some (int, 0%Z, s2)
             end).
  assert (Hf : forall m z s3, fp = Some (m, z, s3) ->
                              (List.length s3 <= List.length s2)%nat).
  { subst fp. intros m z s3. destruct s2 as [|d r2].
    - intros [= _ _ <-]. lia.
    - destruct (d =? 46).
      + destruct (digits r2 int 0) as [[m' n'] s3'] eqn:E.
        apply digits_length in E.
        destruct n'; [discriminate|]. intros [= _ _ <-]. simpl. lia.
      + intros [= _ _ <-]. lia. }
  destruct fp as [[[mant nfrac] s3]|]; [|discriminate].
  specialize (Hf _ _ _ eq_refl).
  destruct s3 as [|e r3].
  - intros [= _ <-]. simpl in *. lia.
  - destruct ((e =? 101) || (e =? 69)).
    + set (sg := match r3 with
                 | sg :: r4 =>
                     if sg =? 45 then (true, r4)
                     else if sg =? 43 then (false, r4) else (false, r3)
                 | [] => (false, r3)
                 end).
      assert (Hs : (List.length (snd sg) <= List.length r3)%nat).
      { subst sg. destruct r3 as [|x r4]; simpl; [lia|].
        destruct (x =? 45); [simpl; lia|].
        destruct (x =? 43); simpl; lia. }
      destruct sg as [eneg s4]. simpl in Hs.
      destruct (digits s4 0 0) as [[ex n] s5] eqn:E.
      apply digits_length in E.
      destruct n; [discriminate|]. intros [= _ <-]. simpl in *. lia.
    + intros [= _ <-]. simpl in *. lia.
Qed.

Lemma stripPrefix_length (p s r : jsstring) :
  stripPrefix p s = Some r -> (List.length r <= List.length s)%nat.
Proof.
  unfold stripPrefix. destruct (startsWith s p); [|discriminate].
  intros [= <-]. rewrite length_skipn. lia.
Qed.

(** A parse that succeeds with some fuel reads at least one code unit
    and succeeds, with the same result, with any fuel that is at least
    twice the number of code units it reads. *)
Lemma fuel_enough (f : nat) :
  (forall s v r,
      parseValue f s = Some (v, r) ->
      (List.length r < List.length s)%nat /\
      forall f', (2 * (List.length s - List.length r) <= f')%nat ->
                 parseValue f' s = Some (v, r))
  /\
  (forall acc s v r,
      parseElements f acc s = Some (v, r) ->
      (List.length r < List.length s)%nat /\
      forall f', (2 * (List.length s - List.length r) <= f')%nat ->
                 parseElements f' acc s = Some (v, r))
  /\
  (forall acc s v r,
      parseMembers f acc s = Some (v, r) ->
      (List.length r < List.length s)%nat /\
      forall f', (2 * (List.length s - List.length r) <= f')%nat ->
                 parseMembers f' acc s = Some (v, r)).
Proof.
  induction f as [|f (IHv & IHe & IHm)].
  { repeat split; intros; discriminate. }
  split; [|split].
  - intros s v r H. cbn [parseValue] in H.
    destruct (skipWs s) as [|c t] eqn:Es; [discriminate|].
    pose proof (skipWs_cons_length _ _ _ Es) as Hl.
    destruct (c =? 123) eqn:E1.
    { destruct (skipWs t) as [|d t'] eqn:Et; [discriminate|].
      pose proof (skipWs_cons_length _ _ _ Et) as Hl'.
      destruct (d =? 125) eqn:E2.
      - injection H as <- <-. split; [lia|].
        intros [|f'] Hf; [lia|]. cbn [parseValue].
        now rewrite Es, E1, Et, E2.
      - apply IHm in H as [Hr Hf]. split; [lia|].
        intros [|f'] Hf'; [lia|]. cbn [parseValue].
        rewrite Es, E1, Et, E2. apply Hf. lia. }
    destruct (c =? 91) eqn:E3.
    { destruct (skipWs t) as [|d t'] eqn:Et; [discriminate|].
      pose proof (skipWs_cons_length _ _ _ Et) as Hl'.
      destruct (d =? 93) eqn:E2.
      - injection H as <- <-. split; [lia|].
        intros [|f'] Hf; [lia|]. cbn [parseValue].
        now rewrite Es, E1, E3, Et, E2.
      - apply IHe in H as [Hr Hf]. split; [lia|].
        intros [|f'] Hf'; [lia|]. cbn [parseValue].
        rewrite Es, E1, E3, Et, E2. apply Hf. lia. }
    destruct (c =? 34) eqn:E4.
    { destruct (stringChars t) as [[str rest]|] eqn:Ec; [|discriminate].
      injection H as <- <-. pose proof (stringChars_length _ _ _ Ec) as Hc.
      split; [lia|]. intros [|f'] Hf; [lia|]. cbn [parseValue].
      now rewrite Es, E1, E3, E4, Ec. }
    destruct (c =? 116) eqn:E5.
    { destruct (stripPrefix (lit "rue") t) as [r0|] eqn:Ep; [|discriminate].
      injection H as <- <-. pose proof (stripPrefix_length _ _ _ Ep) as Hp.
      split; [lia|]. intros [|f'] Hf; [lia|]. cbn [parseValue].
      now rewrite Es, E1, E3, E4, E5, Ep. }
    destruct (c =? 102) eqn:E6.
    { destruct (stripPrefix (lit "alse") t) as [r0|] eqn:Ep; [|discriminate].
      injection H as <- <-. pose proof (stripPrefix_length _ _ _ Ep) as Hp.
      split; [lia|]. intros [|f'] Hf; [lia|]. cbn [parseValue].
      now rewrite Es, E1, E3, E4, E5, E6, Ep. }
    destruct (c =? 110) eqn:E7.
    { destruct (stripPrefix (lit "ull") t) as [r0|] eqn:Ep; [|discriminate].
      injection H as <- <-. pose proof (stripPrefix_length _ _ _ Ep) as Hp.
      split; [lia|]. intros [|f'] Hf; [lia|]. cbn [parseValue].
      now rewrite Es, E1, E3, E4, E5, E6, E7, Ep. }
    pose proof (number_length _ _ _ H) as Hn. cbn [List.length] in Hn.
    split; [lia|]. intros [|f'] Hf; [lia|]. cbn [parseValue].
    now rewrite Es, E1, E3, E4, E5, E6, E7.
  - intros acc s v r H. cbn [parseElements] in H.
    destruct (parseValue f s) as [[v1 r1]|] eqn:Ev; [|discriminate].
    apply IHv in Ev as [Hl1 Hf1].
    destruct (skipWs r1) as [|c t] eqn:Es; [discriminate|].
    pose proof (skipWs_cons_length _ _ _ Es) as Hl.
    destruct (c =? 44) eqn:E1.
    { apply IHe in H as [Hl2 Hf2]. split; [lia|].
      intros [|f'] Hf'; [lia|]. cbn [parseElements].
      rewrite (Hf1 f') by lia. rewrite Es, E1. apply Hf2. lia. }
    destruct (c =? 93) eqn:E2; [|discriminate].
    injection H as <- <-. split; [lia|].
    intros [|f'] Hf'; [lia|]. cbn [parseElements].
    rewrite (Hf1 f') by lia. now rewrite Es, E1, E2.
  - intros acc s v r H. cbn [parseMembers] in H.
    destruct (skipWs s) as [|q t] eqn:Es; [discriminate|].
    pose proof (skipWs_cons_length _ _ _ Es) as Hl.
    destruct (negb (q =? 34)) eqn:Eq; [discriminate|].
    destruct (stringChars t) as [[key rest]|] eqn:Ek; [|discriminate].
    pose proof (stringChars_length _ _ _ Ek) as Hk.
    destruct (skipWs rest) as [|c r1] eqn:Er; [discriminate|].
    pose proof (skipWs_cons_length _ _ _ Er) as Hl1.
    destruct (negb (c =? 58)) eqn:Ec; [discriminate|].
    destruct (parseValue f r1) as [[v1 rest']|] eqn:Ev; [|discriminate].
    apply IHv in Ev as [Hl2 Hf2].
    destruct (skipWs rest') as [|d r2] eqn:Er2; [discriminate|].
    pose proof (skipWs_cons_length _ _ _ Er2) as Hl3.
    destruct (d =? 44) eqn:E1.
    { apply IHm in H as [Hl4 Hf4]. split; [lia|].
      intros [|f'] Hf'; [lia|]. cbn [parseMembers].
      rewrite Es, Eq, Ek, Er, Ec. rewrite (Hf2 f') by lia.
      rewrite Er2, E1. apply Hf4. lia. }
    destruct (d =? 125) eqn:E2; [|discriminate].
    injection H as <- <-. split; [lia|].
    intros [|f'] Hf'; [lia|]. cbn [parseMembers].
    rewrite Es, Eq, Ek, Er, Ec. rewrite (Hf2 f') by lia.
    now rewrite Er2, E1, E2.
Qed.

(** Whatever fuel a parse of a value succeeds with, the fuel [parse]
    gives it is enough for the same result: [parse] fails only on text
    that is not JSON. *)
Lemma parse_fuel (s : jsstring) (f : nat) (v : value) (r : jsstring) :
  parseValue f s = Some (v, r) ->
  parseValue (2 * List.length s + 2) s = Some (v, r).
Proof.
  intros H. apply (proj1 (fuel_enough f)) in H as [_ Hf].
  apply Hf. lia.
Qed.

Lemma parse_complete (s : jsstring) (f : nat) (v : value) (r : jsstring) :
  parseValue f s = Some (v, r) -> skipWs r = [] -> JSON.parse s = Some v.
Proof.
  intros H Hr. unfold JSON.parse. now rewrite (parse_fuel _ _ _ _ H), Hr.
Qed.

End JSONFacts.

(* ================================================================== *)
(** ** Facts about the effects *)
(* ================================================================== *)

Module EffFacts.
Import Spec.
Local Open Scope js_scope.

Lemma after_nil {A} (r : Res A) : after [] r = r.
Proof. now destruct r. Qed.

Lemma after_after {A} (o1 o2 : list jsstring) (r : Res A) :
  after o1 (after o2 r) = after (o1 ++ o2) r.
Proof. unfold after. simpl. now rewrite app_assoc. Qed.

Lemma bind_ret_l {A B} (a : A) (f : A -> M B) (s : option value) :
  bind (ret a) f s = f a s.
Proof. unfold bind, ret. simpl. now destruct (f a s). Qed.

Lemma bind_ret_r {A} (m : M A) (s : option value) :
  bind m ret s = m s.
Proof.
  unfold bind, ret. destruct (m s) as [[a|e] st out]; simpl;
    [now rewrite app_nil_r | reflexivity].
Qed.

Lemma bind_assoc {A B C} (m : M A) (f : A -> M B) (g : B -> M C)
      (s : option value) :
  bind (bind m f) g s = bind m (fun a => bind (f a) g) s.
Proof.
  unfold bind. destruct (m s) as [[a|e] st out]; simpl; [|reflexivity].
  destruct (f a st) as [[b|e] st' out']; simpl; [|reflexivity].
  now rewrite app_assoc.
Qed.

(** Two computations that agree on every state can be exchanged under
    a bind. *)
Lemma bind_ext {A B} (m : M A) (f g : A -> M B) (s : option value) :
  (forall a s', f a s' = g a s') -> bind m f s = bind m g s.
Proof.
  intros H. unfold bind. destruct (m s) as [[a|e] st out]; simpl;
    [now rewrite H | reflexivity].
Qed.

Lemma bind_ext_l {A B} (m m' : M A) (f : A -> M B) (s : option value) :
  (forall s', m s' = m' s') -> bind m f s = bind m' f s.
Proof. intros H. unfold bind. now rewrite H. Qed.

Lemma bind_throw {A B} (e : exn) (f : A -> M B) (s : option value) :
  bind (throw e) f s = throw e s.
Proof. reflexivity. Qed.

Lemma bind_set {B} (v : option value) (f : unit -> M B) (s : option value) :
  bind (setAgentMessageId v) f s = f tt v.
Proof. unfold bind, setAgentMessageId. simpl. now destruct (f tt v). Qed.

Lemma bind_sink {B} (chunk : jsstring) (f : unit -> M B) (s : option value) :
  bind (onStreamChunk chunk) f s = after [chunk] (f tt s).
Proof. reflexivity. Qed.

(** A bind whose first part is known. *)
Lemma bind_eq {A B} (m : M A) (f : A -> M B) (s : option value) (r : Res A) :
  m s = r ->
  bind m f s
  = match result r with
    | Ok a => after (emitted r) (f a (agentMessageId r))
    | Throw e => mkRes (Throw e) (agentMessageId r) (emitted r)
    end.
Proof. intros <-. reflexivity. Qed.

(** A [try] whose block is known. *)
Lemma tryCatch_eq {A} (m : M A) (h : exn -> M A) (s : option value)
      (r : Res A) :
  m s = r ->
  tryCatch m h s
  = match result r with
    | Ok _ => r
    | Throw e => after (emitted r) (h e (agentMessageId r))
    end.
Proof. intros <-. reflexivity. Qed.

(** *** What is emitted *)

Lemma emits_ret {A} P (a : A) : emits P (ret a).
Proof. intros s. constructor. Qed.

Lemma emits_throw {A} P (e : exn) : emits P (@throw A e).
Proof. intros s. constructor. Qed.

Lemma emits_set P (v : option value) : emits P (setAgentMessageId v).
Proof. intros s. constructor. Qed.

Lemma emits_get P : emits P getAgentMessageId.
Proof. intros s. constructor. Qed.

Lemma emits_sink (P : jsstring -> Prop) (chunk : jsstring) :
  P chunk -> emits P (onStreamChunk chunk).
Proof. intros H s. simpl. now constructor. Qed.

Lemma emits_bind_yields {A B} P (Q : A -> Prop) (m : M A) (f : A -> M B) :
  emits P m -> yields Q m -> (forall a, Q a -> emits P (f a)) ->
  emits P (bind m f).
Proof.
  intros Hm Hq Hf s. unfold bind.
  specialize (Hm s). specialize (Hq s).
  destruct (m s) as [[a|e] st out]; simpl in *; [|exact Hm].
  apply Forall_app. split; [exact Hm|]. apply Hf. now apply Hq.
Qed.

Lemma emits_bind {A B} P (m : M A) (f : A -> M B) :
  emits P m -> (forall a, emits P (f a)) -> emits P (bind m f).
Proof.
  intros Hm Hf.
  apply (emits_bind_yields P (fun _ => True) m f); auto.
  intros s a _. exact I.
Qed.

Lemma emits_tryCatch {A} P (m : M A) (h : exn -> M A) :
  emits P m -> (forall e, emits P (h e)) -> emits P (tryCatch m h).
Proof.
  intros Hm Hh s. unfold tryCatch. specialize (Hm s).
  destruct (m s) as [[a|e] st out]; simpl in *; [exact Hm|].
  apply Forall_app. split; [exact Hm | apply Hh].
Qed.

Lemma emits_when P (b : bool) (m : M unit) :
  (b = true -> emits P m) -> emits P (when b m).
Proof.
  intros H. destruct b; simpl; [now apply H | apply emits_ret].
Qed.

(** *** Computations that cannot throw *)

Lemma total_ret {A} (a : A) : total (ret a).
Proof. intros s. now exists a. Qed.

Lemma total_bind {A B} (m : M A) (f : A -> M B) :
  total m -> (forall a, total (f a)) -> total (bind m f).
Proof.
  intros Hm Hf s. unfold bind. destruct (Hm s) as [a Ha].
  destruct (m s) as [r st out]; simpl in *. subst r.
  destruct (Hf a st) as [b Hb]. exists b. exact Hb.
Qed.

Lemma total_tryCatch {A} (m : M A) (h : exn -> M A) :
  (forall e, total (h e)) -> total (tryCatch m h).
Proof.
  intros Hh s. unfold tryCatch.
  destruct (m s) as [[a|e] st out]; simpl.
  - now exists a.
  - destruct (Hh e st) as [b Hb]. now exists b.
Qed.

Lemma total_when (b : bool) (m : M unit) : total m -> total (when b m).
Proof. intros H. destruct b; [exact H | apply total_ret]. Qed.

Lemma total_sink (chunk : jsstring) : total (onStreamChunk chunk).
Proof. intros s. now exists tt. Qed.

End EffFacts.

(* ================================================================== *)
(** ** What [callChatAPI] passes to the sink *)
(* ================================================================== *)

Module SinkFacts.
Import Spec EffFacts StringFacts Chat.
Local Open Scope js_scope.

Create HintDb emits discriminated.
#[local] Hint Resolve emits_ret emits_throw emits_set emits_get : emits.

Ltac emits_bind := apply emits_bind; [ | intros ? ].

Section Sink.

(** A property that every replacement of a non-empty text has. *)
Variable P : jsstring -> Prop.
Hypothesis P_replace : forall s, s <> [] -> P (replaceEscapedNewlines s).

Lemma emits_jsonParse (text : jsstring) : emits P (jsonParse text).
Proof. unfold jsonParse. destruct (JSON.parse text); auto with emits. Qed.

Lemma emits_getProp (data : value) (name : jsstring) :
  emits P (getProp data name).
Proof. destruct data; simpl; auto with emits. Qed.

Lemma emits_callReplace (v : option value) : emits P (callReplace v).
Proof. destruct v as [[]|]; simpl; auto with emits. Qed.

(** The replacement of a truthy value is the replacement of a
    non-empty string. *)
Lemma yields_callReplace (v : option value) :
  truthy v = true -> yields P (callReplace v).
Proof.
  intros Ht s a. destruct v as [[]|]; simpl; try discriminate.
  intros [= <-]. apply P_replace. simpl in Ht. now destruct s0.
Qed.

Lemma emits_replaced (v : option value) :
  emits P (if truthy v
           then bind (callReplace v) (fun p => onStreamChunk p)
           else ret tt).
Proof.
  destruct (truthy v) eqn:Ht; [|auto with emits].
  apply (emits_bind_yields P P).
  - apply emits_callReplace.
  - now apply yields_callReplace.
  - intros a Ha. now apply emits_sink.
Qed.

Lemma emits_fallback (text : jsstring) :
  emits P (when (nonEmpty (trim text))
                (onStreamChunk (replaceEscapedNewlines text))).
Proof.
  apply emits_when. intros H. apply emits_sink, P_replace.
  now apply trim_nonEmpty.
Qed.

Lemma emits_handleData (dataContent : jsstring) :
  emits P (handleData dataContent).
Proof.
  unfold handleData. apply emits_tryCatch.
  - unfold tryBlock.
    emits_bind; [apply emits_jsonParse|].
    emits_bind; [apply emits_getProp|].
    emits_bind; [apply emits_getProp|].
    emits_bind; [apply emits_when; auto with emits|].
    emits_bind; [apply emits_getProp|].
    emits_bind; [apply emits_getProp|].
    emits_bind; [apply emits_getProp|].
    emits_bind; [apply emits_getProp|].
    apply emits_replaced.
  - intros e. apply emits_fallback.
Qed.

Lemma emits_forBody (line : jsstring) : emits P (forBody line).
Proof.
  unfold forBody.
  destruct (nonEmpty (trim line)) eqn:Hl; [|auto with emits].
  destruct (startsWith line (lit "data: ")).
  - destruct (includes _ _); [auto with emits|].
    emits_bind; [apply emits_handleData | auto with emits].
  - simpl. destruct (negb _ && negb _); [|auto with emits].
    emits_bind; [|auto with emits].
    apply emits_sink, P_replace. now apply trim_nonEmpty.
Qed.

Lemma emits_forLines (lines : list jsstring) : emits P (forLines lines).
Proof.
  induction lines as [|l rest IH]; simpl; [auto with emits|].
  emits_bind; [apply emits_forBody|].
  destruct a; auto with emits.
Qed.

Lemma emits_readLoop (reads : list readResult) :
  forall decoder buffer, emits P (readLoop reads decoder buffer).
Proof.
  induction reads as [|[v|m] rest IH]; intros decoder buffer; simpl;
    [auto with emits | | auto with emits].
  destruct (TextDecoder.decode decoder v) as [decoder' text].
  emits_bind; [apply emits_forLines | apply IH].
Qed.

Lemma emits_flushBuffer (buffer : jsstring) : emits P (flushBuffer buffer).
Proof.
  unfold flushBuffer.
  destruct (nonEmpty _); [|auto with emits].
  destruct (startsWith _ _); [|auto with emits].
  destruct (negb _); [apply emits_handleData | auto with emits].
Qed.

Lemma emits_streaming (response : Response) : emits P (streaming response).
Proof.
  unfold streaming. destruct (body response); [|auto with emits].
  emits_bind; [auto with emits|].
  emits_bind; [apply emits_readLoop|].
  emits_bind; [apply emits_flushBuffer | auto with emits].
Qed.

Lemma emits_responseJson (response : Response) :
  emits P (Chat.responseJson response).
Proof.
  unfold Chat.responseJson. destruct (allBytes _);
    [auto with emits | apply emits_jsonParse].
Qed.

Lemma emits_nonStreaming (response : Response) :
  emits P (nonStreaming response).
Proof.
  unfold nonStreaming.
  emits_bind; [apply emits_responseJson|].
  emits_bind; [apply emits_getProp|].
  emits_bind; [apply emits_getProp|].
  emits_bind; [apply emits_getProp|].
  emits_bind; [apply emits_replaced|].
  emits_bind; [apply emits_getProp | auto with emits].
Qed.

(** Whatever the network does, every text that reaches the sink has
    the property. *)
Lemma emits_callChatAPI (net : fetchOutcome) : emits P (callChatAPI net).
Proof.
  unfold callChatAPI. apply emits_tryCatch; [|auto with emits].
  emits_bind; [destruct net; auto with emits|].
  emits_bind; [destruct (negb _); auto with emits|].
  destruct (isJson _); [apply emits_nonStreaming | apply emits_streaming].
Qed.

End Sink.

End SinkFacts.

(* ================================================================== *)
(** ** One line through the decoder *)
(* ================================================================== *)

Module LineFacts.
Import Spec EffFacts StringFacts Chat.
Local Open Scope js_scope.

(** [a || b || c || d || fallback] is the first truthy of the four,
    or the fallback. *)
Lemma orElse_chain4 (a b c d e : option value) :
  orElse (orElse (orElse (orElse a b) c) d) e
  = match firstTruthy [a; b; c; d] with
    | Some v => v
    | None => e
    end.
Proof.
  unfold firstTruthy, orElse. cbn [find].
  destruct (truthy a) eqn:Ha; rewrite ?Ha; [reflexivity|].
  destruct (truthy b) eqn:Hb; rewrite ?Hb; [reflexivity|].
  destruct (truthy c) eqn:Hc; rewrite ?Hc; [reflexivity|].
  now destruct (truthy d).
Qed.

Lemma orElse_chain3 (a b c e : option value) :
  orElse (orElse (orElse a b) c) e
  = match firstTruthy [a; b; c] with
    | Some v => v
    | None => e
    end.
Proof.
  unfold firstTruthy, orElse. cbn [find].
  destruct (truthy a) eqn:Ha; rewrite ?Ha; [reflexivity|].
  destruct (truthy b) eqn:Hb; rewrite ?Hb; [reflexivity|].
  now destruct (truthy c).
Qed.

Lemma firstTruthy_truthy (vs : list (option value)) (v : option value) :
  firstTruthy vs = Some v -> truthy v = true.
Proof. intros H. now apply find_some in H. Qed.

(** One statement of a block whose value is known. *)
Ltac js_step :=
  cbn [getProp when callReplace];
  first [ rewrite bind_ret_l | rewrite bind_throw
        | rewrite bind_set | rewrite bind_sink ];
  cbv beta; cbn [getProp when callReplace].

Lemma tryBlock_syntax_error (payload : jsstring) (st : option value) :
  JSON.parse payload = None ->
  tryBlock payload st
  = mkRes (Throw (Native SyntaxErrorC (lit "Unexpected token in JSON")))
          st [].
Proof.
  intros H. unfold tryBlock, jsonParse. rewrite H. now js_step.
Qed.

Lemma tryBlock_null (payload : jsstring) (st : option value) :
  JSON.parse payload = Some JNull ->
  tryBlock payload st
  = mkRes (Throw (Native TypeErrorC (lit "Cannot read properties of null")))
          st [].
Proof.
  intros H. unfold tryBlock, jsonParse. rewrite H. now do 2 js_step.
Qed.

(** Booleans, numbers, strings and arrays have none of the fields. *)
Lemma tryBlock_fieldless (payload : jsstring) (data : value)
      (st : option value) :
  JSON.parse payload = Some data ->
  data <> JNull -> (forall fields, data <> JObject fields) ->
  tryBlock payload st = mkRes (Ok tt) st [].
Proof.
  intros H Hn Ho. unfold tryBlock, jsonParse. rewrite H.
  destruct data; try congruence; try (now destruct (Ho fields));
    do 3 js_step; cbn [strictEq truthy andb when]; now do 5 js_step.
Qed.

(** A payload that parses to an object: the id slot is written first,
    then the first truthy field is replaced and passed on; replacing
    something that is not a string throws. *)
Lemma tryBlock_object (payload : jsstring)
      (fields : list (jsstring * value)) (st : option value) :
  JSON.parse payload = Some (JObject fields) ->
  tryBlock payload st
  = let id := lookup (lit "agent_message_id") fields in
    let st' :=
      if strictEq (lookup (lit "type") fields) (lit "end_metadata")
         && truthy id then id else st in
    match firstTruthy [lookup (lit "response") fields;
                       lookup (lit "message") fields;
                       lookup (lit "chunk") fields;
                       lookup (lit "content") fields] with
    | Some (Some (JString s)) => mkRes (Ok tt) st' [replaceEscapedNewlines s]
    | Some _ =>
        mkRes (Throw (Native TypeErrorC (lit "replace is not a function")))
              st' []
    | None => mkRes (Ok tt) st' []
    end.
Proof.
  intros H. unfold tryBlock, jsonParse. rewrite H. cbv zeta.
  do 3 js_step.
  set (k := fun _ : unit => _).
  assert (Hk : forall s, when (strictEq (lookup (lit "type") fields)
                                        (lit "end_metadata")
                               && truthy (lookup (lit "agent_message_id")
                                                 fields))
                              (setAgentMessageId
                                 (lookup (lit "agent_message_id") fields)) s
                         = mkRes (Ok tt)
                             (if strictEq (lookup (lit "type") fields)
                                          (lit "end_metadata")
                                 && truthy (lookup (lit "agent_message_id")
                                                   fields)
                              then lookup (lit "agent_message_id") fields
                              else s) []).
  { intros s. unfold when. now destruct (_ && _). }
  rewrite (bind_eq _ k st _ (Hk st)). cbn [result emitted agentMessageId].
  rewrite after_nil. subst k. cbv beta.
  do 4 js_step.
  rewrite orElse_chain4.
  destruct (firstTruthy _) as [v|] eqn:Ef.
  - rewrite (firstTruthy_truthy _ _ Ef).
    destruct v as [[]|]; cbn [callReplace]; now js_step.
  - reflexivity.
Qed.

(** *** The [try] with its [catch] *)

Lemma catchBlock_eq (payload : jsstring) (e : exn) (st : option value) :
  catchBlock payload e st
  = mkRes (Ok tt) st
          (if nonEmpty (trim payload)
           then [replaceEscapedNewlines payload] else []).
Proof. unfold catchBlock, when. now destruct (nonEmpty (trim payload)). Qed.

(** The text the [catch] branch passes on. *)
Lemma handleData_syntax_error (payload : jsstring) (st : option value) :
  JSON.parse payload = None ->
  handleData payload st
  = mkRes (Ok tt) st
          (if nonEmpty (trim payload)
           then [replaceEscapedNewlines payload] else []).
Proof.
  intros H. unfold handleData.
  rewrite (tryCatch_eq _ _ _ _ (tryBlock_syntax_error _ st H)).
  cbn [result emitted agentMessageId]. now rewrite catchBlock_eq.
Qed.

Lemma handleData_object (payload : jsstring)
      (fields : list (jsstring * value)) (st : option value) :
  JSON.parse payload = Some (JObject fields) ->
  handleData payload st
  = let id := lookup (lit "agent_message_id") fields in
    mkRes (Ok tt)
      (if strictEq (lookup (lit "type") fields) (lit "end_metadata")
          && truthy id then id else st)
      match firstTruthy [lookup (lit "response") fields;
                         lookup (lit "message") fields;
                         lookup (lit "chunk") fields;
                         lookup (lit "content") fields] with
      | Some (Some (JString s)) => [replaceEscapedNewlines s]
      | Some _ => if nonEmpty (trim payload)
                  then [replaceEscapedNewlines payload] else []
      | None => []
      end.
Proof.
  intros H. unfold handleData.
  rewrite (tryCatch_eq _ _ _ _ (tryBlock_object _ _ st H)). cbv zeta.
  destruct (firstTruthy _) as [[[]|]|];
    cbn [result emitted agentMessageId]; try reflexivity;
    now rewrite catchBlock_eq.
Qed.

(** A payload that parses to something that is not an object leaves
    the id slot alone. *)
Lemma handleData_not_object (payload : jsstring) (data : value)
      (st : option value) :
  JSON.parse payload = Some data ->
  (forall fields, data <> JObject fields) ->
  agentMessageId (handleData payload st) = st.
Proof.
  intros H Ho. unfold handleData.
  assert (Hd : data = JNull \/ data <> JNull)
    by (destruct data; auto; right; discriminate).
  destruct Hd as [-> | Hn].
  - rewrite (tryCatch_eq _ _ _ _ (tryBlock_null _ st H)).
    cbn [result emitted agentMessageId]. now rewrite catchBlock_eq.
  - now rewrite (tryCatch_eq _ _ _ _ (tryBlock_fieldless _ _ st H Hn Ho)).
Qed.

Lemma handleData_total (payload : jsstring) : total (handleData payload).
Proof.
  unfold handleData. apply total_tryCatch. intros e.
  apply total_when, total_sink.
Qed.

Lemma handleData_ok (payload : jsstring) (st : option value) :
  result (handleData payload st) = Ok tt.
Proof. destruct (handleData_total payload st) as [[] H]. exact H. Qed.

(** What a data line leaves in the id slot: its own id when it is a
    metadata event, the previous one otherwise. *)
Lemma handleData_id (line : jsstring) (st : option value) :
  startsWith line (lit "data: ") = true ->
  agentMessageId (handleData (substring 6 line) st)
  = match metadataId line with
    | Some v => Some v
    | None => st
    end.
Proof.
  intros Hd. unfold metadataId. rewrite Hd.
  destruct (JSON.parse (substring 6 line)) as [data|] eqn:Hp.
  - destruct data;
      try (rewrite (handleData_not_object _ _ st Hp);
           [reflexivity | intros f; discriminate]).
    rewrite (handleData_object _ _ st Hp). cbv zeta.
    cbn [agentMessageId].
    destruct (strictEq _ _ && truthy _) eqn:E; [|reflexivity].
    apply andb_prop in E as [_ Ht].
    now destruct (lookup (lit "agent_message_id") fields).
  - now rewrite (handleData_syntax_error _ st Hp).
Qed.

(** *** The loop body *)

Lemma forBody_marker (line : jsstring) (st : option value) :
  isMarker line = true -> forBody line st = mkRes (Ok Break) st [].
Proof.
  unfold isMarker, forBody. intros H. apply andb_prop in H as [Hd Hm].
  now rewrite (data_line_not_blank _ Hd), Hd, Hm.
Qed.

Lemma forBody_data (line : jsstring) (st : option value) :
  startsWith line (lit "data: ") = true ->
  includes (substring 6 line) (lit "[DONE]") = false ->
  forBody line st
  = bind (handleData (substring 6 line)) (fun _ => ret Continue) st.
Proof.
  intros Hd Hm. unfold forBody.
  now rewrite (data_line_not_blank _ Hd), Hd, Hm.
Qed.

(** A line that is neither blank nor a data line: it is passed on
    unless it is an [event:] or [id:] line. *)
Lemma forBody_plain (line : jsstring) (st : option value) :
  startsWith line (lit "data: ") = false ->
  forBody line st
  = mkRes (Ok Continue) st
          (if nonEmpty (trim line)
              && negb (startsWith line (lit "event:"))
              && negb (startsWith line (lit "id:"))
           then [replaceEscapedNewlines line] else []).
Proof.
  intros Hd. unfold forBody. rewrite Hd.
  destruct (nonEmpty (trim line)); [|reflexivity].
  cbn [andb]. now destruct (negb _ && negb _).
Qed.

(** A line that is not a terminal marker lets the loop go on. *)
Lemma forBody_continue (line : jsstring) (st : option value) :
  isMarker line = false -> result (forBody line st) = Ok Continue.
Proof.
  unfold isMarker. intros H.
  destruct (startsWith line (lit "data: ")) eqn:Hd.
  - cbn [andb] in H. rewrite (forBody_data _ st Hd H).
    rewrite (bind_eq _ _ _ _ eq_refl). now rewrite handleData_ok.
  - now rewrite (forBody_plain _ st Hd).
Qed.

Lemma forBody_id (line : jsstring) (st : option value) :
  isMarker line = false ->
  agentMessageId (forBody line st)
  = match metadataId line with
    | Some v => Some v
    | None => st
    end.
Proof.
  unfold isMarker. intros H.
  destruct (startsWith line (lit "data: ")) eqn:Hd.
  - cbn [andb] in H. rewrite (forBody_data _ st Hd H).
    rewrite (bind_eq _ _ _ _ eq_refl). rewrite handleData_ok.
    cbn [agentMessageId ret after]. now apply handleData_id.
  - rewrite (forBody_plain _ st Hd). unfold metadataId. now rewrite Hd.
Qed.

(** *** The loop over the lines of a chunk *)

Lemma forLines_cons (line : jsstring) (rest : list jsstring)
      (st : option value) :
  isMarker line = false ->
  forLines (line :: rest) st
  = bind (forBody line) (fun _ => forLines rest) st.
Proof.
  intros H. cbn [forLines]. unfold bind.
  now rewrite (forBody_continue _ st H).
Qed.

Lemma forLines_marker (line : jsstring) (rest : list jsstring)
      (st : option value) :
  isMarker line = true -> forLines (line :: rest) st = mkRes (Ok tt) st [].
Proof.
  intros H. cbn [forLines]. unfold bind. now rewrite (forBody_marker _ st H).
Qed.

Lemma forLines_ok (lines : list jsstring) :
  forall st, result (forLines lines st) = Ok tt.
Proof.
  induction lines as [|l rest IH]; intros st; [reflexivity|].
  destruct (isMarker l) eqn:Hm.
  - now rewrite (forLines_marker _ rest st Hm).
  - rewrite (forLines_cons _ rest st Hm). unfold bind.
    rewrite (forBody_continue _ st Hm). cbn [result]. apply IH.
Qed.

Lemma forLines_id (lines : list jsstring) :
  forall st,
  agentMessageId (forLines lines st) = lastId st (untilMarker lines).
Proof.
  induction lines as [|l rest IH]; intros st; [reflexivity|].
  cbn [untilMarker]. destruct (isMarker l) eqn:Hm.
  - now rewrite (forLines_marker _ rest st Hm).
  - rewrite (forLines_cons _ rest st Hm). unfold bind.
    rewrite (forBody_continue _ st Hm). cbn [agentMessageId].
    rewrite IH, (forBody_id _ st Hm). reflexivity.
Qed.

(** Without a terminal marker in the first part, a list of lines is
    processed as its two parts in turn. *)
Lemma forLines_app (l1 l2 : list jsstring) :
  Forall (fun l => isMarker l = false) l1 ->
  forall st,
  forLines (l1 ++ l2) st = bind (forLines l1) (fun _ => forLines l2) st.
Proof.
  induction 1 as [|l rest Hl Hrest IH]; intros st.
  - cbn [app forLines]. now rewrite bind_ret_l.
  - cbn [app]. rewrite (forLines_cons _ _ st Hl).
    rewrite (bind_ext_l (forLines (l :: rest))
                        (bind (forBody l) (fun _ => forLines rest)) _ st
                        (fun s => forLines_cons l rest s Hl)).
    rewrite bind_assoc. apply bind_ext. intros _ s'. apply IH.
Qed.

End LineFacts.

(* ================================================================== *)
(** ** A whole stream through the decoder *)
(* ================================================================== *)

Module StreamFacts.
Import Spec EffFacts StringFacts LineFacts Chat.
Local Open Scope js_scope.

(** The decoder carries its state over a chunk boundary: decoding two
    chunks in turn gives the text of their concatenation. *)
Lemma decode_app (st : TextDecoder.state) (a b : list Byte.byte) :
  TextDecoder.decode st (a ++ b)
  = let (st1, s1) := TextDecoder.decode st a in
    let (st2, s2) := TextDecoder.decode st1 b in
    (st2, s1 ++ s2).
Proof.
  revert st. induction a as [|x a IH]; intros st.
  - cbn [app TextDecoder.decode].
    now destruct (TextDecoder.decode st b).
  - cbn [app TextDecoder.decode].
    destruct (TextDecoder.decodeByte st x) as [st1 s1].
    rewrite IH.
    destruct (TextDecoder.decode st1 a) as [st2 s2].
    destruct (TextDecoder.decode st2 b) as [st3 s3].
    now rewrite app_assoc.
Qed.

(** The buffer kept between two reads holds no newline. *)
Lemma split_last (s : jsstring) :
  split (last (split s) []) = [last (split s) []].
Proof.
  induction s as [|c r IH]; [reflexivity|].
  cbn [split]. pose proof (split_nonempty r) as Hne.
  destruct (N.eqb c LF) eqn:E.
  - destruct (split r) as [|l ls] eqn:Er; [congruence|]. exact IH.
  - destruct (split r) as [|l ls] eqn:Er; [congruence|].
    destruct ls as [|l' ls'].
    + cbn [last] in *. cbn [split]. rewrite E. now rewrite IH.
    + exact IH.
Qed.

(** *** The text left in the buffer *)

Lemma flushBuffer_marker (buffer : jsstring) (st : option value) :
  isMarker buffer = true -> flushBuffer buffer st = mkRes (Ok tt) st [].
Proof.
  unfold isMarker, flushBuffer. intros H. apply andb_prop in H as [Hd Hm].
  now rewrite (data_line_not_blank _ Hd), Hd, Hm.
Qed.

Lemma flushBuffer_data (buffer : jsstring) (st : option value) :
  startsWith buffer (lit "data: ") = true ->
  includes (substring 6 buffer) (lit "[DONE]") = false ->
  flushBuffer buffer st = handleData (substring 6 buffer) st.
Proof.
  intros Hd Hm. unfold flushBuffer.
  now rewrite (data_line_not_blank _ Hd), Hd, Hm.
Qed.

(** Text that is not a data line is dropped at the end of the
    stream. *)
Lemma flushBuffer_plain (buffer : jsstring) (st : option value) :
  startsWith buffer (lit "data: ") = false ->
  flushBuffer buffer st = mkRes (Ok tt) st [].
Proof.
  intros Hd. unfold flushBuffer. rewrite Hd.
  now destruct (nonEmpty (trim buffer)).
Qed.

Lemma flushBuffer_ok (buffer : jsstring) (st : option value) :
  result (flushBuffer buffer st) = Ok tt.
Proof.
  destruct (startsWith buffer (lit "data: ")) eqn:Hd.
  - destruct (includes (substring 6 buffer) (lit "[DONE]")) eqn:Hm.
    + rewrite flushBuffer_marker; [reflexivity|].
      unfold isMarker. now rewrite Hd, Hm.
    + rewrite (flushBuffer_data _ st Hd Hm). apply handleData_ok.
  - now rewrite (flushBuffer_plain _ st Hd).
Qed.

Lemma flushBuffer_id (buffer : jsstring) (st : option value) :
  agentMessageId (flushBuffer buffer st) = lastId st (tailLine buffer).
Proof.
  unfold tailLine.
  destruct (startsWith buffer (lit "data: ")) eqn:Hd.
  - destruct (includes (substring 6 buffer) (lit "[DONE]")) eqn:Hm.
    + rewrite flushBuffer_marker; [reflexivity|].
      unfold isMarker. now rewrite Hd, Hm.
    + rewrite (flushBuffer_data _ st Hd Hm).
      cbn [andb negb lastId fold_left]. now apply handleData_id.
  - now rewrite (flushBuffer_plain _ st Hd).
Qed.

(** *** The read loop *)

Lemma readLoop_chunk (v : list Byte.byte) (rest : list readResult)
      (decoder : TextDecoder.state) (buffer : jsstring) (st : option value) :
  readLoop (Chunk v :: rest) decoder buffer st
  = bind (forLines (removelast
                      (split (buffer ++ snd (TextDecoder.decode decoder v)))))
         (fun _ => readLoop rest (fst (TextDecoder.decode decoder v))
                     (last (split (buffer
                                   ++ snd (TextDecoder.decode decoder v))) []))
         st.
Proof.
  cbn [readLoop]. now destruct (TextDecoder.decode decoder v).
Qed.

(** Without a read failure the loop ends normally. *)
Lemma readLoop_ok (chunks : list (list Byte.byte)) :
  forall decoder buffer st,
  exists b, result (readLoop (map Chunk chunks) decoder buffer st) = Ok b.
Proof.
  induction chunks as [|v rest IH]; intros decoder buffer st.
  - now exists buffer.
  - cbn [map]. rewrite readLoop_chunk.
    rewrite (bind_eq _ _ _ _ eq_refl), forLines_ok.
    cbn [result after]. apply IH.
Qed.

Lemma lastId_app (st : option value) (l1 l2 : list jsstring) :
  lastId st (l1 ++ l2) = lastId (lastId st l1) l2.
Proof. apply fold_left_app. Qed.

(** The id slot after the loop and the flush: the last id among the
    processed lines. *)
Lemma readLoop_flush_id (chunks : list (list Byte.byte)) :
  forall decoder buffer st,
  let r := bind (readLoop (map Chunk chunks) decoder buffer) flushBuffer st in
  result r = Ok tt /\
  agentMessageId r = lastId st (processedLines decoder buffer chunks).
Proof.
  induction chunks as [|v rest IH]; intros decoder buffer st.
  - cbn [map readLoop processedLines]. cbv zeta. rewrite bind_ret_l.
    split; [apply flushBuffer_ok | apply flushBuffer_id].
  - cbv zeta. cbn [map processedLines].
    rewrite (bind_ext_l _ _ _ st (readLoop_chunk v _ decoder buffer)).
    rewrite bind_assoc.
    destruct (TextDecoder.decode decoder v) as [decoder' text].
    cbn [fst snd].
    rewrite (bind_eq _ _ _ _ eq_refl), forLines_ok.
    cbn [result after agentMessageId].
    destruct (IH decoder' (last (split (buffer ++ text)) [])
                 (agentMessageId
                    (forLines (removelast (split (buffer ++ text))) st)))
      as [Hr Hi].
    split; [exact Hr|].
    rewrite Hi, forLines_id, lastId_app. reflexivity.
Qed.

(** Without a terminal marker among the complete lines, the loop does
    what one pass over all the lines of the text does, and leaves the
    text after the last newline in the buffer. *)
Lemma readLoop_markerFree (chunks : list (list Byte.byte)) :
  forall decoder buffer st,
  split buffer = [buffer] ->
  Forall (fun l => isMarker l = false)
         (removelast
            (split (buffer
                    ++ snd (TextDecoder.decode decoder (List.concat chunks)))))
  ->
  readLoop (map Chunk chunks) decoder buffer st
  = bind (forLines
            (removelast
               (split (buffer
                       ++ snd (TextDecoder.decode decoder
                                                  (List.concat chunks))))))
         (fun _ =>
            ret (last (split (buffer
                              ++ snd (TextDecoder.decode decoder
                                                         (List.concat chunks))))
                      []))
         st.
Proof.
  induction chunks as [|v rest IH]; intros decoder buffer st Hb Hfree.
  - cbn [map List.concat TextDecoder.decode snd readLoop] in *.
    rewrite app_nil_r, Hb. cbn [removelast forLines last].
    now rewrite bind_ret_l.
  - cbn [map List.concat] in *. rewrite readLoop_chunk.
    rewrite decode_app in *.
    destruct (TextDecoder.decode decoder v) as [d1 t1].
    destruct (TextDecoder.decode d1 (List.concat rest)) as [d2 t2] eqn:E2.
    cbn [fst snd] in *.
    rewrite app_assoc in *.
    rewrite (removelast_split_app (buffer ++ t1) t2) in *.
    rewrite (last_split_app (buffer ++ t1) t2).
    apply Forall_app in Hfree as [H1 H2].
    rewrite (bind_ext_l _ _ _ st (forLines_app _ _ H1)), bind_assoc.
    apply bind_ext. intros _ s'.
    specialize (IH d1 (last (split (buffer ++ t1)) []) s'
                   (split_last _)).
    rewrite E2 in IH. cbn [snd] in IH. now apply IH.
Qed.

(** *** The streaming branch as a whole *)

Lemma callChatAPI_streams (response : Response)
      (chunks : list (list Byte.byte)) (st : option value) :
  streams response chunks ->
  callChatAPI (Responded response) st
  = bind (readLoop (map Chunk chunks) TextDecoder.init [])
         (fun buffer => bind (flushBuffer buffer)
                             (fun _ => getAgentMessageId))
         None.
Proof.
  intros (Hok & Hj & Hb). unfold callChatAPI.
  erewrite tryCatch_eq;
    [| rewrite bind_ret_l; cbv beta; rewrite Hok; cbn [negb];
       rewrite bind_ret_l, Hj; unfold streaming; rewrite Hb;
       rewrite bind_set; reflexivity ].
  rewrite <- bind_assoc.
  pose proof (readLoop_flush_id chunks TextDecoder.init [] None) as [Hr _].
  rewrite (bind_eq _ _ _ _ eq_refl), Hr. reflexivity.
Qed.

(** A stream that is read to its end returns the last id among the
    processed lines, and never throws. *)
Lemma callChatAPI_streams_result (response : Response)
      (chunks : list (list Byte.byte)) (st : option value) :
  streams response chunks ->
  result (callChatAPI (Responded response) st)
  = Ok (lastId None (processedLines TextDecoder.init [] chunks)).
Proof.
  intros H. rewrite (callChatAPI_streams _ _ st H).
  rewrite <- bind_assoc.
  pose proof (readLoop_flush_id chunks TextDecoder.init [] None) as [Hr Hi].
  rewrite (bind_eq _ _ _ _ eq_refl), Hr.
  cbn [result after getAgentMessageId]. now rewrite Hi.
Qed.

(** A stream without a terminal marker among its complete lines is
    decoded as its whole text is, whatever the chunks. *)
Lemma callChatAPI_markerFree (response : Response)
      (chunks : list (list Byte.byte)) (st : option value) :
  streams response chunks -> markerFree chunks ->
  callChatAPI (Responded response) st = decodeText (textOf chunks) st.
Proof.
  intros H Hfree. rewrite (callChatAPI_streams _ _ st H).
  unfold decodeText. rewrite bind_set.
  unfold markerFree, textOf in *.
  rewrite (bind_ext_l _ _ _ None
             (fun s => readLoop_markerFree chunks TextDecoder.init [] s
                         eq_refl Hfree)).
  rewrite bind_assoc. apply bind_ext. intros _ s'.
  now rewrite bind_ret_l.
Qed.

End StreamFacts.

(* ================================================================== *)
(** ** A single JSON document *)
(* ================================================================== *)

Module DocumentFacts.
Import Spec EffFacts StringFacts LineFacts Chat.
Local Open Scope js_scope.

Lemma responseJson_carries (response : Response) (data : value)
      (st : option value) :
  carries response data ->
  Chat.responseJson response st = mkRes (Ok data) st [].
Proof.
  intros (_ & _ & bs & Hb & Hp).
  unfold Chat.responseJson, jsonParse. now rewrite Hb, Hp.
Qed.

(** An object whose first truthy text field is a string: one call of
    the sink, and the id of the document or [null]. *)
Lemma nonStreaming_text (response : Response)
      (fields : list (jsstring * value)) (s : jsstring) (st : option value) :
  carries response (JObject fields) ->
  firstTruthy [lookup (lit "response") fields;
               lookup (lit "message") fields;
               lookup (lit "content") fields] = Some (Some (JString s)) ->
  nonStreaming response st
  = mkRes (Ok (orElse (lookup (lit "agent_message_id") fields) None))
          st [replaceEscapedNewlines s].
Proof.
  intros Hc Hf. unfold nonStreaming.
  rewrite (bind_eq _ _ _ _ (responseJson_carries _ _ st Hc)).
  cbn [result emitted agentMessageId]. rewrite after_nil.
  do 3 js_step. rewrite orElse_chain3, Hf.
  rewrite (firstTruthy_truthy _ _ Hf). cbn [callReplace].
  rewrite bind_assoc, bind_ret_l, bind_sink. cbn [getProp].
  now rewrite bind_ret_l.
Qed.

(** The single-document branch when it ends normally. *)
Lemma callChatAPI_document (response : Response) (st : option value)
      (r : Res (option value)) (a : option value) :
  ok response = true -> isJson (contentType response) = true ->
  nonStreaming response st = r -> result r = Ok a ->
  callChatAPI (Responded response) st = r.
Proof.
  intros Hok Hj Hr Ha. unfold callChatAPI.
  erewrite tryCatch_eq;
    [| rewrite bind_ret_l; cbv beta; rewrite Hok; cbn [negb];
       rewrite bind_ret_l, Hj; exact Hr ].
  now rewrite Ha.
Qed.

End DocumentFacts.

(* ================================================================== *)
(** ** The wrappers of [api.ts] *)
(* ================================================================== *)

Module ApiFacts.
Import Api.

Section Wrappers.

Variable API_BASE_URL : jsstring.
Variable fetch : jsstring -> fetchOutcome.
Variable getDateRangeFromFilter : TimeFilter -> jsstring * jsstring.
Variable searchParamsToString : list (jsstring * jsstring) -> jsstring.

(** Whatever is thrown inside a wrapper, the caller sees the wrapper's
    own plain [Error]. *)
Lemma fetchAnalytics_throws (params : AnalyticsQueryParams) (e : exn) :
  fetchAnalytics API_BASE_URL fetch getDateRangeFromFilter
                 searchParamsToString params = Throw e ->
  e = Native ErrorC (lit "Failed to fetch analytics data").
Proof.
  unfold fetchAnalytics, catch.
  destruct (andThen _ _); [discriminate | now intros [= <-]].
Qed.

Lemma fetchHubSpotSessions_throws (params : AnalyticsQueryParams) (e : exn) :
  fetchHubSpotSessions API_BASE_URL fetch getDateRangeFromFilter
                       searchParamsToString params = Throw e ->
  e = Native ErrorC (lit "Failed to fetch HubSpot sessions data").
Proof.
  unfold fetchHubSpotSessions, catch.
  destruct (andThen _ _); [discriminate | now intros [= <-]].
Qed.

Lemma fetchAnalytics_fails (params : AnalyticsQueryParams) :
  requestFails API_BASE_URL fetch getDateRangeFromFilter
               searchParamsToString (lit "/api/lyzr/analytics") params ->
  fetchAnalytics API_BASE_URL fetch getDateRangeFromFilter
                 searchParamsToString params
  = Throw (Native ErrorC (lit "Failed to fetch analytics data")).
Proof.
  unfold requestFails, fetchAnalytics, awaitFetch, catch, andThen.
  destruct (fetch _) as [m|r]; [reflexivity|].
  now intros ->.
Qed.

Lemma fetchHubSpotSessions_fails (params : AnalyticsQueryParams) :
  requestFails API_BASE_URL fetch getDateRangeFromFilter
               searchParamsToString (lit "/api/lyzr/hubspot-sessions") params ->
  fetchHubSpotSessions API_BASE_URL fetch getDateRangeFromFilter
                       searchParamsToString params
  = Throw (Native ErrorC (lit "Failed to fetch HubSpot sessions data")).
Proof.
  unfold requestFails, fetchHubSpotSessions, awaitFetch, catch, andThen.
  destruct (fetch _) as [m|r]; [reflexivity|].
  now intros ->.
Qed.

End Wrappers.

(** [handleApiError] is where the uniform error with its endpoint comes
    from. *)
Lemma handleApiError_native (cls : errorClass) (message endpoint : jsstring) :
  @handleApiError value (Native cls message) endpoint
  = Throw (ApiError message None (Some endpoint)).
Proof. reflexivity. Qed.

End ApiFacts.

(* ================================================================== *)
(** ** The properties of the specification *)
(* ================================================================== *)

Module Properties.
Import Spec EffFacts StringFacts LineFacts StreamFacts DocumentFacts Chat.

(** *** Streams that end badly or hold nothing *)

(** A stream with no bytes: no sink call and no id. *)
Example empty_stream :
  run (callChatAPI (eventStream [])) = mkRes (Ok None) None [].
Proof. reflexivity. Qed.

(** A read that fails aborts the call with the generic error; what the
    sink received before stays received. *)
Example read_failure_after_a_line :
  let r := run (callChatAPI
                  (Responded
                     (mkResponse true 200 None
                        (Some [Chunk (lineBytes "hello");
                               ReadFailure (lit "network error")])))) in
  result r = Throw (Native ErrorC (lit "Failed to get response from chat API"))
  /\ emitted r = [lit "hello"].
Proof. vm_compute. split; reflexivity. Qed.

(** A response without a success status is never read. *)
Example failure_status :
  run (callChatAPI
         (Responded (mkResponse false 503 None
                                (Some [Chunk (lineBytes "hello")]))))
  = mkRes (Throw (Native ErrorC (lit "Failed to get response from chat API")))
          None [].
Proof. reflexivity. Qed.

(** *** Terminal marker *)

(** C1, as the code behaves. The [break] at a [data: [DONE]] line
    leaves the loop over the lines of the current chunk and nothing
    else: a line after the marker in the same chunk is skipped, but the
    next chunk is still read, its lines reach the sink, and an
    [end_metadata] event in it overwrites the id recorded before the
    marker. *)
Theorem C1_marker_ends_only_its_chunk :
  emitted (run (callChatAPI
                  (eventStream [lineBytes "data: [DONE]" ++ lineBytes "late"])))
  = []
  /\
  emitted (run (callChatAPI
                  (eventStream [lineBytes "data: [DONE]"; lineBytes "late"])))
  = [lit "late"]
  /\
  result (run (callChatAPI
                 (eventStream [lineBytes (metadataLine "A")
                               ++ lineBytes "data: [DONE]";
                               lineBytes (metadataLine "B")])))
  = Ok (Some (JString (lit "B"))).
Proof. vm_compute. repeat split. Qed.

(** *** Chunk boundaries *)

(** Two streams with the same bytes and no terminal marker among their
    complete lines give the same run: the same texts to the sink in the
    same order and the same returned id, wherever the chunks are cut. *)
Lemma chunking_invariance_without_marker
      (r1 r2 : Response) (c1 c2 : list (list Byte.byte)) (st : option value) :
  streams r1 c1 -> streams r2 c2 ->
  List.concat c1 = List.concat c2 ->
  markerFree c1 ->
  callChatAPI (Responded r1) st = callChatAPI (Responded r2) st.
Proof.
  intros H1 H2 Hc Hfree.
  assert (Hfree2 : markerFree c2)
    by (unfold markerFree, textOf in *; now rewrite <- Hc).
  rewrite (callChatAPI_markerFree _ _ st H1 Hfree).
  rewrite (callChatAPI_markerFree _ _ st H2 Hfree2).
  unfold textOf. now rewrite Hc.
Qed.

(** A cut inside the [data: ] prefix and inside a two-byte character
    changes nothing. *)
Example chunking_inside_prefix_and_character :
  run (callChatAPI
         (eventStream [bytes "da";
                       bytes "ta: {'response':'caf" ++ [Byte.xc3];
                       [Byte.xa9] ++ lineBytes "'}"]))
  = run (callChatAPI
           (eventStream [bytes "data: {'response':'caf"
                         ++ [Byte.xc3; Byte.xa9] ++ lineBytes "'}"]))
  /\
  emitted (run (callChatAPI
                  (eventStream [bytes "da";
                                bytes "ta: {'response':'caf" ++ [Byte.xc3];
                                [Byte.xa9] ++ lineBytes "'}"])))
  = [[99; 97; 102; 233]%N].
Proof. vm_compute. split; reflexivity. Qed.

(** C2, as the code behaves. The same bytes cut in two ways give
    different sink calls when a terminal marker is among the lines: in
    one chunk the line after the marker is skipped, in two chunks it
    reaches the sink. *)
Theorem C2_chunking_changes_the_emissions :
  List.concat [lineBytes "data: [DONE]"; lineBytes "late"]
  = lineBytes "data: [DONE]" ++ lineBytes "late"
  /\
  emitted (run (callChatAPI
                  (eventStream [lineBytes "data: [DONE]" ++ lineBytes "late"])))
  = []
  /\
  emitted (run (callChatAPI
                  (eventStream [lineBytes "data: [DONE]"; lineBytes "late"])))
  = [lit "late"].
Proof. vm_compute. repeat split. Qed.

(** *** The correlation id *)

Lemma lastId_none (lines : list jsstring) :
  Forall (fun x => metadataId x = None) lines ->
  forall st, lastId st lines = st.
Proof.
  induction 1 as [|l rest Hl _ IH]; intros st; [reflexivity|].
  unfold lastId in *. cbn [fold_left]. rewrite Hl. apply IH.
Qed.

Lemma lastId_last (pre post : list jsstring) (l : jsstring) (v : value)
      (st : option value) :
  metadataId l = Some v ->
  Forall (fun x => metadataId x = None) post ->
  lastId st (pre ++ l :: post) = Some v.
Proof.
  intros Hl Hpost. rewrite lastId_app.
  unfold lastId at 1. cbn [fold_left]. rewrite Hl.
  now apply lastId_none.
Qed.

(** C3. For a stream that is read to its end, the returned id is the
    [agent_message_id] of the last processed line that is an
    [end_metadata] data event with a non-empty (truthy) id, each such
    event overwriting the one before; and it is [null] when no
    processed line is such an event. *)
Theorem C3_last_metadata_id_wins
        (response : Response) (chunks : list (list Byte.byte)) :
  streams response chunks ->
  let lines := processedLines TextDecoder.init [] chunks in
  let returned := result (run (callChatAPI (Responded response))) in
  (forall pre l post v,
      lines = pre ++ l :: post ->
      metadataId l = Some v ->
      Forall (fun x => metadataId x = None) post ->
      returned = Ok (Some v))
  /\
  (Forall (fun x => metadataId x = None) lines -> returned = Ok None).
Proof.
  intros H lines returned.
  assert (Hr : returned = Ok (lastId None lines))
    by (apply callChatAPI_streams_result; exact H).
  split.
  - intros pre l post v Hlines Hl Hpost.
    rewrite Hr, Hlines. f_equal. now apply lastId_last.
  - intros Hnone. rewrite Hr. f_equal. now apply lastId_none.
Qed.

Lemma C3_last_metadata_id_wins_witness :
  let two := [lineBytes (metadataLine "A") ++ lineBytes (metadataLine "B")] in
  let none := [lineBytes "data: {'response':'hi'}"] in
  (streams (streamResponse two) two /\
   result (run (callChatAPI (eventStream two))) = Ok (Some (JString (lit "B"))))
  /\
  (streams (streamResponse none) none /\
   result (run (callChatAPI (eventStream none))) = Ok None).
Proof.
  intros two none.
  assert (H2 : streams (streamResponse two) two) by (repeat split).
  assert (H0 : streams (streamResponse none) none) by (repeat split).
  split; (split; [assumption|]).
  - apply (proj1 (C3_last_metadata_id_wins (streamResponse two) two H2)
                 [wire (metadataLine "A")] (wire (metadataLine "B")) []
                 (JString (lit "B"))).
    + vm_compute. reflexivity.
    + vm_compute. reflexivity.
    + repeat constructor.
  - apply (proj2 (C3_last_metadata_id_wins (streamResponse none) none H0)).
    vm_compute. repeat constructor.
Defined.

(** *** The text left in the buffer *)

(** C4, as the code behaves. At the end of the stream only a [data: ]
    line left in the buffer is processed; a plain line without its
    newline is dropped, though the same line with a newline reaches the
    sink. *)
Theorem C4_plain_tail_is_dropped :
  emitted (run (callChatAPI (eventStream [bytes "hello"]))) = []
  /\
  emitted (run (callChatAPI (eventStream [lineBytes "hello"]))) = [lit "hello"]
  /\
  emitted (run (callChatAPI (eventStream [bytes "data: {'content':'tail'}"])))
  = [lit "tail"].
Proof. vm_compute. repeat split. Qed.

(** *** Malformed payloads *)

(** C5 fails as stated: the payload of [data: [DONE]] is not valid
    JSON and is not blank, yet the sink is not called for the line, and
    the rest of the chunk is not processed. *)
Lemma C5_counterexample :
  let line := lit "data: [DONE]" in
  startsWith line (lit "data: ") = true /\
  JSON.parse (substring 6 line) = None /\
  nonEmpty (trim (substring 6 line)) = true /\
  emitted (forLines [line; lit "next"] None) = [] /\
  emitted (forLines [line; lit "next"] None)
  <> replaceEscapedNewlines (substring 6 line)
     :: emitted (forLines [lit "next"] None) /\
  emitted (run (callChatAPI (eventStream [lineBytes "data: [DONE]"]))) = [].
Proof. vm_compute. repeat split; discriminate. Qed.

(** C5, amended. A data line whose payload does not contain [[DONE]]
    and is not valid JSON raises no error: when the trimmed payload is
    not empty the sink is called once with the raw payload, escaped
    newlines replaced, and otherwise not at all; the id slot is left as
    it was and the lines after it are processed as before. The same
    holds for such a line left in the buffer at the end of the stream.
    A stream whose reads all succeed never makes the call throw. *)
Theorem C5_malformed_payload_falls_back
        (line : jsstring) (rest : list jsstring) (st : option value) :
  startsWith line (lit "data: ") = true ->
  includes (substring 6 line) (lit "[DONE]") = false ->
  JSON.parse (substring 6 line) = None ->
  let payload := substring 6 line in
  let fallback :=
    if nonEmpty (trim payload) then [replaceEscapedNewlines payload] else [] in
  forLines (line :: rest) st = after fallback (forLines rest st)
  /\ flushBuffer line st = mkRes (Ok tt) st fallback
  /\ (forall response chunks,
         streams response chunks ->
         exists id, result (run (callChatAPI (Responded response))) = Ok id).
Proof.
  intros Hd Hm Hp payload fallback. repeat split.
  - assert (Hnm : isMarker line = false)
      by (unfold isMarker; now rewrite Hd, Hm).
    rewrite (forLines_cons _ rest st Hnm).
    rewrite (bind_eq _ _ _ _ (forBody_data _ st Hd Hm)).
    rewrite (bind_eq _ _ _ _ (handleData_syntax_error _ st Hp)).
    cbn [result emitted agentMessageId after ret].
    now rewrite app_nil_r.
  - rewrite (flushBuffer_data _ st Hd Hm).
    exact (handleData_syntax_error _ st Hp).
  - intros response chunks H. eexists. unfold run.
    exact (callChatAPI_streams_result _ _ None H).
Qed.

Lemma C5_malformed_payload_falls_back_witness :
  let line := lit "data: {bad json" in
  (startsWith line (lit "data: ") = true /\
   includes (substring 6 line) (lit "[DONE]") = false /\
   JSON.parse (substring 6 line) = None) /\
  forLines [line; lit "next"] None
  = after [lit "{bad json"] (forLines [lit "next"] None) /\
  exists id,
    result (run (callChatAPI (eventStream [lineBytes "data: {bad json"])))
    = Ok id.
Proof.
  intros line.
  assert (Hd : startsWith line (lit "data: ") = true) by reflexivity.
  assert (Hm : includes (substring 6 line) (lit "[DONE]") = false)
    by reflexivity.
  assert (Hp : JSON.parse (substring 6 line) = None) by reflexivity.
  destruct (C5_malformed_payload_falls_back line [lit "next"] None Hd Hm Hp)
    as (Hlines & _ & Hcall).
  split; [now repeat split|]. split.
  - exact Hlines.
  - apply (Hcall (streamResponse [lineBytes "data: {bad json"])
                 [lineBytes "data: {bad json"]).
    repeat split.
Defined.

(** *** The text fields of a payload *)

(** C6 fails as stated: in a payload whose [response] is the empty
    string and whose [message] is [hi], the first present field is
    [response] and it is empty, yet the sink is called, with the later
    field [message]. *)
Lemma C6_counterexample :
  let fields := [(lit "response", JString []);
                 (lit "message", JString (lit "hi"))] in
  JSON.parse (wire "{'response':'','message':'hi'}") = Some (JObject fields) /\
  firstPresent [lookup (lit "response") fields; lookup (lit "message") fields;
                lookup (lit "chunk") fields; lookup (lit "content") fields]
  = Some (Some (JString [])) /\
  emitted (run (callChatAPI
                  (eventStream
                     [lineBytes "data: {'response':'','message':'hi'}"])))
  = [lit "hi"] /\
  emitted (run (callChatAPI
                  (eventStream
                     [lineBytes "data: {'response':'','message':'hi'}"])))
  <> [].
Proof. vm_compute. repeat split; discriminate. Qed.

(** C6, amended. For a data line whose payload does not contain
    [[DONE]] and parses as a JSON object, the field that counts is the
    first truthy (non-empty) one among [response], [message], [chunk],
    [content], in that order, an empty or absent field giving way to
    the next: when it is a string, the sink is called once with it,
    escaped newlines replaced; when none of the four is truthy, the
    sink is not called. The same holds for such a line left in the
    buffer at the end of the stream. *)
Theorem C6_first_truthy_field_is_emitted
        (line : jsstring) (fields : list (jsstring * value))
        (st : option value) :
  startsWith line (lit "data: ") = true ->
  includes (substring 6 line) (lit "[DONE]") = false ->
  JSON.parse (substring 6 line) = Some (JObject fields) ->
  let first :=
    firstTruthy [lookup (lit "response") fields; lookup (lit "message") fields;
                 lookup (lit "chunk") fields; lookup (lit "content") fields] in
  (forall s, first = Some (Some (JString s)) ->
             result (forBody line st) = Ok Continue /\
             emitted (forBody line st) = [replaceEscapedNewlines s] /\
             emitted (flushBuffer line st) = [replaceEscapedNewlines s])
  /\
  (first = None ->
   result (forBody line st) = Ok Continue /\
   emitted (forBody line st) = [] /\
   emitted (flushBuffer line st) = []).
Proof.
  intros Hd Hm Hp first.
  assert (Hnm : isMarker line = false)
    by (unfold isMarker; now rewrite Hd, Hm).
  assert (Hb : emitted (forBody line st)
               = emitted (handleData (substring 6 line) st)).
  { rewrite (forBody_data _ st Hd Hm), (bind_eq _ _ _ _ eq_refl).
    rewrite handleData_ok. cbn [after emitted ret]. apply app_nil_r. }
  rewrite Hb, (flushBuffer_data _ st Hd Hm), (forBody_continue _ st Hnm).
  rewrite (handleData_object _ _ st Hp). cbv zeta. cbn [emitted].
  fold first. split.
  - intros s ->. auto.
  - intros ->. auto.
Qed.

Lemma C6_first_truthy_field_is_emitted_witness :
  let line := wire "data: {'response':'','message':'hi'}" in
  let fields := [(lit "response", JString []);
                 (lit "message", JString (lit "hi"))] in
  let none := wire "data: {'type':'ping','response':''}" in
  let noneFields := [(lit "type", JString (lit "ping"));
                     (lit "response", JString [])] in
  (startsWith line (lit "data: ") = true /\
   includes (substring 6 line) (lit "[DONE]") = false /\
   JSON.parse (substring 6 line) = Some (JObject fields) /\
   emitted (forBody line None) = [lit "hi"])
  /\
  (startsWith none (lit "data: ") = true /\
   includes (substring 6 none) (lit "[DONE]") = false /\
   JSON.parse (substring 6 none) = Some (JObject noneFields) /\
   emitted (forBody none None) = []).
Proof.
  intros line fields none noneFields.
  assert (Hd : startsWith line (lit "data: ") = true) by reflexivity.
  assert (Hm : includes (substring 6 line) (lit "[DONE]") = false)
    by reflexivity.
  assert (Hp : JSON.parse (substring 6 line) = Some (JObject fields))
    by reflexivity.
  assert (Hd' : startsWith none (lit "data: ") = true) by reflexivity.
  assert (Hm' : includes (substring 6 none) (lit "[DONE]") = false)
    by reflexivity.
  assert (Hp' : JSON.parse (substring 6 none) = Some (JObject noneFields))
    by reflexivity.
  split.
  - split; [exact Hd|]. split; [exact Hm|]. split; [exact Hp|].
    exact (proj1 (proj2 (proj1 (C6_first_truthy_field_is_emitted
                                  line fields None Hd Hm Hp)
                               (lit "hi") eq_refl))).
  - split; [exact Hd'|]. split; [exact Hm'|]. split; [exact Hp'|].
    exact (proj1 (proj2 (proj2 (C6_first_truthy_field_is_emitted
                                  none noneFields None Hd' Hm' Hp')
                               eq_refl))).
Defined.

(** *** Escaped newlines *)

Lemma replace_normalized (s : jsstring) :
  s <> [] -> normalized (replaceEscapedNewlines s).
Proof.
  intros _. split; [now exists s | apply replace_no_escape].
Qed.

(** C7. The replacement turns every backslash followed by [n] into a
    line feed and leaves all other text as it is, and every path that
    calls the sink passes the text through it: on the JSON-field path
    the text emitted is the replacement of the first truthy field, on
    the malformed-payload path the replacement of the raw payload, on
    the plain-line path the replacement of the line, and on the
    single-document path the replacement of the document's text, in
    the loop and at the end of the stream alike. So whatever the
    network answers, no backslash followed by [n] is left in a text
    passed to the sink; and the single line
    [data: {"response":"x\ny"}], its newline written as a JSON escape
    or as an escaped backslash and [n], gives exactly one sink call
    with the text [x], line feed, [y]. *)
Theorem C7_emitted_text_is_normalized :
  (forall a b,
      replaceEscapedNewlines (a ++ escapedNewline ++ b)
      = replaceEscapedNewlines a ++ [LF] ++ replaceEscapedNewlines b)
  /\
  (forall s,
      includes s escapedNewline = false -> replaceEscapedNewlines s = s)
  /\
  (forall line fields s st,
      startsWith line (lit "data: ") = true ->
      includes (substring 6 line) (lit "[DONE]") = false ->
      JSON.parse (substring 6 line) = Some (JObject fields) ->
      firstTruthy [lookup (lit "response") fields;
                   lookup (lit "message") fields;
                   lookup (lit "chunk") fields;
                   lookup (lit "content") fields]
      = Some (Some (JString s)) ->
      emitted (forBody line st) = [replaceEscapedNewlines s] /\
      emitted (flushBuffer line st) = [replaceEscapedNewlines s])
  /\
  (forall line st,
      startsWith line (lit "data: ") = true ->
      includes (substring 6 line) (lit "[DONE]") = false ->
      JSON.parse (substring 6 line) = None ->
      nonEmpty (trim (substring 6 line)) = true ->
      emitted (forBody line st)
      = [replaceEscapedNewlines (substring 6 line)] /\
      emitted (flushBuffer line st)
      = [replaceEscapedNewlines (substring 6 line)])
  /\
  (forall line st,
      startsWith line (lit "data: ") = false ->
      startsWith line (lit "event:") = false ->
      startsWith line (lit "id:") = false ->
      nonEmpty (trim line) = true ->
      emitted (forBody line st) = [replaceEscapedNewlines line])
  /\
  (forall response fields s,
      carries response (JObject fields) ->
      firstTruthy [lookup (lit "response") fields;
                   lookup (lit "message") fields;
                   lookup (lit "content") fields]
      = Some (Some (JString s)) ->
      emitted (run (callChatAPI (Responded response)))
      = [replaceEscapedNewlines s])
  /\
  (forall net, Forall normalized (emitted (run (callChatAPI net))))
  /\
  emitted (run (callChatAPI
                  (eventStream [lineBytes "data: {'response':'x\ny'}"])))
  = [[120; 10; 121]%N]
  /\
  emitted (run (callChatAPI
                  (eventStream [lineBytes "data: {'response':'x\\ny'}"])))
  = [[120; 10; 121]%N]
  /\
  emitted (run (callChatAPI (eventStream [lineBytes "data: {bad\nline"])))
  = [lit "{bad" ++ [LF] ++ lit "line"]
  /\
  emitted (run (callChatAPI (eventStream [lineBytes "plain\ntext"])))
  = [lit "plain" ++ [LF] ++ lit "text"]
  /\
  emitted (run (callChatAPI (jsonDocument (bytes "{'response':'x\\ny'}"))))
  = [[120; 10; 121]%N].
Proof.
  split; [exact replace_pair|]. split; [exact replace_identity|].
  split.
  { intros line fields s st Hd Hm Hp Hf.
    assert (Hb : emitted (forBody line st)
                 = emitted (handleData (substring 6 line) st)).
    { rewrite (forBody_data _ st Hd Hm), (bind_eq _ _ _ _ eq_refl).
      rewrite handleData_ok. cbn [after emitted ret]. apply app_nil_r. }
    rewrite Hb, (flushBuffer_data _ st Hd Hm).
    rewrite (handleData_object _ _ st Hp). cbv zeta. cbn [emitted].
    rewrite Hf. auto. }
  split.
  { intros line st Hd Hm Hp Hn.
    assert (Hb : emitted (forBody line st)
                 = emitted (handleData (substring 6 line) st)).
    { rewrite (forBody_data _ st Hd Hm), (bind_eq _ _ _ _ eq_refl).
      rewrite handleData_ok. cbn [after emitted ret]. apply app_nil_r. }
    rewrite Hb, (flushBuffer_data _ st Hd Hm).
    rewrite (handleData_syntax_error _ st Hp), Hn. auto. }
  split.
  { intros line st Hd He Hi Hn.
    rewrite (forBody_plain _ st Hd), Hn, He, Hi. reflexivity. }
  split.
  { intros response fields s Hc Hf. unfold run.
    pose proof Hc as (Hok & Hj & _).
    rewrite (callChatAPI_document response None _ _ Hok Hj
               (nonStreaming_text response fields s None Hc Hf) eq_refl).
    reflexivity. }
  split.
  { intros net. apply SinkFacts.emits_callChatAPI. exact replace_normalized. }
  vm_compute. repeat split.
Qed.

Lemma C7_emitted_text_is_normalized_witness :
  let field := wire "data: {'chunk':'a\\nb'}" in
  let broken := lit "data: {a\nb" in
  let plain := lit "a\nb" in
  emitted (forBody field None) = [lit "a" ++ [LF] ++ lit "b"] /\
  emitted (forBody broken None) = [lit "{a" ++ [LF] ++ lit "b"] /\
  emitted (flushBuffer broken None) = [lit "{a" ++ [LF] ++ lit "b"] /\
  emitted (forBody plain None) = [lit "a" ++ [LF] ++ lit "b"].
Proof.
  intros field broken plain.
  destruct C7_emitted_text_is_normalized
    as (_ & _ & Hfield & Hbroken & Hplain & _).
  split.
  - exact (proj1 (Hfield field [(lit "chunk", JString (lit "a\nb"))]
                         (lit "a\nb") None eq_refl eq_refl eq_refl eq_refl)).
  - split; [|split].
    + exact (proj1 (Hbroken broken None eq_refl eq_refl eq_refl eq_refl)).
    + exact (proj2 (Hbroken broken None eq_refl eq_refl eq_refl eq_refl)).
    + exact (Hplain plain None eq_refl eq_refl eq_refl eq_refl).
Defined.

(** *** Non-empty texts *)

(** C10. Every call of the sink made by [callChatAPI], on the
    streaming and on the single-document path, passes a non-empty
    string; a blank line makes no call, in the loop or at the end of
    the stream, and neither does a data line whose payload is blank. *)
Theorem C10_sink_receives_nonempty_text :
  (forall net,
      Forall (fun chunk => chunk <> []) (emitted (run (callChatAPI net))))
  /\
  (forall line st,
      nonEmpty (trim line) = false ->
      emitted (forBody line st) = [] /\ emitted (flushBuffer line st) = [])
  /\
  (forall line st,
      startsWith line (lit "data: ") = true ->
      nonEmpty (trim (substring 6 line)) = false ->
      emitted (forBody line st) = [] /\ emitted (flushBuffer line st) = []).
Proof.
  split; [|split].
  - intros net. apply SinkFacts.emits_callChatAPI. exact replace_nonEmpty.
  - intros line st H. unfold forBody, flushBuffer. now rewrite H.
  - intros line st Hd Hb.
    destruct (includes (substring 6 line) (lit "[DONE]")) eqn:Hm.
    + assert (Hk : isMarker line = true)
        by (unfold isMarker; now rewrite Hd, Hm).
      now rewrite (forBody_marker _ st Hk), (flushBuffer_marker _ st Hk).
    + pose proof (JSONFacts.parse_blank _ (trim_blank _ Hb)) as Hp.
      rewrite (forBody_data _ st Hd Hm), (flushBuffer_data _ st Hd Hm).
      rewrite (bind_eq _ _ _ _ (handleData_syntax_error _ st Hp)).
      rewrite (handleData_syntax_error _ st Hp).
      cbn [result emitted after ret]. now rewrite Hb.
Qed.

Lemma C10_sink_receives_nonempty_text_witness :
  let blank := lit "   " in
  let line := lit "data:    " in
  (nonEmpty (trim blank) = false /\ emitted (forBody blank None) = []) /\
  (startsWith line (lit "data: ") = true /\
   nonEmpty (trim (substring 6 line)) = false /\
   emitted (forBody line None) = []).
Proof.
  intros blank line.
  destruct C10_sink_receives_nonempty_text as (_ & Hblank & Hpayload).
  split.
  - split; [reflexivity|]. exact (proj1 (Hblank blank None eq_refl)).
  - split; [reflexivity|]. split; [reflexivity|].
    exact (proj1 (Hpayload line None eq_refl eq_refl)).
Defined.

(** *** The single-document path *)

(** C8 fails as stated: a JSON document that is an object without a
    text field makes the call throw, the sink is not called and no id
    is returned; and for the document that is the empty JSON string
    the sink is not called either. *)
Lemma C8_counterexample :
  let doc := bytes "{'agent_message_id':'a1'}" in
  carries (documentResponse doc)
          (JObject [(lit "agent_message_id", JString (lit "a1"))]) /\
  run (callChatAPI (jsonDocument doc))
  = mkRes (Throw (Native ErrorC (lit "Failed to get response from chat API")))
          None [] /\
  carries (documentResponse (bytes "''")) (JString []) /\
  run (callChatAPI (jsonDocument (bytes "''"))) = mkRes (Ok None) None [].
Proof.
  intros doc. split; [|split; [|split]].
  - repeat split. exists doc. now vm_compute.
  - now vm_compute.
  - repeat split. exists (bytes "''"). now vm_compute.
  - now vm_compute.
Qed.

(** C8, amended. For a response recognized by its content type as one
    JSON document, when the document is an object and the first truthy
    (non-empty) of its [response], [message], [content] fields is a
    string, [callChatAPI] calls the sink exactly once, with that whole
    string, escaped newlines replaced, and returns the document's
    [agent_message_id], or [null] when that is absent or empty; no line
    of the text is parsed. *)
Theorem C8_document_is_emitted_once
        (response : Response) (fields : list (jsstring * value))
        (s : jsstring) :
  carries response (JObject fields) ->
  firstTruthy [lookup (lit "response") fields;
               lookup (lit "message") fields;
               lookup (lit "content") fields] = Some (Some (JString s)) ->
  result (run (callChatAPI (Responded response)))
  = Ok (orElse (lookup (lit "agent_message_id") fields) None)
  /\ emitted (run (callChatAPI (Responded response)))
     = [replaceEscapedNewlines s].
Proof.
  intros Hc Hf. unfold run.
  pose proof Hc as (Hok & Hj & _).
  rewrite (callChatAPI_document response None _ _ Hok Hj
             (nonStreaming_text response fields s None Hc Hf) eq_refl).
  split; reflexivity.
Qed.

Lemma C8_document_is_emitted_once_witness :
  let doc := bytes "{'response':'hi\nyou','agent_message_id':'a1'}" in
  let fields := [(lit "response", JString [104; 105; 10; 121; 111; 117]%N);
                 (lit "agent_message_id", JString (lit "a1"))] in
  carries (documentResponse doc) (JObject fields) /\
  result (run (callChatAPI (jsonDocument doc))) = Ok (Some (JString (lit "a1")))
  /\ emitted (run (callChatAPI (jsonDocument doc)))
     = [[104; 105; 10; 121; 111; 117]%N].
Proof.
  intros doc fields.
  assert (Hc : carries (documentResponse doc) (JObject fields)).
  { split; [reflexivity|]. split; [reflexivity|].
    exists doc. split; [reflexivity | now vm_compute]. }
  split; [exact Hc|].
  exact (C8_document_is_emitted_once (documentResponse doc) fields
           [104; 105; 10; 121; 111; 117]%N Hc eq_refl).
Defined.

(** *** The data-fetching wrappers *)

(** C9 fails as stated: on a response with status 500 [fetchAnalytics]
    and [fetchHubSpotSessions] throw a plain [Error] with a fixed
    message; it is not an [ApiError] and names no endpoint. *)
Lemma C9_counterexample :
  let fetch := fun _ : jsstring =>
                 Responded (mkResponse false 500 None None) in
  let range := fun _ : Api.TimeFilter => (lit "2024-01-01", lit "2024-01-31") in
  let encode := fun _ : list (jsstring * jsstring) => @nil N in
  let params := Api.mkParams None None None in
  Api.requestFails (lit "http://backend") fetch range encode
                   (lit "/api/lyzr/analytics") params /\
  Api.fetchAnalytics (lit "http://backend") fetch range encode params
  = Throw (Native ErrorC (lit "Failed to fetch analytics data")) /\
  Api.fetchHubSpotSessions (lit "http://backend") fetch range encode params
  = Throw (Native ErrorC (lit "Failed to fetch HubSpot sessions data")) /\
  ~ Api.isApiErrorWithEndpoint
      (Native ErrorC (lit "Failed to fetch analytics data")) /\
  ~ Api.isApiErrorWithEndpoint
      (Native ErrorC (lit "Failed to fetch HubSpot sessions data")).
Proof.
  intros fetch range encode params.
  split; [reflexivity|]. split; [reflexivity|]. split; [reflexivity|].
  split; intros (m & st & ep & H); discriminate H.
Qed.

(** C9, amended. When the request fails, by a network error or by a
    status that is not a success, each wrapper catches the failure and
    throws a plain [Error] whose message is fixed for the wrapper,
    ["Failed to fetch analytics data"] or ["Failed to fetch HubSpot
    sessions data"], whatever the underlying failure said: no transport
    detail gets out. The error is not an [ApiError] and carries no
    endpoint field; only [handleApiError], which the wrappers do not
    call, builds one. *)
Theorem C9_wrappers_throw_a_fixed_error
        (API_BASE_URL : jsstring) (fetch : jsstring -> fetchOutcome)
        (getDateRangeFromFilter : Api.TimeFilter -> jsstring * jsstring)
        (searchParamsToString : list (jsstring * jsstring) -> jsstring)
        (params : Api.AnalyticsQueryParams) :
  (Api.requestFails API_BASE_URL fetch getDateRangeFromFilter
                    searchParamsToString (lit "/api/lyzr/analytics") params ->
   Api.fetchAnalytics API_BASE_URL fetch getDateRangeFromFilter
                      searchParamsToString params
   = Throw (Native ErrorC (lit "Failed to fetch analytics data")))
  /\
  (Api.requestFails API_BASE_URL fetch getDateRangeFromFilter
                    searchParamsToString (lit "/api/lyzr/hubspot-sessions")
                    params ->
   Api.fetchHubSpotSessions API_BASE_URL fetch getDateRangeFromFilter
                            searchParamsToString params
   = Throw (Native ErrorC (lit "Failed to fetch HubSpot sessions data"))).
Proof.
  split.
  - apply ApiFacts.fetchAnalytics_fails.
  - apply ApiFacts.fetchHubSpotSessions_fails.
Qed.

Lemma C9_wrappers_throw_a_fixed_error_witness :
  let fetch := fun _ : jsstring => NetworkFailure (lit "Failed to fetch") in
  let range := fun _ : Api.TimeFilter => (lit "2024-01-01", lit "2024-01-31") in
  let encode := fun _ : list (jsstring * jsstring) => @nil N in
  let params := Api.mkParams None None (Some Api.week) in
  (Api.requestFails (lit "http://backend") fetch range encode
                    (lit "/api/lyzr/analytics") params /\
   Api.fetchAnalytics (lit "http://backend") fetch range encode params
   = Throw (Native ErrorC (lit "Failed to fetch analytics data")))
  /\
  (Api.requestFails (lit "http://backend") fetch range encode
                    (lit "/api/lyzr/hubspot-sessions") params /\
   Api.fetchHubSpotSessions (lit "http://backend") fetch range encode params
   = Throw (Native ErrorC (lit "Failed to fetch HubSpot sessions data"))).
Proof.
  intros fetch range encode params.
  split.
  - split; [exact I|].
    exact (proj1 (C9_wrappers_throw_a_fixed_error
                    (lit "http://backend") fetch range encode params) I).
  - split; [exact I|].
    exact (proj2 (C9_wrappers_throw_a_fixed_error
                    (lit "http://backend") fetch range encode params) I).
Defined.

End Properties.

(* ================================================================== *)
(** ** More about [callChatAPI]: failures and odd payloads *)
(* ================================================================== *)

Module CallFacts.
Import Spec EffFacts StringFacts LineFacts StreamFacts DocumentFacts Chat.

(** The [try] of [callChatAPI] around a body whose run is known. *)
Lemma callChatAPI_body (response : Response) (st : option value) :
  ok response = true ->
  callChatAPI (Responded response) st
  = tryCatch (if isJson (contentType response) then nonStreaming response
              else streaming response)
             (fun _ => throw (Native ErrorC
                                (lit "Failed to get response from chat API")))
             st.
Proof.
  intros Hok. unfold callChatAPI, tryCatch.
  rewrite bind_ret_l. cbv beta. rewrite Hok. cbn [negb].
  now rewrite bind_ret_l.
Qed.

(** The loop up to a read that fails: it throws, and the sink and the
    id slot are as the chunks before the failure left them. *)
Lemma readLoop_failure (m : jsstring) (rest : list readResult)
      (chunks : list (list Byte.byte)) :
  forall decoder buffer st,
  let failed := readLoop (map Chunk chunks ++ ReadFailure m :: rest)
                         decoder buffer st in
  let ended := readLoop (map Chunk chunks) decoder buffer st in
  result failed = Throw (Native TypeErrorC m) /\
  emitted failed = emitted ended /\
  agentMessageId failed = agentMessageId ended.
Proof.
  induction chunks as [|v chunks IH]; intros decoder buffer st.
  - cbn. repeat split.
  - cbv zeta. cbn [map app]. rewrite !readLoop_chunk.
    rewrite !(bind_eq _ _ _ _ eq_refl), forLines_ok.
    cbn [result after emitted agentMessageId].
    destruct (IH (fst (TextDecoder.decode decoder v))
                 (last (split (buffer ++ snd (TextDecoder.decode decoder v)))
                       [])
                 (agentMessageId
                    (forLines
                       (removelast
                          (split (buffer
                                  ++ snd (TextDecoder.decode decoder v))))
                       st)))
      as (Hr & He & Hi).
    repeat split; [exact Hr | now rewrite He | exact Hi].
Qed.

(** Text that parses as JSON is not blank. *)
Lemma parsed_not_blank (payload : jsstring) (data : value) :
  JSON.parse payload = Some data -> nonEmpty (trim payload) = true.
Proof.
  intros H. destruct (nonEmpty (trim payload)) eqn:E; [reflexivity|].
  rewrite (JSONFacts.parse_blank _ (trim_blank _ E)) in H. discriminate.
Qed.

(** X1. Whatever the network does, [callChatAPI] either returns an id
    (or [null]) or throws the plain [Error] with the fixed message
    ["Failed to get response from chat API"]: no status, no transport
    or parser message gets out. *)
Theorem callChatAPI_throws_only_its_own_error (net : fetchOutcome) :
  (exists id, result (run (callChatAPI net)) = Ok id) \/
  result (run (callChatAPI net))
  = Throw (Native ErrorC (lit "Failed to get response from chat API")).
Proof.
  unfold run, callChatAPI, tryCatch. cbv beta zeta.
  match goal with
  | |- context [result (bind ?m ?f None)] =>
      destruct (bind m f None) as [[a|e0] st out]
  end; cbn [result throw emitted agentMessageId].
  - left. now exists a.
  - now right.
Qed.

(** X2. When the request itself fails, the status is not a success,
    or a response that is not JSON has no body to read, [callChatAPI]
    throws before the sink is called at all. *)
Theorem callChatAPI_fails_before_any_sink_call (net : fetchOutcome) :
  match net with
  | NetworkFailure _ => True
  | Responded r =>
      ok r = false \/ (isJson (contentType r) = false /\ body r = None)
  end ->
  run (callChatAPI net)
  = mkRes (Throw (Native ErrorC (lit "Failed to get response from chat API")))
          None [].
Proof.
  destruct net as [m|r]; [reflexivity|].
  intros [Hok | [Hj Hb]].
  - unfold run, callChatAPI, tryCatch.
    rewrite bind_ret_l. cbv beta. rewrite Hok. cbn [negb].
    now rewrite bind_throw.
  - destruct (ok r) eqn:Hok.
    + unfold run. rewrite (callChatAPI_body _ None Hok), Hj.
      unfold tryCatch, streaming. now rewrite Hb.
    + unfold run, callChatAPI, tryCatch.
      rewrite bind_ret_l. cbv beta. rewrite Hok. cbn [negb].
      now rewrite bind_throw.
Qed.

Lemma callChatAPI_fails_before_any_sink_call_witness :
  let net := Responded (mkResponse false 503 (Some (lit "text/event-stream"))
                                   (Some [Chunk (lineBytes "hello")])) in
  (false = false \/
   (isJson (Some (lit "text/event-stream")) = false /\
    Some [Chunk (lineBytes "hello")] = None)) /\
  run (callChatAPI net)
  = mkRes (Throw (Native ErrorC (lit "Failed to get response from chat API")))
          None [].
Proof.
  intros net.
  assert (H : false = false \/
              (isJson (Some (lit "text/event-stream")) = false /\
               Some [Chunk (lineBytes "hello")] = @None (list readResult)))
    by (left; reflexivity).
  split; [exact H|].
  exact (callChatAPI_fails_before_any_sink_call net H).
Defined.

(** X3. A read that fails in the middle of a stream makes the call
    throw the fixed error, and the sink has then received exactly the
    texts the read loop passed on for the chunks before the failure,
    in their order. A stream that ends after the same chunks gives the
    same texts and then those of the text left in the buffer, which
    the failing run never processes. *)
Theorem read_failure_keeps_the_emitted_prefix
        (failing ending : Response) (chunks : list (list Byte.byte))
        (m : jsstring) (rest : list readResult) :
  ok failing = true -> isJson (contentType failing) = false ->
  body failing = Some (map Chunk chunks ++ ReadFailure m :: rest) ->
  streams ending chunks ->
  let loop := readLoop (map Chunk chunks) TextDecoder.init [] None in
  result (run (callChatAPI (Responded failing)))
  = Throw (Native ErrorC (lit "Failed to get response from chat API"))
  /\
  emitted (run (callChatAPI (Responded failing))) = emitted loop
  /\
  exists buffer,
    result loop = Ok buffer /\
    emitted (run (callChatAPI (Responded ending)))
    = emitted (run (callChatAPI (Responded failing)))
      ++ emitted (flushBuffer buffer (agentMessageId loop)).
Proof.
  intros Hok Hj Hb Hs loop. unfold run.
  rewrite (callChatAPI_streams _ _ None Hs).
  rewrite (callChatAPI_body _ None Hok), Hj.
  unfold streaming. rewrite Hb.
  destruct (readLoop_failure m rest chunks TextDecoder.init [] None)
    as (Hr & He & Hi).
  rewrite (tryCatch_eq _ _ None _ eq_refl), bind_set.
  rewrite (bind_eq _ _ None _ eq_refl), Hr.
  cbn [result emitted agentMessageId throw after].
  rewrite He, app_nil_r. fold loop.
  split; [reflexivity|]. split; [reflexivity|].
  rewrite (bind_eq _ _ None _ eq_refl). fold loop.
  destruct (readLoop_ok chunks TextDecoder.init [] None) as [b Hb'].
  fold loop in Hb'. rewrite Hb'. exists b. split; [reflexivity|].
  cbn [after emitted]. f_equal.
  rewrite (bind_eq _ _ _ _ eq_refl), flushBuffer_ok.
  cbn [after emitted getAgentMessageId]. apply app_nil_r.
Qed.

Lemma read_failure_keeps_the_emitted_prefix_witness :
  let chunks := [lineBytes "hello"; bytes "data: {'content':'tail'}"] in
  let failing :=
    mkResponse true 200 None
               (Some (map Chunk chunks ++ [ReadFailure (lit "reset")])) in
  (ok failing = true /\ isJson (contentType failing) = false /\
   body failing = Some (map Chunk chunks ++ ReadFailure (lit "reset") :: []) /\
   streams (streamResponse chunks) chunks) /\
  emitted (readLoop (map Chunk chunks) TextDecoder.init [] None)
  = [lit "hello"] /\
  emitted (run (callChatAPI (Responded failing))) = [lit "hello"] /\
  emitted (run (callChatAPI (eventStream chunks))) = [lit "hello"; lit "tail"].
Proof.
  intros chunks failing.
  assert (Hs : streams (streamResponse chunks) chunks) by (repeat split).
  split; [repeat split|]. split; [reflexivity|].
  destruct (read_failure_keeps_the_emitted_prefix
              failing (streamResponse chunks) chunks (lit "reset") []
              eq_refl eq_refl eq_refl Hs) as (_ & He & b & Hb & Ht).
  split; [exact He|].
  unfold eventStream. rewrite Ht, He.
  injection Hb as <-. reflexivity.
Defined.

(** X4. When the first truthy text field of an object payload is not a
    string (a number, [true], an array, an object), the [replace] call
    throws inside the [try] and the [catch] passes the raw payload to
    the sink instead, once; an [end_metadata] id in the same payload
    has been recorded before the throw and stays recorded. *)
Theorem non_string_field_emits_the_raw_payload
        (line : jsstring) (fields : list (jsstring * value))
        (v : option value) (st : option value) :
  startsWith line (lit "data: ") = true ->
  includes (substring 6 line) (lit "[DONE]") = false ->
  JSON.parse (substring 6 line) = Some (JObject fields) ->
  firstTruthy [lookup (lit "response") fields; lookup (lit "message") fields;
               lookup (lit "chunk") fields; lookup (lit "content") fields]
  = Some v ->
  (forall s, v <> Some (JString s)) ->
  emitted (forBody line st) = [replaceEscapedNewlines (substring 6 line)]
  /\
  agentMessageId (forBody line st)
  = (if strictEq (lookup (lit "type") fields) (lit "end_metadata")
        && truthy (lookup (lit "agent_message_id") fields)
     then lookup (lit "agent_message_id") fields else st).
Proof.
  intros Hd Hm Hp Hf Hv.
  rewrite (forBody_data _ st Hd Hm), (bind_eq _ _ _ _ eq_refl).
  rewrite (handleData_object _ _ st Hp). cbv zeta.
  cbn [result emitted agentMessageId after ret]. rewrite Hf, app_nil_r.
  rewrite (parsed_not_blank _ _ Hp).
  split; [|reflexivity].
  destruct v as [[]|]; try reflexivity. now destruct (Hv s).
Qed.

Lemma non_string_field_emits_the_raw_payload_witness :
  let line := wire "data: {'type':'end_metadata','agent_message_id':'m1','response':5}" in
  let fields := [(lit "type", JString (lit "end_metadata"));
                 (lit "agent_message_id", JString (lit "m1"));
                 (lit "response", JNumber false 5 0)] in
  (startsWith line (lit "data: ") = true /\
   includes (substring 6 line) (lit "[DONE]") = false /\
   JSON.parse (substring 6 line) = Some (JObject fields)) /\
  emitted (forBody line None) = [substring 6 line] /\
  agentMessageId (forBody line None) = Some (JString (lit "m1")).
Proof.
  intros line fields.
  assert (Hd : startsWith line (lit "data: ") = true) by reflexivity.
  assert (Hm : includes (substring 6 line) (lit "[DONE]") = false)
    by reflexivity.
  assert (Hp : JSON.parse (substring 6 line) = Some (JObject fields))
    by reflexivity.
  split; [now repeat split|].
  refine (non_string_field_emits_the_raw_payload
            line fields (Some (JNumber false 5 0)) None Hd Hm Hp eq_refl _).
  intros s. discriminate.
Defined.

(** X5. A data payload that is valid JSON but not an object never
    touches the id slot; [null] makes the property read throw, so the
    raw payload text goes to the sink, and a boolean, number, string or
    array has none of the fields, so nothing is passed on. *)
Theorem non_object_payload
        (line : jsstring) (data : value) (st : option value) :
  startsWith line (lit "data: ") = true ->
  includes (substring 6 line) (lit "[DONE]") = false ->
  JSON.parse (substring 6 line) = Some data ->
  (forall fields, data <> JObject fields) ->
  agentMessageId (forBody line st) = st /\
  emitted (forBody line st)
  = match data with
    | JNull => [replaceEscapedNewlines (substring 6 line)]
    | _ => []
    end.
Proof.
  intros Hd Hm Hp Ho.
  rewrite (forBody_data _ st Hd Hm), (bind_eq _ _ _ _ eq_refl).
  rewrite handleData_ok. cbn [agentMessageId after emitted ret].
  rewrite app_nil_r. split; [exact (handleData_not_object _ _ st Hp Ho)|].
  unfold handleData.
  assert (Hn : data = JNull \/ data <> JNull)
    by (destruct data; auto; right; discriminate).
  destruct Hn as [-> | Hn].
  - rewrite (tryCatch_eq _ _ _ _ (tryBlock_null _ st Hp)).
    cbn [result emitted agentMessageId after]. rewrite catchBlock_eq.
    cbn [emitted]. now rewrite (parsed_not_blank _ _ Hp).
  - rewrite (tryCatch_eq _ _ _ _ (tryBlock_fieldless _ _ st Hp Hn Ho)).
    cbn [result emitted].
    destruct data; try reflexivity; congruence.
Qed.

Lemma non_object_payload_witness :
  let line := lit "data: null" in
  let other := lit "data: [1,2]" in
  (startsWith line (lit "data: ") = true /\
   includes (substring 6 line) (lit "[DONE]") = false /\
   JSON.parse (substring 6 line) = Some JNull /\
   emitted (forBody line None) = [lit "null"]) /\
  (startsWith other (lit "data: ") = true /\
   includes (substring 6 other) (lit "[DONE]") = false /\
   JSON.parse (substring 6 other)
   = Some (JArray [JNumber false 1 0; JNumber false 2 0]) /\
   emitted (forBody other None) = []).
Proof.
  intros line other.
  assert (Ho : forall d, d = JNull \/ (exists l, d = JArray l) ->
                         forall fields, d <> JObject fields).
  { intros d [-> | [l ->]] fields; discriminate. }
  split.
  - split; [reflexivity|]. split; [reflexivity|]. split; [reflexivity|].
    exact (proj2 (non_object_payload line JNull None eq_refl eq_refl eq_refl
                                     (Ho _ (or_introl eq_refl)))).
  - split; [reflexivity|]. split; [reflexivity|]. split; [reflexivity|].
    exact (proj2 (non_object_payload
                    other (JArray [JNumber false 1 0; JNumber false 2 0])
                    None eq_refl eq_refl eq_refl
                    (Ho _ (or_intror (ex_intro _ _ eq_refl))))).
Defined.

(** *** The single-document branch *)

Lemma nonStreaming_no_text (response : Response)
      (fields : list (jsstring * value)) (st : option value) :
  carries response (JObject fields) ->
  (forall s, firstTruthy [lookup (lit "response") fields;
                          lookup (lit "message") fields;
                          lookup (lit "content") fields]
             <> Some (Some (JString s))) ->
  nonStreaming response st
  = mkRes (Throw (Native TypeErrorC (lit "replace is not a function"))) st [].
Proof.
  intros Hc Hf. unfold nonStreaming.
  rewrite (bind_eq _ _ _ _ (responseJson_carries _ _ st Hc)).
  cbn [result emitted agentMessageId]. rewrite after_nil.
  do 3 js_step. rewrite orElse_chain3.
  destruct (firstTruthy _) as [v|] eqn:Ef.
  - rewrite (firstTruthy_truthy _ _ Ef).
    destruct v as [[]|]; cbn [callReplace];
      try (now rewrite bind_assoc, bind_throw).
    now destruct (Hf s).
  - cbn [truthy callReplace]. now rewrite bind_assoc, bind_throw.
Qed.

(** X6. A JSON document that is an object whose [response], [message]
    and [content] give no truthy string (all absent or empty, or the
    first truthy one not a string) makes [callChatAPI] throw the fixed
    error: the sink is not called and the document's
    [agent_message_id] is never returned. *)
Theorem document_without_text_throws
        (response : Response) (fields : list (jsstring * value)) :
  carries response (JObject fields) ->
  (forall s, firstTruthy [lookup (lit "response") fields;
                          lookup (lit "message") fields;
                          lookup (lit "content") fields]
             <> Some (Some (JString s))) ->
  run (callChatAPI (Responded response))
  = mkRes (Throw (Native ErrorC (lit "Failed to get response from chat API")))
          None [].
Proof.
  intros Hc Hf. pose proof Hc as (Hok & Hj & _). unfold run.
  rewrite (callChatAPI_body _ None Hok), Hj.
  now rewrite (tryCatch_eq _ _ _ _ (nonStreaming_no_text _ _ None Hc Hf)).
Qed.

Lemma document_without_text_throws_witness :
  let doc := bytes "{'agent_message_id':'a1','response':''}" in
  let fields := [(lit "agent_message_id", JString (lit "a1"));
                 (lit "response", JString [])] in
  carries (documentResponse doc) (JObject fields) /\
  run (callChatAPI (jsonDocument doc))
  = mkRes (Throw (Native ErrorC (lit "Failed to get response from chat API")))
          None [].
Proof.
  intros doc fields.
  assert (Hc : carries (documentResponse doc) (JObject fields)).
  { split; [reflexivity|]. split; [reflexivity|].
    exists doc. split; [reflexivity | now vm_compute]. }
  split; [exact Hc|].
  refine (document_without_text_throws (documentResponse doc) fields Hc _).
  intros s. discriminate.
Defined.

(** X7. A JSON document that is a bare string is itself the text: when
    it is not empty the sink gets it once, escaped newlines replaced,
    and the returned id is [null]; the empty string gives no sink call. *)
Theorem document_that_is_a_string (response : Response) (s : jsstring) :
  carries response (JString s) ->
  run (callChatAPI (Responded response))
  = mkRes (Ok None) None
          (if nonEmpty s then [replaceEscapedNewlines s] else []).
Proof.
  intros Hc. pose proof Hc as (Hok & Hj & _). unfold run.
  rewrite (callChatAPI_body _ None Hok), Hj.
  assert (Hn : nonStreaming response None
               = mkRes (Ok None) None
                       (if nonEmpty s then [replaceEscapedNewlines s]
                        else [])).
  { unfold nonStreaming.
    rewrite (bind_eq _ _ _ _ (responseJson_carries _ _ None Hc)).
    cbn [result emitted agentMessageId]. rewrite after_nil.
    do 3 js_step. rewrite orElse_chain3. unfold firstTruthy.
    cbn [find truthy].
    destruct (nonEmpty s) eqn:Es.
    - cbn [callReplace]. rewrite bind_assoc, bind_ret_l, bind_sink.
      cbn [getProp]. now rewrite bind_ret_l.
    - do 2 js_step. reflexivity. }
  now rewrite (tryCatch_eq _ _ _ _ Hn).
Qed.

Lemma document_that_is_a_string_witness :
  carries (documentResponse (bytes "'hi'")) (JString (lit "hi")) /\
  run (callChatAPI (jsonDocument (bytes "'hi'")))
  = mkRes (Ok None) None [lit "hi"].
Proof.
  assert (Hc : carries (documentResponse (bytes "'hi'")) (JString (lit "hi"))).
  { split; [reflexivity|]. split; [reflexivity|].
    exists (bytes "'hi'"). split; [reflexivity | now vm_compute]. }
  split; [exact Hc|].
  exact (document_that_is_a_string _ _ Hc).
Defined.

(** X8. A response announced as JSON whose body is not a JSON text
    makes [callChatAPI] throw the fixed error without any sink call. *)
Theorem document_that_is_not_json
        (response : Response) (body : list Byte.byte) :
  ok response = true -> isJson (contentType response) = true ->
  allBytes (match Net.body response with Some r => r | None => [] end)
  = inr body ->
  JSON.parse (TextDecoder.decodeAll body) = None ->
  run (callChatAPI (Responded response))
  = mkRes (Throw (Native ErrorC (lit "Failed to get response from chat API")))
          None [].
Proof.
  intros Hok Hj Hb Hp. unfold run.
  rewrite (callChatAPI_body _ None Hok), Hj.
  assert (Hn : nonStreaming response None
               = mkRes (Throw (Native SyntaxErrorC
                                 (lit "Unexpected token in JSON"))) None []).
  { unfold nonStreaming, Chat.responseJson, jsonParse.
    now rewrite Hb, Hp, bind_throw. }
  now rewrite (tryCatch_eq _ _ _ _ Hn).
Qed.

Lemma document_that_is_not_json_witness :
  let response := documentResponse (bytes "<html>Bad Gateway</html>") in
  (ok response = true /\ isJson (contentType response) = true /\
   allBytes (match Net.body response with Some r => r | None => [] end)
   = inr (bytes "<html>Bad Gateway</html>" ++ []) /\
   JSON.parse (TextDecoder.decodeAll (bytes "<html>Bad Gateway</html>" ++ []))
   = None) /\
  run (callChatAPI (Responded response))
  = mkRes (Throw (Native ErrorC (lit "Failed to get response from chat API")))
          None [].
Proof.
  intros response.
  assert (Hp : JSON.parse (TextDecoder.decodeAll
                             (bytes "<html>Bad Gateway</html>" ++ []))
               = None) by now vm_compute.
  split; [repeat split; exact Hp|].
  exact (document_that_is_not_json
           response (bytes "<html>Bad Gateway</html>" ++ [])
           eq_refl eq_refl eq_refl Hp).
Defined.

(** *** Chunks *)

(** X9. A stream with no terminal marker among its complete lines is
    decoded exactly as if all its bytes had arrived in one chunk: the
    same sink calls in the same order and the same result, wherever the
    chunk boundaries fall. *)
Theorem stream_without_marker_is_one_chunk
        (chunks : list (list Byte.byte)) (st : option value) :
  markerFree chunks ->
  callChatAPI (eventStream chunks) st
  = callChatAPI (eventStream [List.concat chunks]) st.
Proof.
  intros Hfree. unfold eventStream.
  assert (H1 : streams (streamResponse chunks) chunks) by (repeat split).
  assert (H2 : streams (streamResponse [List.concat chunks])
                       [List.concat chunks]) by (repeat split).
  assert (Hc : List.concat [List.concat chunks] = List.concat chunks)
    by (cbn [List.concat]; apply app_nil_r).
  assert (Hfree2 : markerFree [List.concat chunks])
    by (unfold markerFree, textOf in *; now rewrite Hc).
  rewrite (callChatAPI_markerFree _ _ st H1 Hfree).
  rewrite (callChatAPI_markerFree _ _ st H2 Hfree2).
  unfold textOf. now rewrite Hc.
Qed.

Lemma stream_without_marker_is_one_chunk_witness :
  let chunks := [bytes "da"; bytes "ta: {'response':'caf" ++ [Byte.xc3];
                 [Byte.xa9] ++ lineBytes "'}"; bytes "event: en";
                 lineBytes "d"; bytes "plain"] in
  markerFree chunks /\
  callChatAPI (eventStream chunks) None
  = callChatAPI (eventStream [List.concat chunks]) None.
Proof.
  intros chunks.
  assert (Hfree : markerFree chunks) by (vm_compute; repeat constructor).
  split; [exact Hfree|].
  exact (stream_without_marker_is_one_chunk chunks None Hfree).
Defined.

End CallFacts.

(* ================================================================== *)
(** ** More about the wrappers of [api.ts] *)
(* ================================================================== *)

Module WrapperFacts.
Import Api.
Local Open Scope N_scope.

Section Wrappers.

Variable API_BASE_URL : jsstring.
Variable fetch : jsstring -> fetchOutcome.
Variable getDateRangeFromFilter : TimeFilter -> jsstring * jsstring.
Variable searchParamsToString : list (jsstring * jsstring) -> jsstring.

(** X11. Whatever goes wrong inside a wrapper, a failed request, a
    failure status or a body that is not JSON, the caller sees only the
    wrapper's own plain [Error] with its fixed message; otherwise it
    gets a document. *)
Theorem wrappers_throw_only_their_own_error (params : AnalyticsQueryParams) :
  ((exists data,
       fetchAnalytics API_BASE_URL fetch getDateRangeFromFilter
                      searchParamsToString params = Ok data) \/
   fetchAnalytics API_BASE_URL fetch getDateRangeFromFilter
                  searchParamsToString params
   = Throw (Native ErrorC (lit "Failed to fetch analytics data")))
  /\
  ((exists data,
       fetchHubSpotSessions API_BASE_URL fetch getDateRangeFromFilter
                            searchParamsToString params = Ok data) \/
   fetchHubSpotSessions API_BASE_URL fetch getDateRangeFromFilter
                        searchParamsToString params
   = Throw (Native ErrorC (lit "Failed to fetch HubSpot sessions data"))).
Proof.
  split.
  - unfold fetchAnalytics, catch.
    destruct (andThen _ _) as [d|e]; [left; now exists d | now right].
  - unfold fetchHubSpotSessions, catch.
    destruct (andThen _ _) as [d|e]; [left; now exists d | now right].
Qed.

(** X12. A wrapper returns a document exactly when the request gets a
    response with a success status whose body is a JSON text, and then
    it returns that document as parsed, unchecked: no field of it is
    looked at. *)
Theorem wrappers_return_the_parsed_body
        (params : AnalyticsQueryParams) (data : value) :
  (fetchAnalytics API_BASE_URL fetch getDateRangeFromFilter
                  searchParamsToString params = Ok data
   <->
   exists r,
     fetch (urlOf API_BASE_URL getDateRangeFromFilter searchParamsToString
                  (lit "/api/lyzr/analytics") params) = Responded r /\
     ok r = true /\ responseJson r = Ok data)
  /\
  (fetchHubSpotSessions API_BASE_URL fetch getDateRangeFromFilter
                        searchParamsToString params = Ok data
   <->
   exists r,
     fetch (urlOf API_BASE_URL getDateRangeFromFilter searchParamsToString
                  (lit "/api/lyzr/hubspot-sessions") params) = Responded r /\
     ok r = true /\ responseJson r = Ok data).
Proof.
  split.
  - unfold fetchAnalytics, catch, andThen, awaitFetch. split.
    + destruct (fetch _) as [m|r]; [discriminate|].
      destruct (ok r) eqn:Hok; cbn [negb]; [|discriminate].
      destruct (responseJson r) as [d|e] eqn:Hj; [|discriminate].
      intros [= <-]. exists r. auto.
    + intros (r & -> & -> & ->). reflexivity.
  - unfold fetchHubSpotSessions, catch, andThen, awaitFetch. split.
    + destruct (fetch _) as [m|r]; [discriminate|].
      destruct (ok r) eqn:Hok; cbn [negb]; [|discriminate].
      destruct (responseJson r) as [d|e] eqn:Hj; [|discriminate].
      intros [= <-]. exists r. auto.
    + intros (r & -> & -> & ->). reflexivity.
Qed.

End Wrappers.

(** X13. A custom date wins over the time filter: as soon as a start
    date or an end date is given, the query holds the given dates only,
    whatever the time filter and the clock; a date that is not given is
    then not filled in from the filter. *)
Theorem custom_dates_override_the_time_filter
        (range1 range2 : TimeFilter -> jsstring * jsstring)
        (start finish : option jsstring) (filter1 filter2 : option TimeFilter) :
  given start = true \/ given finish = true ->
  queryParams range1 (mkParams start finish filter1)
  = queryParams range2 (mkParams start finish filter2)
  /\
  queryParams range1 (mkParams start finish filter1)
  = (if given start
     then [(lit "start_date", match start with Some s => s | None => [] end)]
     else [])
    ++ (if given finish
        then [(lit "end_date", match finish with Some s => s | None => [] end)]
        else []).
Proof.
  intros H.
  assert (Hq : forall range f,
             queryParams range (mkParams start finish f)
             = (if given start
                then [(lit "start_date",
                       match start with Some s => s | None => [] end)]
                else [])
               ++ (if given finish
                   then [(lit "end_date",
                          match finish with Some s => s | None => [] end)]
                   else [])).
  { intros range f. unfold queryParams. cbn [start_date end_date timeFilter].
    assert (Hn : negb (given start) && negb (given finish) = false)
      by (destruct H as [-> | ->]; [reflexivity | apply andb_false_r]).
    rewrite Hn.
    replace (match f with Some _ => [] | None => [] end)
      with (@nil (jsstring * jsstring)) by now destruct f.
    rewrite app_nil_r. unfold given.
    destruct start as [s|], finish as [e|]; reflexivity. }
  split; [now rewrite !Hq | apply Hq].
Qed.

Lemma custom_dates_override_the_time_filter_witness :
  let early := fun _ : TimeFilter => (lit "2024-01-01", lit "2024-01-31") in
  let late := fun _ : TimeFilter => (lit "2025-06-01", lit "2025-06-30") in
  (given (Some (lit "2024-03-05")) = true \/ given None = true) /\
  queryParams early (mkParams (Some (lit "2024-03-05")) None (Some today))
  = queryParams late (mkParams (Some (lit "2024-03-05")) None (Some month)) /\
  queryParams early (mkParams (Some (lit "2024-03-05")) None (Some today))
  = [(lit "start_date", lit "2024-03-05")].
Proof.
  intros early late.
  assert (H : given (Some (lit "2024-03-05")) = true \/ given None = true)
    by (left; reflexivity).
  split; [exact H|].
  exact (custom_dates_override_the_time_filter
           early late (Some (lit "2024-03-05")) None
           (Some today) (Some month) H).
Defined.

(** X14. [handleApiError] never returns: it always throws an
    [ApiError]. An [Error] of another class is wrapped with its own
    message and the endpoint; an [ApiError] goes through unchanged, so
    handling an error a second time changes nothing and the first
    endpoint stays. *)
Theorem handleApiError_always_throws_an_ApiError
        (error : exn) (endpoint later : jsstring)
        (cls : errorClass) (text : jsstring) :
  (exists message status first,
      @handleApiError value error endpoint
      = Throw (ApiError message status first) /\
      @handleApiError value (ApiError message status first) later
      = Throw (ApiError message status first))
  /\
  @handleApiError value (Native cls text) endpoint
  = Throw (ApiError text None (Some endpoint)).
Proof.
  split; [|reflexivity].
  destruct error as [c m | m st ep | ].
  - exists m, None, (Some endpoint). now split.
  - exists m, st, ep. now split.
  - exists (lit "Unknown API error"), None, (Some endpoint). now split.
Qed.

End WrapperFacts.

(* ================================================================== *)
(** ** The query string *)
(* ================================================================== *)

Module QueryFacts.
Import Api URLSearchParams.
Local Open Scope N_scope.

Lemma hexUpper_unreserved (d : N) : d < 16 -> isUnreserved (hexUpper d) = true.
Proof.
  intros H. unfold hexUpper.
  assert (Hd : d = 0 \/ d = 1 \/ d = 2 \/ d = 3 \/ d = 4 \/ d = 5 \/ d = 6 \/
               d = 7 \/ d = 8 \/ d = 9 \/ d = 10 \/ d = 11 \/ d = 12 \/
               d = 13 \/ d = 14 \/ d = 15) by lia.
  repeat (destruct Hd as [-> | Hd]; [reflexivity|]). now subst d.
Qed.

Lemma unreserved_queryUnit (c : N) :
  isUnreserved c = true -> isQueryUnit c = true.
Proof. intros H. unfold isQueryUnit. now rewrite H. Qed.

Lemma utf8_byte (cp b : N) : cp < 1114112 -> In b (utf8 cp) -> b < 256.
Proof.
  intros Hcp. unfold utf8.
  assert (Hland : forall x, N.land x 63 < 64).
  { intros x. change 63 with (N.ones 6). rewrite N.land_ones.
    apply N.mod_lt. discriminate. }
  destruct (cp <? 128) eqn:E1.
  { apply N.ltb_lt in E1. intros [<- | []]. lia. }
  apply N.ltb_ge in E1.
  destruct (cp <? 2048) eqn:E2.
  { apply N.ltb_lt in E2.
    assert (N.shiftr cp 6 < 32)
      by (rewrite N.shiftr_div_pow2; apply N.Div0.div_lt_upper_bound;
          simpl; lia).
    pose proof (Hland cp).
    intros [<- | [<- | []]]; lia. }
  apply N.ltb_ge in E2.
  destruct (cp <? 65536) eqn:E3.
  { apply N.ltb_lt in E3.
    assert (N.shiftr cp 12 < 16)
      by (rewrite N.shiftr_div_pow2; apply N.Div0.div_lt_upper_bound;
          simpl; lia).
    pose proof (Hland cp). pose proof (Hland (N.shiftr cp 6)).
    intros [<- | [<- | [<- | []]]]; lia. }
  apply N.ltb_ge in E3.
  assert (N.shiftr cp 18 < 5)
    by (rewrite N.shiftr_div_pow2; apply N.Div0.div_lt_upper_bound;
        simpl; lia).
  pose proof (Hland cp). pose proof (Hland (N.shiftr cp 6)).
  pose proof (Hland (N.shiftr cp 12)).
  intros [<- | [<- | [<- | [<- | []]]]]; lia.
Qed.

Lemma encodeByte_safe (b : N) :
  b < 256 -> Forall (fun c => isQueryUnit c = true) (encodeByte b).
Proof.
  intros Hb. unfold encodeByte.
  destruct (isUnreserved b) eqn:E.
  { constructor; [now apply unreserved_queryUnit | constructor]. }
  destruct (b =? 32); [repeat constructor|].
  assert (H4 : N.shiftr b 4 < 16)
    by (rewrite N.shiftr_div_pow2; apply N.Div0.div_lt_upper_bound;
        simpl; lia).
  assert (H15 : N.land b 15 < 16).
  { change 15 with (N.ones 4). rewrite N.land_ones.
    apply N.mod_lt. discriminate. }
  repeat constructor; apply unreserved_queryUnit, hexUpper_unreserved;
    assumption.
Qed.

Lemma codePoints_cons2 (c d : N) (r : jsstring) :
  codePoints (c :: d :: r)
  = if isHighSurrogate c && isLowSurrogate d
    then (65536 + (c - 55296) * 1024 + (d - 56320)) :: codePoints r
    else (if isHighSurrogate c || isLowSurrogate c then 65533 else c)
         :: codePoints (d :: r).
Proof. reflexivity. Qed.

Lemma codePoints_bound_len (n : nat) :
  forall s, (List.length s <= n)%nat ->
  Forall (fun c => c < 65536) s ->
  Forall (fun cp => cp < 1114112) (codePoints s).
Proof.
  induction n as [|n IH]; intros s Hn Hs.
  - destruct s; [constructor | simpl in Hn; lia].
  - destruct s as [|c [|d r]]; [constructor| |].
    + inversion Hs; subst. cbn [codePoints].
      constructor; [|constructor].
      destruct (isHighSurrogate c || isLowSurrogate c); lia.
    + inversion Hs as [|? ? Hc Hr]; subst.
      inversion Hr as [|? ? Hd Hr']; subst.
      rewrite codePoints_cons2. simpl in Hn.
      destruct (isHighSurrogate c && isLowSurrogate d) eqn:E.
      * apply andb_prop in E as [E1 E2].
        unfold isHighSurrogate in E1. unfold isLowSurrogate in E2.
        apply andb_prop in E1 as [E1 E1']. apply andb_prop in E2 as [E2 E2'].
        apply N.leb_le in E1, E1', E2, E2'.
        constructor; [lia|]. apply IH; [lia | assumption].
      * constructor.
        -- destruct (isHighSurrogate c || isLowSurrogate c); lia.
        -- apply IH; [simpl; lia | assumption].
Qed.

Lemma encode_safe (s : jsstring) :
  Forall (fun c => c < 65536) s ->
  Forall (fun c => isQueryUnit c = true) (encode s).
Proof.
  intros Hs. unfold encode.
  pose proof (codePoints_bound_len (List.length s) s (le_n _) Hs) as Hcp.
  induction Hcp as [|cp cps Hc _ IH]; [constructor|].
  cbn [flat_map]. rewrite flat_map_app. apply Forall_app. split; [|exact IH].
  apply Forall_forall. intros x Hx. apply in_flat_map in Hx as (b & Hb & Hx).
  pose proof (utf8_byte _ _ Hc Hb) as Hlt.
  pose proof (encodeByte_safe b Hlt) as Hsafe.
  now apply (proj1 (Forall_forall _ _) Hsafe).
Qed.

Lemma toString_safe (pairs : list (jsstring * jsstring)) :
  Forall (fun kv => Forall (fun c => c < 65536) (fst kv)
                    /\ Forall (fun c => c < 65536) (snd kv)) pairs ->
  Forall (fun c => isQueryUnit c = true) (toString pairs).
Proof.
  induction 1 as [|[k v] rest [Hk Hv] _ IH]; [constructor|].
  cbn [toString fst snd] in *.
  repeat (apply Forall_app; split);
    [now apply encode_safe | repeat constructor | now apply encode_safe |].
  destruct rest; [constructor|].
  apply Forall_app. split; [repeat constructor | exact IH].
Qed.

(** The serializer leaves unreserved text as it is. *)
Lemma encode_unreserved (s : jsstring) :
  forallb isUnreserved s = true -> encode s = s.
Proof.
  unfold encode.
  assert (Hsmall : forall c, isUnreserved c = true ->
                             c < 128 /\ isHighSurrogate c = false
                             /\ isLowSurrogate c = false).
  { intros c H. unfold isUnreserved, isAlphanumeric in H.
    assert (Hc : c < 128).
    { repeat (apply orb_prop in H as [H|H]);
        try (apply andb_prop in H as [_ H]; apply N.leb_le in H; lia);
        apply N.eqb_eq in H; lia. }
    unfold isHighSurrogate, isLowSurrogate.
    repeat split; [exact Hc| |];
      apply andb_false_intro1; apply N.leb_gt; lia. }
  assert (Hcp : forall n s, (List.length s <= n)%nat ->
                            forallb isUnreserved s = true ->
                            codePoints s = s).
  { induction n as [|n IH]; intros t Hn Ht.
    - destruct t; [reflexivity | simpl in Hn; lia].
    - destruct t as [|c [|d r]]; [reflexivity| |].
      + cbn [forallb] in Ht. apply andb_prop in Ht as [Hc _].
        destruct (Hsmall c Hc) as (_ & H1 & H2).
        cbn [codePoints]. now rewrite H1, H2.
      + cbn [forallb] in Ht. apply andb_prop in Ht as [Hc Hr].
        destruct (Hsmall c Hc) as (_ & H1 & H2).
        rewrite codePoints_cons2, H1, H2. cbn [andb orb].
        f_equal. apply IH; [simpl in *; lia | exact Hr]. }
  intros H. rewrite (Hcp (List.length s) s (le_n _) H).
  induction s as [|c s IH]; [reflexivity|].
  cbn [forallb] in H. apply andb_prop in H as [Hc Hs].
  destruct (Hsmall c Hc) as (Hlt & _).
  cbn [flat_map]. unfold utf8 at 1.
  apply N.ltb_lt in Hlt. rewrite Hlt. cbn [flat_map app].
  unfold encodeByte at 1. rewrite Hc. cbn [app].
  f_equal. now apply IH.
Qed.

(** X15. Whatever the dates given to a wrapper hold, spaces, ampersands,
    non-ASCII text, the query string [buildQueryString] makes of them
    holds nothing but letters, digits, [* - . _], [+], [%], [=] and
    [&]. *)
Theorem query_string_is_url_safe (params : list (jsstring * jsstring)) :
  Forall (fun kv => Forall (fun c => c < 65536) (fst kv)
                    /\ Forall (fun c => c < 65536) (snd kv)) params ->
  Forall (fun c => isQueryUnit c = true)
         (buildQueryString toString params).
Proof.
  intros H. unfold buildQueryString. apply toString_safe.
  apply Forall_forall. intros kv Hin. apply filter_In in Hin as [Hin _].
  now apply (proj1 (Forall_forall _ _) H).
Qed.

Lemma query_string_is_url_safe_witness :
  let params := [(lit "start_date", lit "2024-01-01 & more");
                 (lit "end_date", [233; 55357; 56832]);
                 (lit "skipped", [])] in
  Forall (fun kv => Forall (fun c => c < 65536) (fst kv)
                    /\ Forall (fun c => c < 65536) (snd kv)) params /\
  buildQueryString toString params
  = lit "start_date=2024-01-01+%26+more&end_date=%C3%A9%F0%9F%98%80" /\
  Forall (fun c => isQueryUnit c = true) (buildQueryString toString params).
Proof.
  intros params.
  assert (H : Forall (fun kv => Forall (fun c => c < 65536) (fst kv)
                                /\ Forall (fun c => c < 65536) (snd kv))
                     params).
  { repeat (constructor; [split; repeat (constructor; [reflexivity|]);
                          constructor|]). constructor. }
  split; [exact H|]. split; [reflexivity|].
  exact (query_string_is_url_safe params H).
Defined.

(** X16. Custom dates written with letters, digits and [- . _ *], as
    [YYYY-MM-DD] dates are, reach the URL as they are given:
    [?start_date=...&end_date=...] after the path, whatever the time
    filter and the clock. *)
Theorem custom_dates_reach_the_url_verbatim
        (base path start finish : jsstring)
        (range : TimeFilter -> jsstring * jsstring)
        (filter : option TimeFilter) :
  start <> [] -> finish <> [] ->
  forallb isUnreserved start = true -> forallb isUnreserved finish = true ->
  urlOf base range toString path (mkParams (Some start) (Some finish) filter)
  = base ++ path ++ lit "?start_date=" ++ start
    ++ lit "&end_date=" ++ finish.
Proof.
  intros Hs Hf Us Uf. unfold urlOf, buildQueryString, queryParams.
  cbn [start_date end_date timeFilter given].
  destruct start as [|s0 start']; [congruence|].
  destruct finish as [|f0 finish']; [congruence|].
  cbn [nonEmpty negb andb].
  replace (match filter with Some _ => [] | None => [] end)
    with (@nil (jsstring * jsstring)) by now destruct filter.
  cbn [app List.filter snd nonEmpty toString].
  rewrite (encode_unreserved (s0 :: start') Us).
  rewrite (encode_unreserved (f0 :: finish') Uf).
  change (encode (lit "start_date")) with (lit "start_date").
  change (encode (lit "end_date")) with (lit "end_date").
  cbn [nonEmpty app lit]. rewrite app_nil_r.
  repeat rewrite <- app_assoc. reflexivity.
Qed.

Lemma custom_dates_reach_the_url_verbatim_witness :
  let range := fun _ : TimeFilter => (lit "2020-01-01", lit "2020-01-02") in
  (lit "2024-01-01" <> [] /\ lit "2024-01-31" <> [] /\
   forallb isUnreserved (lit "2024-01-01") = true /\
   forallb isUnreserved (lit "2024-01-31") = true) /\
  urlOf (lit "https://api.example") range toString (lit "/api/lyzr/analytics")
        (mkParams (Some (lit "2024-01-01")) (Some (lit "2024-01-31"))
                  (Some week))
  = lit "https://api.example/api/lyzr/analytics?start_date=2024-01-01&end_date=2024-01-31".
Proof.
  intros range.
  assert (H1 : lit "2024-01-01" <> []) by discriminate.
  assert (H2 : lit "2024-01-31" <> []) by discriminate.
  split; [repeat split; assumption|].
  exact (custom_dates_reach_the_url_verbatim
           (lit "https://api.example") (lit "/api/lyzr/analytics")
           (lit "2024-01-01") (lit "2024-01-31") range (Some week)
           H1 H2 eq_refl eq_refl).
Defined.

(** X17. With no date given, or only empty ones, and no time filter,
    the wrappers request the bare endpoint: the URL ends with the path
    and holds no question mark of the query. *)
Theorem no_parameter_gives_the_bare_endpoint
        (base path : jsstring) (range : TimeFilter -> jsstring * jsstring)
        (start finish : option jsstring) :
  given start = false -> given finish = false ->
  urlOf base range toString path (mkParams start finish None) = base ++ path.
Proof.
  intros Hs Hf. unfold urlOf, buildQueryString, queryParams.
  cbn [start_date end_date timeFilter].
  assert (H1 : match start with
               | Some s => if nonEmpty s then [(lit "start_date", s)] else []
               | None => []
               end = []).
  { destruct start as [s|]; [|reflexivity]. cbn [given] in Hs. now rewrite Hs. }
  assert (H2 : match finish with
               | Some s => if nonEmpty s then [(lit "end_date", s)] else []
               | None => []
               end = []).
  { destruct finish as [s|]; [|reflexivity]. cbn [given] in Hf.
    now rewrite Hf. }
  rewrite H1, H2. cbn [app List.filter toString nonEmpty].
  now rewrite !app_nil_r.
Qed.

Lemma no_parameter_gives_the_bare_endpoint_witness :
  let range := fun _ : TimeFilter => (lit "2020-01-01", lit "2020-01-02") in
  (given (Some []) = false /\ given None = false) /\
  urlOf (lit "https://api.example") range toString (lit "/api/lyzr/analytics")
        (mkParams (Some []) None None)
  = lit "https://api.example/api/lyzr/analytics".
Proof.
  intros range. split; [split; reflexivity|].
  exact (no_parameter_gives_the_bare_endpoint
           (lit "https://api.example") (lit "/api/lyzr/analytics") range
           (Some []) None eq_refl eq_refl).
Defined.

End QueryFacts.

(* ================================================================== *)
(** ** The senders of [utils.ts] *)
(* ================================================================== *)

Module SenderFacts.
Import Api Senders.

(** X18. [sendFeedback] and [sendHubSpotInteraction] resolve exactly
    when the POST gets a response with a success status, whatever its
    body, which is never read; in every other case, a network failure
    or any failure status, they throw their own plain [Error] with a
    fixed message that carries neither the status nor the cause. *)
Theorem senders_resolve_exactly_on_a_success_status
        (VITE_API_URL : jsstring) (post : jsstring -> jsstring -> fetchOutcome)
        (sessionId messageId : jsstring)
        (feedback : Feedback) (interaction : Interaction) :
  let sent := post (VITE_API_URL ++ lit "/api/lyzr/feedback/" ++ sessionId
                    ++ lit "/" ++ messageId) (feedbackBody feedback) in
  let told := post (VITE_API_URL ++ lit "/api/lyzr/hubspot-interaction/"
                    ++ sessionId) (interactionBody interaction) in
  sendFeedback VITE_API_URL post sessionId messageId feedback
  = (if match sent with Responded r => ok r | NetworkFailure _ => false end
     then Ok tt
     else Throw (Native ErrorC (lit "Failed to send feedback")))
  /\
  sendHubSpotInteraction VITE_API_URL post sessionId interaction
  = (if match told with Responded r => ok r | NetworkFailure _ => false end
     then Ok tt
     else Throw (Native ErrorC (lit "Failed to send HubSpot interaction"))).
Proof.
  cbv zeta. split.
  - unfold sendFeedback, catch, andThen, awaitPost.
    destruct (post _ _) as [m|r]; [reflexivity|]. now destruct (ok r).
  - unfold sendHubSpotInteraction, catch, andThen, awaitPost.
    destruct (post _ _) as [m|r]; [reflexivity|]. now destruct (ok r).
Qed.

(** The body each sender posts is a JSON text, and parsing it gives back
    an object with the one field the backend reads, holding the value
    that was passed. *)
Example sender_bodies_parse_back (feedback : Feedback)
        (interaction : Interaction) :
  JSON.parse (feedbackBody feedback)
  = Some (JObject [(lit "feedback",
                    JString (match feedback with
                             | like => lit "like"
                             | dislike => lit "dislike"
                             end))])
  /\
  JSON.parse (interactionBody interaction)
  = Some (JObject [(lit "hubspot_interaction",
                    JString (match interaction with
                             | rendered => lit "rendered"
                             | filled => lit "filled"
                             | none => lit "none"
                             end))]).
Proof. destruct feedback, interaction; split; now vm_compute. Qed.

End SenderFacts.

(* ================================================================== *)
(** ** The debounce of [handleScroll] *)
(* ================================================================== *)

Module ScrollFacts.
Import Scroll.
Local Open Scope Z_scope.

(** After a call, exactly the new timer waits. *)
Lemma handleScroll_waiting (d : option Z) (w : World) :
  wellFormed w ->
  waiting (handleScroll d w) = [mkTimer (nextId w) (now w + resetDelay d)]
  /\ isScrolling (handleScroll d w) = true
  /\ scrollTimeout (handleScroll d w) = Some (nextId w)
  /\ now (handleScroll d w) = now w
  /\ nextId (handleScroll d w) = N.succ (nextId w).
Proof.
  destruct w as [t n ws s r]. unfold wellFormed, handleScroll, resetDelay.
  cbn [waiting isScrolling scrollTimeout now nextId].
  intros [Hn Hw].
  destruct ws as [|x [|y ws]]; [| |destruct Hw].
  - destruct r as [id|]; [destruct (N.eqb id 0)|]; now repeat split.
  - destruct Hw as (_ & -> & Hid1 & Hid2).
    assert (E : N.eqb (timerId x) 0 = false) by (apply N.eqb_neq; lia).
    rewrite E. cbn. rewrite N.eqb_refl. cbn. now repeat split.
Qed.

Lemma handleScroll_wellFormed (d : option Z) (w : World) :
  wellFormed w -> wellFormed (handleScroll d w).
Proof.
  intros H. pose proof H as [Hn _].
  destruct (handleScroll_waiting d w H) as (Hw & Hs & Hr & _ & Hi).
  unfold wellFormed. rewrite Hw, Hs, Hr, Hi. cbn [timerId].
  repeat split; lia.
Qed.

Lemma advance_wellFormed (t : Z) (w : World) :
  wellFormed w -> wellFormed (advance t w).
Proof.
  destruct w as [t0 n ws s r]. unfold wellFormed, advance.
  cbn [waiting isScrolling scrollTimeout now nextId].
  intros [Hn Hw]. split; [exact Hn|].
  destruct ws as [|x [|y ws]]; [exact Hw| |destruct Hw].
  cbn [filter]. destruct (due x <=? Z.max t0 t); cbn [negb];
    [reflexivity | exact Hw].
Qed.

(** X19. Whatever scrolls and clock ticks a component goes through
    after it mounts, at most one timer of [handleScroll] waits at any
    moment, it is the one [scrollTimeout.current] names, and
    [isScrolling] is true exactly while it waits: an earlier timer is
    always cleared before a new one is set. *)
Theorem handleScroll_keeps_one_timer (t : Z) (events : list event) :
  wellFormed (run t events).
Proof.
  unfold run.
  assert (H0 : wellFormed (mounted t)) by (split; [reflexivity | reflexivity]).
  revert H0. generalize (mounted t).
  induction events as [|e events IH]; intros w Hw; [exact Hw|].
  cbn [fold_left]. apply IH. destruct e; cbn [step].
  - now apply handleScroll_wellFormed.
  - now apply advance_wellFormed.
Qed.

(** A duration between 0 and 2^31 - 1 is the time the timer waits,
    and a call without a duration waits 1000 ms. *)
Lemma resetDelay_in_range (d : Z) :
  0 <= d <= 2147483647 -> resetDelay (Some d) = d.
Proof.
  intros H. unfold resetDelay, toInt32.
  rewrite Z.mod_small by lia. lia.
Qed.

(** X20. The debounce: after a scroll at time [now] with a duration
    [d] between 0 and 2^31 - 1, or without one and then [d] is 1000,
    [isScrolling] stays true at every later moment before [now + d],
    also when a timer of an earlier scroll was due in between, and it
    is false again, with no timer left, once the clock reaches
    [now + d]. *)
Theorem isScrolling_resets_after_the_last_scroll
        (w : World) (timeoutDuration : option Z) (d t : Z) :
  wellFormed w -> now w <= t ->
  match timeoutDuration with
  | Some x => x = d /\ 0 <= d <= 2147483647
  | None => d = 1000
  end ->
  (t < now w + d ->
   isScrolling (advance t (handleScroll timeoutDuration w)) = true)
  /\
  (now w + d <= t ->
   isScrolling (advance t (handleScroll timeoutDuration w)) = false /\
   waiting (advance t (handleScroll timeoutDuration w)) = []).
Proof.
  intros Hw Ht Hd.
  assert (E : resetDelay timeoutDuration = d).
  { destruct timeoutDuration as [x|].
    - destruct Hd as [-> Hd]. now apply resetDelay_in_range.
    - subst d. reflexivity. }
  destruct (handleScroll_waiting timeoutDuration w Hw)
    as (Hwait & Hs & _ & Hnow & _).
  unfold advance. rewrite Hwait, Hs, Hnow, E.
  cbn [isScrolling waiting filter due].
  rewrite (Z.max_r _ _ Ht). split.
  - intros Hlt. assert (E' : (now w + d <=? t) = false)
      by (apply Z.leb_gt; lia).
    now rewrite E'.
  - intros Hle. assert (E' : (now w + d <=? t) = true)
      by (apply Z.leb_le; lia).
    now rewrite E'.
Qed.

Lemma isScrolling_resets_after_the_last_scroll_witness :
  let w := advance 400 (handleScroll None (mounted 0)) in
  (wellFormed w /\ now w <= 1200 /\ 1200 < now w + 1000) /\
  isScrolling (advance 1200 (handleScroll (Some 1000) w)) = true /\
  (wellFormed w /\ now w <= 1400 /\ now w + 1000 <= 1400) /\
  isScrolling (advance 1400 (handleScroll (Some 1000) w)) = false.
Proof.
  intros w.
  assert (Hw : wellFormed w).
  { split; [reflexivity|]. cbn. repeat split. }
  assert (H1 : now w <= 1200) by (cbn; lia).
  assert (H2 : now w <= 1400) by (cbn; lia).
  assert (H3 : 1200 < now w + 1000) by (cbn; lia).
  assert (H4 : now w + 1000 <= 1400) by (cbn; lia).
  assert (Hd : 1000 = 1000 /\ 0 <= 1000 <= 2147483647) by lia.
  split; [repeat split; assumption|].
  split;
    [exact (proj1 (isScrolling_resets_after_the_last_scroll
                     w (Some 1000) 1000 1200 Hw H1 Hd) H3)|].
  split; [repeat split; assumption|].
  exact (proj1 (proj2 (isScrolling_resets_after_the_last_scroll
                         w (Some 1000) 1000 1400 Hw H2 Hd) H4)).
Defined.

(** X21. A duration that does not fit 32 signed bits wraps around:
    after a scroll with a duration from 2^31 to 2^32 ms, as after one
    with zero or a negative duration, [isScrolling] is reset as soon as
    the clock is read again. *)
Theorem too_long_a_duration_resets_at_once (w : World) (d t : Z) :
  wellFormed w -> now w <= t ->
  2147483648 <= d <= 4294967296 \/ d <= 0 /\ -2147483648 <= d ->
  isScrolling (advance t (handleScroll (Some d) w)) = false.
Proof.
  intros Hw Ht Hd.
  assert (E : resetDelay (Some d) = 0).
  { unfold resetDelay, toInt32. destruct Hd as [Hd|Hd].
    - replace (d + 2147483648) with ((d - 2147483648) + 1 * 4294967296)
        by lia.
      rewrite Z.mod_add by lia.
      destruct (Z.eq_dec d 4294967296) as [->|Hne]; [reflexivity|].
      rewrite Z.mod_small by lia. lia.
    - rewrite Z.mod_small by lia. lia. }
  destruct (handleScroll_waiting (Some d) w Hw)
    as (Hwait & Hs & _ & Hnow & _).
  unfold advance. rewrite Hwait, Hs, Hnow, E.
  cbn [isScrolling waiting filter due].
  rewrite (Z.max_r _ _ Ht).
  assert (E' : (now w + 0 <=? t) = true) by (apply Z.leb_le; lia).
  now rewrite E'.
Qed.

Lemma too_long_a_duration_resets_at_once_witness :
  (wellFormed (mounted 0) /\ 0 <= 0) /\
  isScrolling (advance 0 (handleScroll (Some 2147483648) (mounted 0)))
  = false.
Proof.
  assert (Hw : wellFormed (mounted 0)) by (split; reflexivity).
  split; [split; [exact Hw | lia]|].
  apply (too_long_a_duration_resets_at_once (mounted 0) 2147483648 0 Hw);
    [cbn; lia | left; lia].
Defined.

End ScrollFacts.

(* ================================================================== *)
(** ** The calendar and the date ranges of [getDateRangeFromFilter] *)
(* ================================================================== *)

Module DateFacts.
Import Api JSDate.
Local Open Scope Z_scope.

(** *** The year of a day *)

Lemma DaysInYear_cases (y : Z) : DaysInYear y = 365 \/ DaysInYear y = 366.
Proof.
  unfold DaysInYear.
  destruct (y mod 4 =? 0), (y mod 100 =? 0), (y mod 400 =? 0); cbn; auto.
Qed.

Lemma DayFromYear_succ (y : Z) :
  DayFromYear (y + 1) = DayFromYear y + DaysInYear y.
Proof.
  unfold DayFromYear, DaysInYear.
  destruct (Z.eqb_spec (y mod 4) 0), (Z.eqb_spec (y mod 100) 0),
    (Z.eqb_spec (y mod 400) 0); cbn [negb];
    Z.to_euclidean_division_equations; lia.
Qed.

Lemma DayFromYear_mono (a b : Z) : a <= b -> DayFromYear a <= DayFromYear b.
Proof.
  intros H. unfold DayFromYear. Z.to_euclidean_division_equations. lia.
Qed.

(** [YearFromTime] is the year ECMAScript defines: the one whose days
    hold the day of [t]. *)
Lemma YearFromTime_spec (t : Z) :
  DayFromYear (YearFromTime t) <= Day t < DayFromYear (YearFromTime t + 1).
Proof.
  unfold YearFromTime. generalize (Day t). intros d. cbv zeta.
  destruct (Z.ltb_spec d (DayFromYear (1970 + d * 400 / 146097))).
  - replace (1970 + d * 400 / 146097 - 1 + 1)
      with (1970 + d * 400 / 146097) by lia.
    split; [|assumption].
    unfold DayFromYear in *. Z.to_euclidean_division_equations. lia.
  - destruct (Z.leb_spec (DayFromYear (1970 + d * 400 / 146097 + 1)) d).
    + split; [assumption|].
      unfold DayFromYear in *. Z.to_euclidean_division_equations. lia.
    + split; assumption.
Qed.

Lemma YearFromTime_unique (t y : Z) :
  DayFromYear y <= Day t < DayFromYear (y + 1) -> YearFromTime t = y.
Proof.
  intros H. pose proof (YearFromTime_spec t) as S.
  destruct (Z.lt_trichotomy (YearFromTime t) y) as [L|[E|G]]; [|exact E|].
  - pose proof (DayFromYear_mono (YearFromTime t + 1) y ltac:(lia)). lia.
  - pose proof (DayFromYear_mono (y + 1) (YearFromTime t) ltac:(lia)). lia.
Qed.

Lemma InLeapYear_cases (t : Z) :
  InLeapYear t = 0 /\ DaysInYear (YearFromTime t) = 365 \/
  InLeapYear t = 1 /\ DaysInYear (YearFromTime t) = 366.
Proof.
  unfold InLeapYear.
  destruct (DaysInYear_cases (YearFromTime t)) as [E|E]; rewrite E; cbn; auto.
Qed.

Lemma DayWithinYear_range (t : Z) :
  0 <= DayWithinYear t < DaysInYear (YearFromTime t).
Proof.
  unfold DayWithinYear. pose proof (YearFromTime_spec t) as S.
  rewrite DayFromYear_succ in S. lia.
Qed.

(** *** The month and the date of a day *)

Ltac norm_succ :=
  try change (0 + 1) with 1 in *; try change (1 + 1) with 2 in *;
  try change (2 + 1) with 3 in *; try change (3 + 1) with 4 in *;
  try change (4 + 1) with 5 in *; try change (5 + 1) with 6 in *;
  try change (6 + 1) with 7 in *; try change (7 + 1) with 8 in *;
  try change (8 + 1) with 9 in *; try change (9 + 1) with 10 in *;
  try change (10 + 1) with 11 in *; try change (11 + 1) with 12 in *;
  cbn [monthStart Z.eqb Pos.eqb] in *.

Lemma month_cases (m : Z) :
  0 <= m < 12 ->
  m = 0 \/ m = 1 \/ m = 2 \/ m = 3 \/ m = 4 \/ m = 5 \/
  m = 6 \/ m = 7 \/ m = 8 \/ m = 9 \/ m = 10 \/ m = 11.
Proof. lia. Qed.

(** The month of [t] is the one whose days hold the day of [t]. *)
Lemma MonthFromTime_spec (t : Z) :
  0 <= MonthFromTime t < 12 /\
  monthStart (MonthFromTime t) (InLeapYear t) <= DayWithinYear t /\
  DayWithinYear t
  < (if MonthFromTime t =? 11 then DaysInYear (YearFromTime t)
     else monthStart (MonthFromTime t + 1) (InLeapYear t)).
Proof.
  pose proof (DayWithinYear_range t) as R.
  unfold MonthFromTime. cbv zeta.
  destruct (InLeapYear_cases t) as [[-> E]|[-> E]]; rewrite E in R;
    repeat match goal with
           | |- context [if ?a <? ?b then _ else _] =>
               destruct (Z.ltb_spec a b); [norm_succ; lia|]
           end; norm_succ; lia.
Qed.

Lemma MonthFromTime_range (t : Z) : 0 <= MonthFromTime t <= 11.
Proof. pose proof (MonthFromTime_spec t). lia. Qed.

Lemma DateFromTime_range (t : Z) : 1 <= DateFromTime t <= 31.
Proof.
  unfold DateFromTime.
  destruct (MonthFromTime_spec t) as (R & L & U).
  destruct (InLeapYear_cases t) as [[El E]|[El E]]; rewrite El, E in *;
    destruct (month_cases _ R) as [C|C]; repeat (destruct C as [C|C]);
    rewrite C in *; norm_succ; lia.
Qed.

(** The three depend on the day of [t] only. *)
Lemma same_day (a b : Z) :
  Day a = Day b ->
  YearFromTime a = YearFromTime b /\ MonthFromTime a = MonthFromTime b /\
  DateFromTime a = DateFromTime b /\ WeekDay a = WeekDay b.
Proof.
  intros H.
  assert (Y : YearFromTime a = YearFromTime b)
    by (unfold YearFromTime; now rewrite H).
  assert (L : InLeapYear a = InLeapYear b)
    by (unfold InLeapYear; now rewrite Y).
  assert (W : DayWithinYear a = DayWithinYear b)
    by (unfold DayWithinYear; now rewrite H, Y).
  assert (M : MonthFromTime a = MonthFromTime b)
    by (unfold MonthFromTime; now rewrite W, L).
  repeat split; [exact Y | exact M | |].
  - unfold DateFromTime. now rewrite W, M, L.
  - unfold WeekDay. now rewrite H.
Qed.

Lemma isoDate_same_day (a b : Z) : Day a = Day b -> isoDate a = isoDate b.
Proof.
  intros H. destruct (same_day a b H) as (Y & M & D & _).
  unfold isoDate. now rewrite Y, M, D.
Qed.

Lemma Day_MakeDate (day time : Z) :
  0 <= time < msPerDay -> Day (MakeDate day time) = day.
Proof.
  intros H. unfold Day, MakeDate, msPerDay in *.
  Z.to_euclidean_division_equations. lia.
Qed.

Lemma Day_shift (t k : Z) : Day (t + k * msPerDay) = Day t + k.
Proof. unfold Day, msPerDay. Z.to_euclidean_division_equations. lia. Qed.

Lemma TimeWithinDay_range (t : Z) : 0 <= TimeWithinDay t < msPerDay.
Proof. unfold TimeWithinDay, msPerDay. apply Z.mod_pos_bound. lia. Qed.

Lemma Day_bound (t : Z) :
  Z.abs t <= 8100000000000000 ->
  Z.abs (Day t * msPerDay) <= 8100000000086400.
Proof.
  intros H. unfold Day, msPerDay. Z.to_euclidean_division_equations. lia.
Qed.

(** [MakeDay] at the year and the month of [t]: the date moves within
    the days, before or after the month as well. *)
Lemma MakeDay_current (t date : Z) :
  MakeDay (YearFromTime t) (MonthFromTime t) date
  = Day t - DateFromTime t + date.
Proof.
  pose proof (MonthFromTime_range t) as R.
  unfold MakeDay. cbv zeta.
  rewrite (Z.div_small (MonthFromTime t) 12) by lia.
  rewrite (Z.mod_small (MonthFromTime t) 12) by lia.
  rewrite Z.add_0_r. fold (InLeapYear t).
  unfold DateFromTime, DayWithinYear. lia.
Qed.

Lemma MakeDay_date (y m date : Z) : MakeDay y m date = MakeDay y m 1 + date - 1.
Proof. unfold MakeDay. lia. Qed.

(** A month has 28 to 31 days. *)
Lemma DaysInMonth_eq (y m : Z) :
  DaysInMonth y m
  = (if m mod 12 =? 11 then DaysInYear (y + m / 12)
     else monthStart (m mod 12 + 1)
                     (if DaysInYear (y + m / 12) =? 366 then 1 else 0))
    - monthStart (m mod 12) (if DaysInYear (y + m / 12) =? 366 then 1 else 0).
Proof.
  unfold DaysInMonth, MakeDay. cbv zeta.
  destruct (Z.eqb_spec (m mod 12) 11) as [E|E].
  - assert (E1 : (m + 1) mod 12 = 0)
      by (Z.to_euclidean_division_equations; lia).
    assert (E2 : (m + 1) / 12 = m / 12 + 1)
      by (Z.to_euclidean_division_equations; lia).
    rewrite E1, E2, E.
    replace (y + (m / 12 + 1)) with (y + m / 12 + 1) by lia.
    rewrite DayFromYear_succ. cbn [monthStart Z.eqb]. lia.
  - assert (E1 : (m + 1) mod 12 = m mod 12 + 1)
      by (Z.to_euclidean_division_equations; lia).
    assert (E2 : (m + 1) / 12 = m / 12)
      by (Z.to_euclidean_division_equations; lia).
    rewrite E1, E2. lia.
Qed.

Lemma DaysInMonth_range (y m : Z) : 28 <= DaysInMonth y m <= 31.
Proof.
  rewrite DaysInMonth_eq.
  assert (R : 0 <= m mod 12 < 12) by (apply Z.mod_pos_bound; lia).
  destruct (DaysInYear_cases (y + m / 12)) as [E|E]; rewrite E;
    destruct (month_cases _ R) as [C|C]; repeat (destruct C as [C|C]);
    rewrite C; norm_succ; lia.
Qed.

(** The year, the month and the date of a day made by [MakeDay] from a
    date of the month. *)
Lemma civil_of_MakeDay (t y m date : Z) :
  1 <= date <= DaysInMonth y m -> Day t = MakeDay y m date ->
  YearFromTime t = y + m / 12 /\ MonthFromTime t = m mod 12 /\
  DateFromTime t = date.
Proof.
  intros Hd Ht. rewrite DaysInMonth_eq in Hd.
  assert (R : 0 <= m mod 12 < 12) by (apply Z.mod_pos_bound; lia).
  unfold MakeDay in Ht. cbv zeta in Ht.
  remember (y + m / 12) as ym eqn:Eym.
  remember (m mod 12) as mn eqn:Emn.
  pose proof (month_cases _ R) as C. clear Emn Eym R.
  assert (Y : YearFromTime t = ym).
  { apply YearFromTime_unique. rewrite DayFromYear_succ, Ht.
    destruct (DaysInYear_cases ym) as [E|E]; rewrite E in *;
      repeat (destruct C as [C|C]); subst mn; norm_succ; lia. }
  assert (W : DayWithinYear t
              = monthStart mn (if DaysInYear ym =? 366 then 1 else 0)
                + date - 1)
    by (unfold DayWithinYear; rewrite Y; lia).
  assert (M : MonthFromTime t = mn).
  { unfold MonthFromTime, InLeapYear. cbv zeta. rewrite W, Y.
    destruct (DaysInYear_cases ym) as [E|E]; rewrite E in *;
      repeat (destruct C as [C|C]); subst mn; norm_succ;
      repeat match goal with
             | |- context [if ?a <? ?b then _ else _] =>
                 destruct (Z.ltb_spec a b); cbn iota; try lia
             end. }
  repeat split; [exact Y | exact M |].
  unfold DateFromTime, InLeapYear. rewrite W, M, Y. lia.
Qed.

(** *** [toISOString().split("T")[0]] *)

Lemma split_head (a r : jsstring) :
  Forall (fun c => c <> 84%N) a -> hd [] (split (a ++ 84%N :: r)) = a.
Proof.
  induction 1 as [|c a Hc Ha IH]; cbn [app split].
  - now rewrite N.eqb_refl.
  - destruct (N.eqb_spec c 84) as [E|_]; [contradiction|].
    destruct (split (a ++ 84%N :: r)) as [|l ls]; cbn [hd] in *;
      now rewrite IH.
Qed.

Lemma digits_no_T (width : nat) (n : Z) :
  Forall (fun c => c <> 84%N) (digits width n).
Proof.
  revert n. induction width as [|w IH]; intros n; cbn [digits].
  - constructor.
  - apply Forall_app. split; [apply IH|].
    constructor; [|constructor].
    assert (0 <= n mod 10 < 10) by (apply Z.mod_pos_bound; lia). lia.
Qed.

Lemma isoDate_no_T (t : Z) : Forall (fun c => c <> 84%N) (isoDate t).
Proof.
  assert (S : forall s, s = lit "-" \/ s = lit "+" ->
                        Forall (fun c => c <> 84%N) s).
  { intros s [-> | ->]; (constructor; [discriminate | constructor]). }
  unfold isoDate, isoYear.
  apply Forall_app; split.
  - destruct (_ && _); [apply digits_no_T|].
    apply Forall_app; split; [|apply digits_no_T].
    destruct (_ <? _); apply S; auto.
  - apply Forall_app; split; [apply S; auto|].
    apply Forall_app; split; [apply digits_no_T|].
    apply Forall_app; split; [apply S; auto | apply digits_no_T].
Qed.

(** The two strings returned for valid dates are the UTC dates. *)
Lemma dates_of (startDate endDate : option Z) (s e : Z) :
  startDate = Some s -> endDate = Some e ->
  match toISOString startDate with
  | None => None
  | Some a =>
      match toISOString endDate with
      | None => None
      | Some b => Some (hd [] (split a), hd [] (split b))
      end
  end = Some (isoDate s, isoDate e).
Proof.
  intros -> ->. cbn [toISOString].
  change (lit "T") with [84%N]. cbn [app].
  now rewrite !split_head by apply isoDate_no_T.
Qed.

(** *** The setters, away from the ends of time *)

Lemma TimeClip_valid (t : Z) :
  Z.abs t <= 8640000000000000 -> TimeClip t = Some t.
Proof.
  intros H. unfold TimeClip.
  destruct (Z.ltb_spec 8640000000000000 (Z.abs t)); [lia | reflexivity].
Qed.

(** The UTC day of the local midnight and of the last millisecond of a
    local day, for the offset in force then. *)
Lemma Day_of_midnight (offset l : Z) :
  - msPerDay < offset < msPerDay ->
  Day (startOfDay l - offset)
  = Day (l - (if 0 <? offset then msPerDay else 0)).
Proof.
  intros Ho. unfold startOfDay. change (MakeTime 0 0 0 0) with 0.
  unfold MakeDate, Day, msPerDay in *.
  destruct (Z.ltb_spec 0 offset); Z.to_euclidean_division_equations; lia.
Qed.

Lemma Day_of_last_ms (offset l : Z) :
  - msPerDay < offset < msPerDay ->
  Day (endOfDay l - offset)
  = Day (l + (if offset <? 0 then msPerDay else 0)).
Proof.
  intros Ho. unfold endOfDay. change (MakeTime 23 59 59 999) with 86399999.
  unfold MakeDate, Day, msPerDay in *.
  destruct (Z.ltb_spec offset 0); Z.to_euclidean_division_equations; lia.
Qed.

Section Zone.

Variable LocalTZA : Z -> bool -> Z.
Hypothesis Hzone : bounded LocalTZA.

Lemma setHours_valid (hour min sec ms t : Z) :
  Z.abs t <= 8100000000000000 ->
  0 <= MakeTime hour min sec ms < msPerDay ->
  setHours LocalTZA hour min sec ms (Some t)
  = Some (UTC LocalTZA (MakeDate (Day (LocalTime LocalTZA t))
                                 (MakeTime hour min sec ms))).
Proof.
  intros Ht Hm. unfold setHours. cbv zeta.
  apply TimeClip_valid. unfold UTC, LocalTime.
  pose proof (Hzone t true) as H1.
  pose proof (Hzone (MakeDate (Day (t + LocalTZA t true))
                              (MakeTime hour min sec ms)) false) as H2.
  unfold MakeDate, Day, msPerDay in *.
  Z.to_euclidean_division_equations. lia.
Qed.

(** [setDate] moves the local time by the difference of the dates and
    keeps the time of the day. *)
Lemma setDate_valid (date t : Z) :
  Z.abs t <= 8100000000000000 -> -100 <= date <= 100 ->
  setDate LocalTZA date (Some t)
  = Some (UTC LocalTZA
              (LocalTime LocalTZA t
               + (date - DateFromTime (LocalTime LocalTZA t)) * msPerDay)).
Proof.
  intros Ht Hd. unfold setDate. cbv zeta.
  rewrite MakeDay_current.
  set (l := LocalTime LocalTZA t).
  pose proof (DateFromTime_range l) as R.
  replace (MakeDate (Day l - DateFromTime l + date) (TimeWithinDay l))
    with (l + (date - DateFromTime l) * msPerDay)
    by (unfold MakeDate, Day, TimeWithinDay, msPerDay;
        Z.to_euclidean_division_equations; lia).
  apply TimeClip_valid. unfold UTC. subst l. unfold LocalTime in *.
  pose proof (Hzone t true) as H1.
  pose proof (Hzone (t + LocalTZA t true
                     + (date - DateFromTime (t + LocalTZA t true)) * msPerDay)
                    false) as H2.
  unfold msPerDay in *. lia.
Qed.

(** [setMonth] to the next month moves the local time by the length of
    the month, whatever the date. *)
Lemma setMonth_next (t : Z) :
  Z.abs t <= 8100000000000000 ->
  setMonth LocalTZA (getMonth LocalTZA t + 1) (Some t)
  = Some (UTC LocalTZA (aMonthLater (LocalTime LocalTZA t))).
Proof.
  intros Ht. unfold setMonth, getMonth, aMonthLater. cbv zeta.
  set (L := LocalTime LocalTZA t).
  pose proof (DaysInMonth_range (YearFromTime L) (MonthFromTime L)) as R.
  assert (E : MakeDay (YearFromTime L) (MonthFromTime L + 1) (DateFromTime L)
              = Day L + DaysInMonth (YearFromTime L) (MonthFromTime L)).
  { rewrite MakeDay_date. unfold DaysInMonth.
    rewrite (MakeDay_current L 1). lia. }
  rewrite E.
  replace (MakeDate (Day L + DaysInMonth (YearFromTime L) (MonthFromTime L))
                    (TimeWithinDay L))
    with (L + DaysInMonth (YearFromTime L) (MonthFromTime L) * msPerDay)
    by (unfold MakeDate, Day, TimeWithinDay, msPerDay;
        Z.to_euclidean_division_equations; lia).
  apply TimeClip_valid. unfold UTC. subst L. unfold LocalTime in *.
  pose proof (Hzone t true) as H1.
  pose proof (Hzone (t + LocalTZA t true
                     + DaysInMonth (YearFromTime (t + LocalTZA t true))
                                   (MonthFromTime (t + LocalTZA t true))
                       * msPerDay) false) as H2.
  unfold msPerDay in *. lia.
Qed.

(** The UTC date of the first and of the last millisecond of the local
    day of [l]. *)
Lemma isoDate_start (l : Z) :
  isoDate (UTC LocalTZA (startOfDay l))
  = isoDate (l - (if 0 <? LocalTZA (startOfDay l) false
                  then msPerDay else 0)).
Proof.
  apply isoDate_same_day. unfold UTC. apply Day_of_midnight. apply Hzone.
Qed.

Lemma isoDate_end (l : Z) :
  isoDate (UTC LocalTZA (endOfDay l))
  = isoDate (l + (if LocalTZA (endOfDay l) false <? 0
                  then msPerDay else 0)).
Proof.
  apply isoDate_same_day. unfold UTC. apply Day_of_last_ms. apply Hzone.
Qed.

Lemma start_of_day (t : Z) :
  Z.abs t <= 8100000000000000 ->
  setHours LocalTZA 0 0 0 0 (Some t)
  = Some (UTC LocalTZA (startOfDay (LocalTime LocalTZA t))).
Proof. intros Ht. apply setHours_valid; [exact Ht | now cbv]. Qed.

Lemma end_of_day (t : Z) :
  Z.abs t <= 8100000000000000 ->
  setHours LocalTZA 23 59 59 999 (Some t)
  = Some (UTC LocalTZA (endOfDay (LocalTime LocalTZA t))).
Proof. intros Ht. apply setHours_valid; [exact Ht | now cbv]. Qed.

(** The UTC time of a local time is within a day of it. *)
Lemma UTC_near (l : Z) : Z.abs (UTC LocalTZA l - l) < msPerDay.
Proof. unfold UTC. pose proof (Hzone l false). lia. Qed.

Lemma LocalTime_near (t : Z) : Z.abs (LocalTime LocalTZA t - t) < msPerDay.
Proof. unfold LocalTime. pose proof (Hzone t true). lia. Qed.

(** What the function returns, away from the ends of time, are the
    dates of two moments near the ones read from the clock. *)
Lemma range_near_the_clock (now startDate endDate : Z) (f : TimeFilter) :
  Z.abs startDate <= 8000000000000000 ->
  Z.abs endDate <= 8000000000000000 ->
  exists x y,
    getDateRangeFromFilter LocalTZA now startDate endDate f
    = Some (isoDate x, isoDate y) /\
    Z.abs (x - startDate) <= 80 * msPerDay /\
    Z.abs (y - endDate) <= 80 * msPerDay.
Proof.
  intros Hs He.
  assert (Near : forall hour min sec ms t,
             Z.abs t <= 8100000000000000 ->
             0 <= MakeTime hour min sec ms < msPerDay ->
             exists u, setHours LocalTZA hour min sec ms (Some t) = Some u /\
                       Z.abs (u - t) <= 3 * msPerDay).
  { intros hour min sec ms t Ht Hm. eexists. split.
    - now apply setHours_valid.
    - pose proof (UTC_near (MakeDate (Day (LocalTime LocalTZA t))
                                     (MakeTime hour min sec ms))) as U.
      pose proof (LocalTime_near t) as L.
      unfold MakeDate, Day, msPerDay in *.
      Z.to_euclidean_division_equations. lia. }
  assert (NearDate : forall date t,
             Z.abs t <= 8100000000000000 -> -6 <= date <= 31 ->
             exists u, setDate LocalTZA date (Some t) = Some u /\
                       Z.abs (u - t) <= 39 * msPerDay).
  { intros date t Ht Hd. eexists. split.
    - apply setDate_valid; [exact Ht | lia].
    - pose proof (DateFromTime_range (LocalTime LocalTZA t)) as R.
      pose proof (UTC_near (LocalTime LocalTZA t
                            + (date - DateFromTime (LocalTime LocalTZA t))
                              * msPerDay)) as U.
      pose proof (LocalTime_near t) as L.
      unfold msPerDay in *. lia. }
  assert (T0 : 0 <= MakeTime 0 0 0 0 < msPerDay) by now cbv.
  assert (T1 : 0 <= MakeTime 23 59 59 999 < msPerDay) by now cbv.
  unfold getDateRangeFromFilter. destruct f; cbv beta iota.
  - destruct (Near 0 0 0 0 startDate ltac:(lia) T0) as (x & Ex & Bx).
    destruct (Near 23 59 59 999 endDate ltac:(lia) T1) as (y & Ey & By).
    exists x, y. split; [exact (dates_of _ _ x y Ex Ey)|].
    unfold msPerDay in *. lia.
  - pose proof (DateFromTime_range (LocalTime LocalTZA now)) as Rn.
    assert (W : 0 <= WeekDay (LocalTime LocalTZA now) < 7)
      by (unfold WeekDay; apply Z.mod_pos_bound; lia).
    unfold getDate, getDay.
    destruct (NearDate (DateFromTime (LocalTime LocalTZA now)
                        - WeekDay (LocalTime LocalTZA now))
                       startDate ltac:(lia) ltac:(lia)) as (s1 & E1 & B1).
    rewrite E1.
    destruct (Near 0 0 0 0 s1 ltac:(unfold msPerDay in *; lia) T0)
      as (x & Ex & Bx).
    destruct (Near 23 59 59 999 endDate ltac:(lia) T1) as (y & Ey & By).
    exists x, y. split; [exact (dates_of _ _ x y Ex Ey)|].
    unfold msPerDay in *. lia.
  - destruct (NearDate 1 startDate ltac:(lia) ltac:(lia)) as (s1 & E1 & B1).
    rewrite E1.
    destruct (Near 0 0 0 0 s1 ltac:(unfold msPerDay in *; lia) T0)
      as (x & Ex & Bx).
    rewrite (setMonth_next endDate ltac:(lia)).
    pose proof (DaysInMonth_range (YearFromTime (LocalTime LocalTZA endDate))
                                  (MonthFromTime (LocalTime LocalTZA endDate)))
      as RM.
    pose proof (UTC_near (aMonthLater (LocalTime LocalTZA endDate))) as U1.
    pose proof (LocalTime_near endDate) as L1.
    set (e1 := UTC LocalTZA (aMonthLater (LocalTime LocalTZA endDate))) in *.
    assert (B2 : Z.abs (e1 - endDate) <= 33 * msPerDay)
      by (unfold aMonthLater, msPerDay in *; lia).
    destruct (NearDate 0 e1 ltac:(unfold msPerDay in *; lia) ltac:(lia))
      as (e2 & E2 & B3).
    rewrite E2.
    destruct (Near 23 59 59 999 e2 ltac:(unfold msPerDay in *; lia) T1)
      as (y & Ey & By).
    exists x, y. split; [exact (dates_of _ _ x y Ex Ey)|].
    unfold msPerDay in *. lia.
Qed.

End Zone.

(** *** Zones *)

Lemma fixedZone_bounded (offset : Z) :
  - msPerDay < offset < msPerDay -> bounded (fixedZone offset).
Proof. intros H t isUTC. exact H. Qed.

Lemma londonIn2024_bounded : bounded londonIn2024.
Proof.
  intros t isUTC. unfold londonIn2024, msPerDay.
  destruct isUTC; destruct (_ && _); lia.
Qed.

(** In a zone without transitions every local time exists. *)
Lemma fixedZone_represented (offset t : Z) :
  represented (fixedZone offset) t.
Proof. unfold represented, LocalTime, UTC, fixedZone. lia. Qed.

(** X22. The range of [today] is made of UTC dates, in every zone
    whose offsets stay within a day: the start is the UTC date of the
    local midnight, which is the day before the local date exactly when
    the zone is east of UTC at that midnight, and the end is the UTC
    date of the last millisecond of the local day, the day after the
    local date exactly when the zone is west of UTC then. It never
    throws away from the ends of time. [startDate] and [endDate] are
    the clock as the two [new Date()] read it. *)
Theorem today_range_is_in_utc
        (LocalTZA : Z -> bool -> Z) (now startDate endDate : Z) :
  bounded LocalTZA ->
  Z.abs startDate <= 8000000000000000 ->
  Z.abs endDate <= 8000000000000000 ->
  let start := LocalTime LocalTZA startDate in
  let finish := LocalTime LocalTZA endDate in
  getDateRangeFromFilter LocalTZA now startDate endDate today
  = Some (isoDate (start - (if 0 <? LocalTZA (startOfDay start) false
                            then msPerDay else 0)),
          isoDate (finish + (if LocalTZA (endOfDay finish) false <? 0
                             then msPerDay else 0))).
Proof.
  intros Hz Hs He start finish. unfold getDateRangeFromFilter.
  cbv beta iota.
  rewrite <- (isoDate_start LocalTZA Hz), <- (isoDate_end LocalTZA Hz).
  apply dates_of.
  - apply start_of_day; [exact Hz | lia].
  - apply end_of_day; [exact Hz | lia].
Qed.

Lemma today_range_is_in_utc_witness :
  (bounded londonIn2024 /\ Z.abs 1711882800000 <= 8000000000000000) /\
  londonIn2024 1711882800000 true = 3600000 /\
  getDateRangeFromFilter londonIn2024 1711882800000 1711882800000
                         1711882800000 today
  = Some (lit "2024-03-31", lit "2024-03-31").
Proof.
  assert (Ht : Z.abs 1711882800000 <= 8000000000000000)
    by (cbv; discriminate).
  split; [split; [exact londonIn2024_bounded | exact Ht]|].
  split; [reflexivity|].
  exact (eq_trans (today_range_is_in_utc
                     londonIn2024 1711882800000 1711882800000 1711882800000
                     londonIn2024_bounded Ht Ht)
                  eq_refl).
Defined.

(** X23. The range of [week] starts at the local midnight of the
    Sunday on or before the local date, read as a UTC date: that is
    the Saturday before exactly when the zone is east of UTC at that
    midnight, whatever its offset is now, and also when the Sunday lies
    in the month or the year before. It ends as the range of [today]
    does. [now] and [startDate] are taken to fall on one local day, and
    the local time that [setDate] asks for to exist in the zone. *)
Theorem week_range_starts_on_sunday
        (LocalTZA : Z -> bool -> Z) (now startDate endDate : Z) :
  bounded LocalTZA ->
  Z.abs startDate <= 8000000000000000 ->
  Z.abs endDate <= 8000000000000000 ->
  Day (LocalTime LocalTZA now) = Day (LocalTime LocalTZA startDate) ->
  represented LocalTZA (LocalTime LocalTZA startDate
                        - getDay LocalTZA now * msPerDay) ->
  let sunday :=
    LocalTime LocalTZA startDate - getDay LocalTZA now * msPerDay in
  let finish := LocalTime LocalTZA endDate in
  getDateRangeFromFilter LocalTZA now startDate endDate week
  = Some (isoDate (sunday - (if 0 <? LocalTZA (startOfDay sunday) false
                             then msPerDay else 0)),
          isoDate (finish + (if LocalTZA (endOfDay finish) false <? 0
                             then msPerDay else 0))).
Proof.
  intros Hz Hs He Hn Hr sunday finish.
  unfold getDateRangeFromFilter, getDate. cbv beta iota.
  destruct (same_day _ _ Hn) as (_ & _ & ED & EW).
  assert (W : 0 <= getDay LocalTZA now < 7)
    by (unfold getDay, WeekDay; apply Z.mod_pos_bound; lia).
  pose proof (DateFromTime_range (LocalTime LocalTZA startDate)) as R.
  rewrite (setDate_valid LocalTZA Hz _ startDate) by (rewrite ?ED; lia).
  replace (LocalTime LocalTZA startDate
           + (DateFromTime (LocalTime LocalTZA now) - getDay LocalTZA now
              - DateFromTime (LocalTime LocalTZA startDate)) * msPerDay)
    with sunday by (subst sunday; rewrite ED; lia).
  rewrite <- (isoDate_start LocalTZA Hz), <- (isoDate_end LocalTZA Hz).
  apply dates_of.
  - pose proof (UTC_near LocalTZA Hz sunday) as U.
    pose proof (LocalTime_near LocalTZA Hz startDate) as L.
    rewrite (start_of_day LocalTZA Hz)
      by (subst sunday; unfold msPerDay in *; lia).
    fold sunday in Hr. unfold represented in Hr. now rewrite Hr.
  - apply end_of_day; [exact Hz | lia].
Qed.

Lemma week_range_starts_on_sunday_witness :
  (bounded londonIn2024 /\ Z.abs 1712142000000 <= 8000000000000000 /\
   Day (LocalTime londonIn2024 1712142000000)
   = Day (LocalTime londonIn2024 1712142000000) /\
   represented londonIn2024
               (LocalTime londonIn2024 1712142000000
                - getDay londonIn2024 1712142000000 * msPerDay)) /\
  londonIn2024 1712142000000 true = 3600000 /\
  getDateRangeFromFilter londonIn2024 1712142000000 1712142000000
                         1712142000000 week
  = Some (lit "2024-03-31", lit "2024-04-03").
Proof.
  assert (Ht : Z.abs 1712142000000 <= 8000000000000000)
    by (cbv; discriminate).
  assert (Hr : represented londonIn2024
                 (LocalTime londonIn2024 1712142000000
                  - getDay londonIn2024 1712142000000 * msPerDay))
    by reflexivity.
  split; [split; [exact londonIn2024_bounded|];
          split; [exact Ht|]; split; [reflexivity | exact Hr]|].
  split; [reflexivity|].
  exact (eq_trans (week_range_starts_on_sunday
                     londonIn2024 1712142000000 1712142000000 1712142000000
                     londonIn2024_bounded Ht Ht eq_refl Hr)
                  eq_refl).
Defined.

(** The date after [setMonth] to the next month: it carries over into
    the month after when the next month is too short for it. *)
Lemma date_in_next_month (t y m date : Z) :
  1 <= date <= 31 -> Day t = MakeDay y (m + 1) date ->
  DateFromTime t
  = (if DaysInMonth y (m + 1) <? date then date - DaysInMonth y (m + 1)
     else date).
Proof.
  intros Hd Ht.
  pose proof (DaysInMonth_range y (m + 1)) as R1.
  pose proof (DaysInMonth_range y (m + 1 + 1)) as R2.
  destruct (Z.ltb_spec (DaysInMonth y (m + 1)) date) as [L|L].
  - apply (civil_of_MakeDay t y (m + 1 + 1)); [lia|].
    rewrite Ht, (MakeDay_date y (m + 1)), (MakeDay_date y (m + 1 + 1)).
    unfold DaysInMonth. lia.
  - now apply (civil_of_MakeDay t y (m + 1)); [lia|].
Qed.

(** X24. The range of [month]: it starts at the local midnight of the
    first of the month, read as a UTC date, which is the last day of
    the month before exactly when the zone is east of UTC at that
    midnight. It ends on the last millisecond of the day before the
    first of the month that [setMonth] reaches, and that is the next
    month, so that the range ends with this month, only when the next
    month has the local date; on the 31st before a month of 30 days, or
    late in January, [setMonth] carries over and the range ends on the
    last day of the next month. Where the zone is west of UTC at that
    last millisecond, the end is one day later still. The local times
    that [setDate] and [setMonth] ask for are taken to exist in the
    zone. *)
Theorem month_range_may_end_a_month_late
        (LocalTZA : Z -> bool -> Z) (now startDate endDate : Z) :
  bounded LocalTZA ->
  Z.abs startDate <= 8000000000000000 ->
  Z.abs endDate <= 8000000000000000 ->
  represented LocalTZA (firstOfMonth (LocalTime LocalTZA startDate)) ->
  represented LocalTZA (aMonthLater (LocalTime LocalTZA endDate)) ->
  represented LocalTZA (dayZero (aMonthLater (LocalTime LocalTZA endDate))) ->
  let first := firstOfMonth (LocalTime LocalTZA startDate) in
  let last := dayZero (aMonthLater (LocalTime LocalTZA endDate)) in
  let year := YearFromTime (LocalTime LocalTZA endDate) in
  let next := getMonth LocalTZA endDate + 1 in
  getDateRangeFromFilter LocalTZA now startDate endDate month
  = Some (isoDate (first - (if 0 <? LocalTZA (startOfDay first) false
                            then msPerDay else 0)),
          isoDate (last + (if LocalTZA (endOfDay last) false <? 0
                           then msPerDay else 0)))
  /\
  Day last = MakeDay year
                     (if DaysInMonth year next <? getDate LocalTZA endDate
                      then next + 1 else next) 0.
Proof.
  intros Hz Hs He R1 R2 R3 first last year next. split.
  - unfold represented in R1, R2, R3. fold first in R1. fold last in R3.
    unfold getDateRangeFromFilter. cbv beta iota.
    pose proof (DateFromTime_range (LocalTime LocalTZA startDate)) as Rs.
    rewrite (setDate_valid LocalTZA Hz 1 startDate) by lia.
    replace (LocalTime LocalTZA startDate
             + (1 - DateFromTime (LocalTime LocalTZA startDate)) * msPerDay)
      with first by (subst first; unfold firstOfMonth; lia).
    rewrite (setMonth_next LocalTZA Hz endDate) by lia.
    set (y1 := aMonthLater (LocalTime LocalTZA endDate)) in *.
    pose proof (DaysInMonth_range
                  (YearFromTime (LocalTime LocalTZA endDate))
                  (MonthFromTime (LocalTime LocalTZA endDate))) as RM.
    pose proof (LocalTime_near LocalTZA Hz endDate) as Le.
    pose proof (LocalTime_near LocalTZA Hz startDate) as Ls.
    assert (B1 : Z.abs (y1 - endDate) <= 32 * msPerDay)
      by (subst y1; unfold aMonthLater, msPerDay in *; lia).
    pose proof (UTC_near LocalTZA Hz y1) as U1.
    rewrite (setDate_valid LocalTZA Hz 0 (UTC LocalTZA y1))
      by (unfold msPerDay in *; lia).
    rewrite R2.
    replace (y1 + (0 - DateFromTime y1) * msPerDay) with last
      by (subst last; unfold dayZero; lia).
    pose proof (DateFromTime_range y1) as Ry.
    assert (B2 : Z.abs (last - endDate) <= 63 * msPerDay)
      by (subst last; unfold dayZero, msPerDay in *; lia).
    pose proof (UTC_near LocalTZA Hz last) as U2.
    pose proof (UTC_near LocalTZA Hz first) as U3.
    assert (B3 : Z.abs (first - startDate) <= 32 * msPerDay)
      by (subst first; unfold firstOfMonth, msPerDay in *; lia).
    rewrite <- (isoDate_start LocalTZA Hz), <- (isoDate_end LocalTZA Hz).
    apply dates_of.
    + rewrite (start_of_day LocalTZA Hz) by (unfold msPerDay in *; lia).
      now rewrite R1.
    + rewrite (end_of_day LocalTZA Hz) by (unfold msPerDay in *; lia).
      now rewrite R3.
  - unfold getMonth, getDate in *.
    set (L := LocalTime LocalTZA endDate) in *.
    set (M := MonthFromTime L) in *.
    pose proof (DateFromTime_range L) as RD.
    assert (D1 : Day (aMonthLater L) = MakeDay year (M + 1) (DateFromTime L)).
    { assert (N1 : MakeDay year (M + 1) 1 = MakeDay year M 1
                                            + DaysInMonth year M)
        by (unfold DaysInMonth; lia).
      pose proof (MakeDay_current L 1) as C1. fold year M in C1.
      unfold aMonthLater. fold year M.
      rewrite Day_shift, MakeDay_date. lia. }
    pose proof (date_in_next_month (aMonthLater L) year M (DateFromTime L)
                                   RD D1) as Dn.
    subst last next. unfold dayZero.
    replace (aMonthLater L - DateFromTime (aMonthLater L) * msPerDay)
      with (aMonthLater L + (- DateFromTime (aMonthLater L)) * msPerDay)
      by lia.
    rewrite Day_shift, D1, Dn.
    destruct (Z.ltb_spec (DaysInMonth year (M + 1)) (DateFromTime L)).
    + rewrite (MakeDay_date year (M + 1)), (MakeDay_date year (M + 1 + 1)).
      unfold DaysInMonth. lia.
    + rewrite (MakeDay_date year (M + 1)), (MakeDay_date year (M + 1) 0). lia.
Qed.

Lemma month_range_may_end_a_month_late_witness :
  let t := 1711882800000 in
  (bounded londonIn2024 /\ Z.abs t <= 8000000000000000 /\
   represented londonIn2024 (firstOfMonth (LocalTime londonIn2024 t)) /\
   represented londonIn2024 (aMonthLater (LocalTime londonIn2024 t)) /\
   represented londonIn2024
               (dayZero (aMonthLater (LocalTime londonIn2024 t)))) /\
  getDateRangeFromFilter londonIn2024 t t t month
  = Some (lit "2024-03-01", lit "2024-04-30").
Proof.
  intros t.
  assert (Ht : Z.abs t <= 8000000000000000) by (cbv; discriminate).
  assert (R1 : represented londonIn2024
                 (firstOfMonth (LocalTime londonIn2024 t))) by reflexivity.
  assert (R2 : represented londonIn2024
                 (aMonthLater (LocalTime londonIn2024 t))) by reflexivity.
  assert (R3 : represented londonIn2024
                 (dayZero (aMonthLater (LocalTime londonIn2024 t))))
    by reflexivity.
  split; [split; [exact londonIn2024_bounded|];
          split; [exact Ht|]; split; [exact R1|]; split; [exact R2 | exact R3]|].
  exact (eq_trans (proj1 (month_range_may_end_a_month_late
                            londonIn2024 t t t londonIn2024_bounded Ht Ht
                            R1 R2 R3))
                  eq_refl).
Defined.

(** In a zone five and a half hours east of UTC, at 10:00 on
    2024-01-31: each range starts a day early, and the month ends with
    February. *)
Example ranges_east_of_utc :
  let zone := fixedZone 19800000 in
  let t := 1706675400000 in
  getDateRangeFromFilter zone t t t today
  = Some (lit "2024-01-30", lit "2024-01-31") /\
  getDateRangeFromFilter zone t t t week
  = Some (lit "2024-01-27", lit "2024-01-31") /\
  getDateRangeFromFilter zone t t t month
  = Some (lit "2023-12-31", lit "2024-02-29").
Proof. vm_compute. repeat split. Qed.

(** *** From the clock to the URL *)

Lemma YearFromTime_four_digits (x : Z) :
  0 <= x < 253402300800000 -> 0 <= YearFromTime x <= 9999.
Proof.
  intros H. pose proof (YearFromTime_spec x) as S.
  assert (D : 0 <= Day x < 2932897)
    by (unfold Day, msPerDay; Z.to_euclidean_division_equations; lia).
  split.
  - destruct (Z.le_gt_cases 1970 (YearFromTime x)) as [L|G]; [lia|].
    pose proof (DayFromYear_mono (YearFromTime x + 1) 1970 ltac:(lia)) as M.
    change (DayFromYear 1970) with 0 in M. lia.
  - destruct (Z.le_gt_cases (YearFromTime x) 9999) as [L|G]; [lia|].
    pose proof (DayFromYear_mono 10000 (YearFromTime x) ltac:(lia)) as M.
    change (DayFromYear 10000) with 2932897 in M. lia.
Qed.

Lemma digits_unreserved (width : nat) (n : Z) :
  forallb URLSearchParams.isUnreserved (digits width n) = true.
Proof.
  revert n. induction width as [|w IH]; intros n; cbn [digits].
  - reflexivity.
  - rewrite forallb_app, IH. cbn [forallb andb].
    assert (R : 0 <= n mod 10 < 10) by (apply Z.mod_pos_bound; lia).
    assert (C : n mod 10 = 0 \/ n mod 10 = 1 \/ n mod 10 = 2 \/ n mod 10 = 3
                \/ n mod 10 = 4 \/ n mod 10 = 5 \/ n mod 10 = 6
                \/ n mod 10 = 7 \/ n mod 10 = 8 \/ n mod 10 = 9) by lia.
    repeat (destruct C as [C|C]); rewrite C; reflexivity.
Qed.

(** A date of a year of four digits needs no escaping in a URL. *)
Lemma isoDate_plain (x : Z) :
  0 <= x < 253402300800000 ->
  forallb URLSearchParams.isUnreserved (isoDate x) = true /\
  nonEmpty (isoDate x) = true.
Proof.
  intros H. pose proof (YearFromTime_four_digits x H) as Y.
  unfold isoDate, isoYear.
  destruct (Z.leb_spec 0 (YearFromTime x)); [|lia].
  destruct (Z.leb_spec (YearFromTime x) 9999); [|lia].
  cbn [andb]. split.
  - rewrite !forallb_app, !digits_unreserved. reflexivity.
  - cbn [digits].
    match goal with
    | |- nonEmpty ((?l ++ _) ++ _) = true => now destruct l
    end.
Qed.

(** X25. From the clock to the request: when the parameters give no
    custom date and a time filter, and the clock lies between 80 days
    after 1970-01-01 and 80 days before the year 10000, the URL of a
    wrapper is the path followed by [?start_date=] and [&end_date=]
    with the two dates of [getDateRangeFromFilter] as they are, for
    every filter and every zone whose offsets stay within a day, with
    or without transitions. *)
Theorem time_filter_dates_reach_the_url
        (base path : jsstring) (LocalTZA : Z -> bool -> Z)
        (now startDate endDate : Z)
        (range : TimeFilter -> jsstring * jsstring)
        (params : AnalyticsQueryParams) (f : TimeFilter) :
  bounded LocalTZA ->
  80 * msPerDay <= startDate < 253402300800000 - 80 * msPerDay ->
  80 * msPerDay <= endDate < 253402300800000 - 80 * msPerDay ->
  getDateRangeFromFilter LocalTZA now startDate endDate f = Some (range f) ->
  given (start_date params) = false -> given (end_date params) = false ->
  timeFilter params = Some f ->
  urlOf base range URLSearchParams.toString path params
  = base ++ path ++ lit "?start_date=" ++ fst (range f)
    ++ lit "&end_date=" ++ snd (range f).
Proof.
  intros Hz Hs He Hr Gs Ge Hf.
  destruct (range_near_the_clock LocalTZA Hz now startDate endDate f
              ltac:(unfold msPerDay in *; lia) ltac:(unfold msPerDay in *; lia))
    as (x & y & E & Bx & By).
  rewrite E in Hr. injection Hr as Hr.
  destruct (isoDate_plain x ltac:(unfold msPerDay in *; lia)) as (Ux & Nx).
  destruct (isoDate_plain y ltac:(unfold msPerDay in *; lia)) as (Uy & Ny).
  unfold urlOf, buildQueryString, queryParams. rewrite Hf, Gs, Ge, <- Hr.
  cbn [negb andb fst snd].
  replace (match start_date params with
           | Some s => if nonEmpty s then [(lit "start_date", s)] else []
           | None => []
           end) with (@nil (jsstring * jsstring))
    by (destruct (start_date params) as [s|]; [cbn [given] in Gs;
                                                now rewrite Gs | reflexivity]).
  replace (match end_date params with
           | Some s => if nonEmpty s then [(lit "end_date", s)] else []
           | None => []
           end) with (@nil (jsstring * jsstring))
    by (destruct (end_date params) as [s|]; [cbn [given] in Ge;
                                              now rewrite Ge | reflexivity]).
  cbn [app List.filter snd]. rewrite Nx, Ny.
  cbn [URLSearchParams.toString].
  rewrite (QueryFacts.encode_unreserved _ Ux).
  rewrite (QueryFacts.encode_unreserved _ Uy).
  change (URLSearchParams.encode (lit "start_date")) with (lit "start_date").
  change (URLSearchParams.encode (lit "end_date")) with (lit "end_date").
  destruct (isoDate x) as [|x0 xs] eqn:Ix; [discriminate|].
  cbn [nonEmpty app lit]. rewrite app_nil_r.
  repeat rewrite <- app_assoc. reflexivity.
Qed.

Lemma time_filter_dates_reach_the_url_witness :
  let t := 1712142000000 in
  let range := fun f : TimeFilter =>
                 match getDateRangeFromFilter londonIn2024 t t t f with
                 | Some dates => dates
                 | None => ([], [])
                 end in
  let params := mkParams None None (Some week) in
  (bounded londonIn2024 /\
   80 * msPerDay <= t < 253402300800000 - 80 * msPerDay /\
   getDateRangeFromFilter londonIn2024 t t t week = Some (range week) /\
   given (start_date params) = false /\ given (end_date params) = false /\
   timeFilter params = Some week) /\
  urlOf (lit "https://backend.example") range URLSearchParams.toString
        (lit "/api/lyzr/analytics") params
  = lit "https://backend.example/api/lyzr/analytics?start_date=2024-03-31&end_date=2024-04-03".
Proof.
  intros t range params.
  assert (Ht : 80 * msPerDay <= t < 253402300800000 - 80 * msPerDay)
    by (cbv; split; [discriminate | reflexivity]).
  assert (Hr : getDateRangeFromFilter londonIn2024 t t t week
               = Some (range week)) by reflexivity.
  split; [split; [exact londonIn2024_bounded|];
          split; [exact Ht|]; split; [exact Hr|]; repeat split|].
  exact (eq_trans (time_filter_dates_reach_the_url
                     (lit "https://backend.example")
                     (lit "/api/lyzr/analytics")
                     londonIn2024 t t t
                     range params week londonIn2024_bounded Ht Ht Hr
                     eq_refl eq_refl eq_refl)
                  eq_refl).
Defined.

End DateFacts.

(* ================================================================== *)
(** ** What [cleanStreamingContent] does to a text *)
(* ================================================================== *)

Module CleanFacts.
Import RegExp Clean.
Local Open Scope N_scope.

(** *** Matches *)

(** What a repetition that matched has taken. *)
Lemma many_inv {R} (p : N -> bool) (lazy : bool)
      (k : jsstring -> jsstring -> option R) (s : jsstring) :
  forall (min : nat) (taken : jsstring) (r : R),
    many p lazy k min taken s = Some r ->
    exists t rest,
      s = t ++ rest /\ forallb p t = true /\ (min <= List.length t)%nat /\
      k (taken ++ t) rest = Some r.
Proof.
  induction s as [|c s IH]; intros min taken r H.
  - exists [], []. cbn [many] in H. cbv zeta in H.
    destruct min as [|m]; [|destruct lazy; discriminate H].
    split; [reflexivity|]. split; [reflexivity|]. split; [apply Nat.le_refl|].
    rewrite app_nil_r. destruct lazy, (k taken []) eqn:K; congruence.
  - cbn [many] in H. cbv zeta in H.
    assert (C : (min = O /\ k taken (c :: s) = Some r) \/
                (p c = true /\
                 many p lazy k (pred min) (taken ++ [c]) s = Some r)).
    { destruct (p c), min as [|m], lazy; cbn [pred] in *;
        repeat match type of H with
               | match ?x with Some _ => _ | None => _ end = _ =>
                   destruct x eqn:?
               end; try discriminate; auto. }
    destruct C as [[-> K]|[Pc M]].
    + exists [], (c :: s). rewrite app_nil_r.
      split; [reflexivity|]. split; [reflexivity|].
      split; [apply Nat.le_refl | exact K].
    + destruct (IH _ _ _ M) as (t & rest & -> & Pt & Lt & K).
      exists (c :: t), rest. cbn [forallb List.length app]. rewrite Pc, Pt.
      rewrite <- app_assoc in K.
      split; [reflexivity|]. split; [reflexivity|]. split; [lia | exact K].
Qed.

Lemma firstn_matched (m rest : jsstring) :
  firstn (List.length (m ++ rest) - List.length rest) (m ++ rest) = m.
Proof.
  rewrite length_app.
  replace (List.length m + List.length rest - List.length rest)%nat
    with (List.length m + 0)%nat by lia.
  rewrite firstn_app_2. cbn [firstn]. apply app_nil_r.
Qed.

(** Replacements that agree on every match give the same text. *)
Lemma replaceFrom_ext (re : regexp)
      (f g : jsstring -> list jsstring -> jsstring) (s : jsstring) :
  (forall s' captures rest,
      exec re [] s' = Some (captures, rest) ->
      f (firstn (List.length s' - List.length rest) s') captures
      = g (firstn (List.length s' - List.length rest) s') captures) ->
  forall skip, replaceFrom re f skip s = replaceFrom re g skip s.
Proof.
  intros H. induction s as [|c s IH]; intros skip.
  - destruct skip; cbn [replaceFrom]; [|reflexivity].
    destruct (exec re [] []) as [[captures rest]|] eqn:E; [|reflexivity].
    now rewrite (H _ _ _ E).
  - destruct skip as [|n]; cbn [replaceFrom]; [|apply IH].
    destruct (exec re [] (c :: s)) as [[captures rest]|] eqn:E.
    + rewrite (H _ _ _ E). f_equal.
      destruct (_ - _)%nat; now rewrite IH.
    + now rewrite IH.
Qed.

(** A replacement that writes every match back changes nothing. *)
Lemma replaceFrom_id (re : regexp)
      (f : jsstring -> list jsstring -> jsstring) (s : jsstring) :
  (forall s' captures rest,
      exec re [] s' = Some (captures, rest) ->
      f (firstn (List.length s' - List.length rest) s') captures
      = firstn (List.length s' - List.length rest) s') ->
  forall skip, replaceFrom re f skip s = skipn skip s.
Proof.
  intros H. induction s as [|c s IH]; intros skip.
  - destruct skip; cbn [replaceFrom skipn]; [|reflexivity].
    destruct (exec re [] []) as [[captures rest]|] eqn:E; [|reflexivity].
    rewrite (H _ _ _ E). cbn. reflexivity.
  - destruct skip as [|n]; cbn [replaceFrom skipn]; [|apply IH].
    destruct (exec re [] (c :: s)) as [[captures rest]|] eqn:E.
    + rewrite (H _ _ _ E).
      destruct (_ - _)%nat as [|m]; cbn [firstn app].
      * now rewrite IH.
      * rewrite IH. f_equal. apply firstn_skipn.
    + now rewrite IH.
Qed.

Lemma replaceFrom_skip_all (re : regexp)
      (f : jsstring -> list jsstring -> jsstring) (s : jsstring) :
  replaceFrom re f (List.length s) s = replaceFrom re f 0 [].
Proof.
  induction s as [|c s IH]; [reflexivity | exact IH].
Qed.

(** *** The word break *)

Lemma wordBreak_captures (s rest : jsstring) (captures : list jsstring) :
  exec wordBreak [] s = Some (captures, rest) ->
  exists word1 word2,
    captures = [word1; word2] /\
    forallb isWord word1 = true /\ forallb isWord word2 = true.
Proof.
  unfold wordBreak. cbn [exec]. intros H.
  apply many_inv in H as (w1 & r1 & _ & P1 & _ & H). cbn [app] in H.
  apply many_inv in H as (g1 & r2 & _ & _ & _ & H).
  destruct (startsWith r2 [LF]); [|discriminate].
  apply many_inv in H as (g2 & r3 & _ & _ & _ & H).
  apply many_inv in H as (w2 & r4 & _ & P2 & _ & H). cbn [app] in H.
  injection H as <- _. now exists w1, w2.
Qed.

(** A run of word characters holds none of the strings the callback
    looks for. *)
Lemma word_includes (w p : jsstring) (c : N) :
  forallb isWord w = true -> isWord c = false -> includes w (c :: p) = false.
Proof.
  intros W C. induction w as [|x w IH]; [reflexivity|].
  cbn [forallb] in W. apply andb_prop in W as [Wx W].
  cbn [includes startsWith]. rewrite (IH W).
  destruct (N.eqb_spec c x) as [->|_]; [congruence | reflexivity].
Qed.

Lemma joinOrKeep_words (match_ word1 word2 : jsstring) :
  forallb isWord word1 = true -> forallb isWord word2 = true ->
  joinOrKeep match_ [word1; word2] = word1 ++ word2.
Proof.
  intros W1 W2. unfold joinOrKeep, group, RUPEE. cbn [nth Nat.sub].
  change (lit "**") with [42; 42]. change (lit "#") with [35].
  change (lit "-") with [45]. change (lit "/") with [47].
  now rewrite !(word_includes word1), !(word_includes word2).
Qed.

(** X26. The guard in the callback of the word break never holds: the
    two captures are runs of letters, digits and underscores, so they
    hold none of [**], [#], [-], the rupee sign and [/]. Every match,
    two words with a line feed and any white space between them, is
    replaced by the two words glued together. *)
Theorem word_break_always_joins (content : jsstring) :
  joinWords content
  = replace wordBreak
            (fun _ captures => group 1 captures ++ group 2 captures)
            content.
Proof.
  unfold joinWords, replace. apply replaceFrom_ext.
  intros s' captures rest E.
  destruct (wordBreak_captures _ _ _ E) as (w1 & w2 & -> & W1 & W2).
  now apply joinOrKeep_words.
Qed.

(** *** Which match a greedy repetition finds *)

(** No way to end the repetition lets what follows match. *)
Lemma many_none {R} (p : N -> bool) (k : jsstring -> jsstring -> option R)
      (rest u : jsstring) :
  stops p rest ->
  forall (min : nat) (taken : jsstring),
    (forall u1 u2, u = u1 ++ u2 -> k (taken ++ u1) (u2 ++ rest) = None) ->
    many p false k min taken (u ++ rest) = None.
Proof.
  intros Hrest. induction u as [|c u IH]; intros min taken H.
  - pose proof (H [] [] eq_refl) as H0. rewrite app_nil_r in H0.
    cbn [app] in *. destruct rest as [|c rest]; cbn [many].
    + now destruct min.
    + cbn [stops] in Hrest. rewrite Hrest. now destruct min.
  - cbn [app many].
    rewrite IH.
    + pose proof (H [] (c :: u) eq_refl) as H0. rewrite app_nil_r in H0.
      cbn [app] in H0. rewrite H0. destruct (p c); now destruct min.
    + intros u1 u2 E. rewrite <- app_assoc. apply (H (c :: u1) u2).
      now rewrite E.
Qed.

(** A greedy repetition ends at the longest run after which what
    follows matches. *)
Lemma many_greedy {R} (p : N -> bool) (k : jsstring -> jsstring -> option R)
      (rest u t : jsstring) (r : R) :
  stops p rest -> forallb p t = true ->
  forall (min : nat) (taken : jsstring),
    (min <= List.length t)%nat ->
    k (taken ++ t) (u ++ rest) = Some r ->
    (forall u1 u2, u = u1 ++ u2 -> u1 <> [] ->
                   k (taken ++ t ++ u1) (u2 ++ rest) = None) ->
    many p false k min taken (t ++ u ++ rest) = Some r.
Proof.
  intros Hrest. induction t as [|c t IH]; intros Pt min taken Hmin K H.
  - cbn [app] in *. rewrite app_nil_r in K.
    assert (min = O) by (cbn in Hmin; lia). subst min.
    destruct u as [|c u]; cbn [app] in *.
    + destruct rest as [|c rest]; cbn [many]; [now rewrite K|].
      cbn [stops] in Hrest. now rewrite Hrest, K.
    + cbn [many pred]. rewrite many_none; [|exact Hrest|].
      * rewrite K. now destruct (p c).
      * intros u1 u2 E. rewrite <- app_assoc. apply (H (c :: u1) u2).
        -- now rewrite E.
        -- discriminate.
  - cbn [forallb] in Pt. apply andb_prop in Pt as [Pc Pt].
    cbn [app many]. rewrite Pc.
    rewrite (IH Pt (pred min) (taken ++ [c])).
    + reflexivity.
    + cbn [List.length] in Hmin. lia.
    + now rewrite <- app_assoc.
    + intros u1 u2 E N. rewrite <- app_assoc. now apply H.
Qed.

Lemma space_not_word (c : N) : isSpace c = true -> isWord c = false.
Proof.
  unfold isSpace, isWhiteSpace. intros H.
  destruct (isWord c) eqn:W; [|reflexivity]. unfold isWord in W.
  rewrite ?orb_true_iff, ?andb_true_iff, ?N.eqb_eq, ?N.leb_le in *. lia.
Qed.

Lemma word_not_space (c : N) : isWord c = true -> isSpace c = false.
Proof.
  intros W. destruct (isSpace c) eqn:S; [|reflexivity].
  apply space_not_word in S. congruence.
Qed.

(** The last line feed of a gap. *)
Lemma last_line_feed (gap : jsstring) :
  In LF gap ->
  exists before after,
    gap = before ++ LF :: after /\ forallb (isNot LF) after = true.
Proof.
  induction gap as [|c gap IH]; [intros []|].
  intros H.
  destruct (in_dec N.eq_dec LF gap) as [I|I].
  - destruct (IH I) as (b & a & -> & A). now exists (c :: b), a.
  - destruct H as [->|H]; [|contradiction].
    exists [], gap. split; [reflexivity|].
    apply forallb_forall. intros x Hx. unfold isNot.
    destruct (N.eqb_spec x LF) as [->|_]; [contradiction | reflexivity].
Qed.

(** The word break matches two words with a gap that holds a line
    feed, whole. *)
Lemma wordBreak_matches (word1 word2 gap : jsstring) :
  forallb isWord word1 = true -> word1 <> [] ->
  forallb isWord word2 = true -> word2 <> [] ->
  forallb isSpace gap = true -> In LF gap ->
  exec wordBreak [] (word1 ++ gap ++ word2) = Some ([word1; word2], []).
Proof.
  intros W1 N1 W2 N2 G L.
  destruct (last_line_feed gap L) as (g1 & g2 & -> & A).
  rewrite forallb_app in G. apply andb_prop in G as [G1 G2].
  cbn [forallb] in G2. apply andb_prop in G2 as [_ G2].
  assert (S2 : stops isSpace word2).
  { destruct word2 as [|c w]; [exact I|]. cbn [forallb] in W2.
    apply andb_prop in W2 as [Wc _]. now apply word_not_space. }
  assert (H2 : forall x, startsWith (x ++ word2) [LF] = true ->
                         forallb (isNot LF) x = true -> False).
  { intros x Hs Hx. destruct x as [|c x]; cbn [app] in Hs.
    - destruct word2 as [|c w]; [congruence|]. cbn [forallb] in W2.
      apply andb_prop in W2 as [Wc _]. cbn [startsWith] in Hs.
      rewrite andb_true_r in Hs. apply N.eqb_eq in Hs. subst c.
      discriminate Wc.
    - cbn [forallb] in Hx. apply andb_prop in Hx as [Hc _].
      cbn [startsWith] in Hs. rewrite andb_true_r in Hs.
      unfold isNot in Hc. rewrite N.eqb_sym, Hs in Hc. discriminate Hc. }
  unfold wordBreak. cbn [exec].
  replace (word1 ++ (g1 ++ LF :: g2) ++ word2)
    with (word1 ++ [] ++ (g1 ++ LF :: g2) ++ word2) by reflexivity.
  apply many_greedy.
  - destruct g1 as [|c g]; cbn [app stops forallb] in *.
    + reflexivity.
    + apply andb_prop in G1 as [Gc _]. now apply space_not_word.
  - exact W1.
  - destruct word1; [congruence | cbn; lia].
  - cbn [app exec].
    replace ((g1 ++ LF :: g2) ++ word2)
      with (g1 ++ (LF :: g2) ++ word2) by now rewrite <- app_assoc.
    apply many_greedy; [exact S2 | exact G1 | cbn; lia | |].
    + cbn [app startsWith]. rewrite N.eqb_refl. cbn [andb skipn List.length].
      replace (g2 ++ word2) with (g2 ++ [] ++ word2) by reflexivity.
      apply many_greedy; [exact S2 | exact G2 | cbn; lia | |].
      * cbn [app].
        match goal with
        | |- many ?p false ?k ?m ?tk word2 = _ =>
            replace (many p false k m tk word2)
              with (many p false k m tk (word2 ++ [] ++ []))
              by now rewrite !app_nil_r
        end.
        apply many_greedy; [exact I | exact W2 | | |].
        -- destruct word2; [congruence | cbn; lia].
        -- reflexivity.
        -- intros [|? ?] u2 E; [congruence | discriminate E].
      * intros [|? ?] u2 E; [congruence | discriminate E].
    + intros u1 u2 E N. destruct u1 as [|c u1]; [congruence|].
      injection E as _ E.
      destruct (startsWith (u2 ++ word2) [LF]) eqn:Hs; [|reflexivity].
      exfalso. apply (H2 u2 Hs). subst g2. rewrite forallb_app in A.
      now apply andb_prop in A as [_ A].
  - intros [|? ?] u2 E; [congruence | discriminate E].
Qed.

(** X27. Two words on neighbouring lines are glued together with
    nothing between them: the word break takes the line feed and all
    the white space around it, also blank lines, and puts back the two
    words only. *)
Theorem words_across_a_line_break_are_glued (word1 word2 gap : jsstring) :
  forallb isWord word1 = true -> word1 <> [] ->
  forallb isWord word2 = true -> word2 <> [] ->
  forallb isSpace gap = true -> In LF gap ->
  joinWords (word1 ++ gap ++ word2) = word1 ++ word2.
Proof.
  intros W1 N1 W2 N2 G L.
  pose proof (wordBreak_matches word1 word2 gap W1 N1 W2 N2 G L) as E.
  unfold joinWords, replace.
  destruct (word1 ++ gap ++ word2) as [|c s] eqn:S.
  - destruct word1; [congruence | discriminate S].
  - cbn [replaceFrom]. rewrite E.
    cbn [List.length Nat.sub].
    rewrite joinOrKeep_words by assumption.
    rewrite replaceFrom_skip_all. cbn [replaceFrom].
    change (exec wordBreak [] []) with (@None (list jsstring * jsstring)).
    now rewrite app_nil_r.
Qed.

Lemma words_across_a_line_break_are_glued_witness :
  let gap := [32; 10; 10; 9] in
  (forallb isWord (lit "Hello") = true /\ lit "Hello" <> [] /\
   forallb isWord (lit "world") = true /\ lit "world" <> [] /\
   forallb isSpace gap = true /\ In LF gap) /\
  joinWords (lit "Hello" ++ gap ++ lit "world") = lit "Helloworld".
Proof.
  intros gap.
  assert (N1 : lit "Hello" <> []) by discriminate.
  assert (N2 : lit "world" <> []) by discriminate.
  assert (L : In LF gap) by (right; left; reflexivity).
  split; [repeat split; try assumption; reflexivity|].
  exact (words_across_a_line_break_are_glued
           (lit "Hello") (lit "world") gap eq_refl N1 eq_refl N2 eq_refl L).
Defined.

(** A heading loses the line feed that ends it. *)
Example heading_is_glued_to_its_text :
  cleanStreamingContent (lit "## Plans" ++ [LF] ++ lit "Pick one")
  = lit "## PlansPick one".
Proof. vm_compute. reflexivity. Qed.

(** *** Steps that change nothing *)

Lemma rename_same (name : string) (s : jsstring) :
  rename name name s = s.
Proof.
  unfold rename, replace. rewrite replaceFrom_id; [reflexivity|].
  intros s' captures rest. cbn [exec]. unfold always.
  destruct (startsWith s' (lit name)) eqn:E; [|discriminate].
  intros [= _ <-]. apply StringFacts.startsWith_split in E.
  set (r := skipn (List.length (lit name)) s') in *. clearbody r. subst s'.
  symmetry. apply firstn_matched.
Qed.

(** X28. Three of the replacements write back what they match, so they
    change no text: the bold without spaces, [Enterprise-grade] and
    [document store included]. *)
Theorem three_steps_change_nothing (s : jsstring) :
  fixBold s = s /\ fixHyphenation s = s /\ fixStoreSpacing s = s.
Proof.
  split; [|split; apply rename_same].
  unfold fixBold, replace. rewrite replaceFrom_id; [reflexivity|].
  intros s' captures rest. cbn [exec]. unfold group. cbn [Nat.sub].
  destruct (startsWith s' (lit "**")) eqn:E1; [|discriminate].
  intros H. apply many_inv in H as (t & r & E2 & _ & _ & H).
  destruct (startsWith r (lit "**")) eqn:E3; [|discriminate].
  injection H as <- <-. cbn [app nth].
  apply StringFacts.startsWith_split in E1, E3.
  set (r' := skipn (List.length (lit "**")) r) in *. clearbody r'.
  set (r0 := skipn (List.length (lit "**")) s') in *. clearbody r0.
  subst r r0 s'.
  replace (lit "**" ++ t ++ lit "**" ++ r')
    with ((lit "**" ++ t ++ lit "**") ++ r') by now rewrite <- !app_assoc.
  symmetry. apply firstn_matched.
Qed.

End CleanFacts.

(* ================================================================== *)
(** ** The dashboard page after a load *)
(* ================================================================== *)

Module HomeFacts.
Import Home.

Lemma failed_render (st : State) :
  failed st -> render st = Failure (lit "Failed to load analytics data").
Proof. intros [L E]. unfold render. now rewrite L, E. Qed.

Section Page.

Variable VITE_BACKEND_URL : jsstring.
Variable LocalTZA : Z -> bool -> Z.

Lemma fetchAnalytics_failed (l : Load) (st : State) :
  failed st -> failed (fetchAnalytics VITE_BACKEND_URL LocalTZA l st).
Proof.
  intros [L E]. unfold fetchAnalytics.
  destruct (attempt _ _ _ _); split; cbn; auto.
Qed.

Lemma step_failed (st : State) (e : event) :
  failed st -> failed (step VITE_BACKEND_URL LocalTZA st e).
Proof.
  intros F. unfold step. rewrite (failed_render st F).
  destruct e; try exact F. now apply fetchAnalytics_failed.
Qed.

Lemma run_failed (events : list event) (st : State) :
  failed st -> failed (fold_left (step VITE_BACKEND_URL LocalTZA) events st).
Proof.
  revert st. induction events as [|e events IH]; intros st F; [exact F|].
  cbn [fold_left]. apply IH. now apply step_failed.
Qed.

(** The two dates alone, serialized. *)
Lemma toString_dates (s e : jsstring) :
  URLSearchParams.toString [(lit "start_date", s); (lit "end_date", e)]
  = lit "start_date=" ++ URLSearchParams.encode s
    ++ lit "&end_date=" ++ URLSearchParams.encode e.
Proof.
  cbn [URLSearchParams.toString].
  change (URLSearchParams.encode (lit "start_date")) with (lit "start_date").
  change (URLSearchParams.encode (lit "end_date")) with (lit "end_date").
  rewrite app_nil_r. cbn [lit app]. repeat rewrite <- app_assoc.
  reflexivity.
Qed.

(** With no custom date, what a fetching function gives to [fetch]. *)
Lemma log_plain (l : Load) (f : Filters) :
  start_date f = [] -> end_date f = [] ->
  Forall (filterDatesOnly VITE_BACKEND_URL LocalTZA)
         (fst (request l (urlOf VITE_BACKEND_URL LocalTZA l f))) /\
  Forall (filterDatesOnly VITE_BACKEND_URL LocalTZA)
         (fst (request l (hubSpotUrlOf VITE_BACKEND_URL LocalTZA l f))).
Proof.
  intros S E. unfold urlOf, hubSpotUrlOf, searchParams. rewrite S, E.
  cbn [nonEmpty app].
  destruct (JSDate.getDateRangeFromFilter _ _ _ _ _) as [[s e]|] eqn:D;
    cbn [request fst]; [|split; apply Forall_nil].
  split; (apply Forall_cons; [|apply Forall_nil]).
  - exists (lit "/api/lyzr/analytics?"), (timeFilter f), l, s, e.
    split; [now left|]. split; [exact D|]. now rewrite toString_dates.
  - exists (lit "/api/lyzr/hubspot-sessions?"), (timeFilter f), l, s, e.
    split; [now right|]. split; [exact D|]. now rewrite toString_dates.
Qed.

Lemma fetchAnalytics_plain (l : Load) (st : State) :
  plain VITE_BACKEND_URL LocalTZA st ->
  plain VITE_BACKEND_URL LocalTZA
        (fetchAnalytics VITE_BACKEND_URL LocalTZA l st).
Proof.
  intros (S & E & R).
  pose proof (proj1 (log_plain l (filters st) S E)) as Hl.
  unfold fetchAnalytics.
  destruct (attempt _ _ _ _); repeat split; cbn; try assumption;
    apply Forall_app; now split.
Qed.

Lemma fetchHubSpotData_plain (l : Load) (st : State) :
  plain VITE_BACKEND_URL LocalTZA st ->
  plain VITE_BACKEND_URL LocalTZA
        (fetchHubSpotData VITE_BACKEND_URL LocalTZA l st).
Proof.
  intros (S & E & R).
  pose proof (proj2 (log_plain l (filters st) S E)) as Hl.
  unfold fetchHubSpotData.
  destruct (request _ _) as [log data]. cbn [fst] in Hl.
  repeat split; cbn; try assumption. apply Forall_app. now split.
Qed.

Lemma step_plain (st : State) (e : event) :
  plain VITE_BACKEND_URL LocalTZA st ->
  plain VITE_BACKEND_URL LocalTZA (step VITE_BACKEND_URL LocalTZA st e).
Proof.
  intros P. unfold step. pose proof P as (S & E & R).
  destruct e as [l|f l|l|open|id], (render st); try exact P;
    first [ now apply fetchAnalytics_plain
          | apply fetchAnalytics_plain; repeat split; cbn; assumption
          | apply fetchHubSpotData_plain; repeat split; cbn; assumption ].
Qed.

End Page.

(** X29. Once a load of the analytics has failed the page shows the
    failure for good: [error] is set and nothing ever clears it, so
    after every Retry, also one that gets the data, the component
    returns the failure view again, and the filter buttons are never
    shown. *)
Theorem failure_view_is_final
        (VITE_BACKEND_URL : jsstring) (LocalTZA : Z -> bool -> Z)
        (l : Load) (st : State) (events : list event) :
  attempt VITE_BACKEND_URL LocalTZA l (filters st) = None ->
  render (fold_left (step VITE_BACKEND_URL LocalTZA) events
                    (fetchAnalytics VITE_BACKEND_URL LocalTZA l st))
  = Failure (lit "Failed to load analytics data").
Proof.
  intros A. apply failed_render. apply run_failed.
  unfold fetchAnalytics. rewrite A. now split.
Qed.

Lemma failure_view_is_final_witness :
  let zone := JSDate.fixedZone 19800000 in
  let down := mkLoad 1706675400000 1706675400000 1706675400000
                     (fun _ => NetworkFailure (lit "Failed to fetch")) in
  let up := mkLoad 1706675460000 1706675460000 1706675460000
                   (fun _ => Chat.jsonDocument (Chat.bytes "{'total_sessions':3}")) in
  attempt (lit "https://backend.example") zone down (filters initial)
  = None /\
  analyticsData (run (lit "https://backend.example") zone down [Retry up])
  = Some (JObject [(lit "total_sessions", JNumber false 3 0)]) /\
  render (run (lit "https://backend.example") zone down [Retry up])
  = Failure (lit "Failed to load analytics data").
Proof.
  intros zone down up.
  assert (A : attempt (lit "https://backend.example") zone down
                      (filters initial) = None) by reflexivity.
  split; [exact A|]. split; [reflexivity|].
  exact (failure_view_is_final (lit "https://backend.example") zone
                               down initial [Retry up] A).
Defined.

(** X30. The page never sends a custom date: no handler sets the
    [start_date] and [end_date] of its filters, so they stay empty
    through every load, Retry, filter button, View Details and dialog
    event, and every URL the page gives to [fetch], in [fetchAnalytics]
    or in [fetchHubSpotData], is the analytics or the hubspot-sessions
    endpoint with the two dates computed from the clock for a time
    filter, and nothing else. *)
Theorem home_sends_the_filter_dates_only
        (VITE_BACKEND_URL : jsstring) (LocalTZA : Z -> bool -> Z)
        (l : Load) (events : list event) :
  start_date (filters (run VITE_BACKEND_URL LocalTZA l events)) = [] /\
  end_date (filters (run VITE_BACKEND_URL LocalTZA l events)) = [] /\
  Forall (fun url =>
            exists (endpoint : jsstring) (f : Api.TimeFilter) (l' : Load)
                   (s e : jsstring),
              (endpoint = lit "/api/lyzr/analytics?" \/
               endpoint = lit "/api/lyzr/hubspot-sessions?") /\
              JSDate.getDateRangeFromFilter LocalTZA (now l') (startDate l')
                                            (endDate l') f = Some (s, e) /\
              url = VITE_BACKEND_URL ++ endpoint
                    ++ lit "start_date=" ++ URLSearchParams.encode s
                    ++ lit "&end_date=" ++ URLSearchParams.encode e)
         (requested (run VITE_BACKEND_URL LocalTZA l events)).
Proof.
  change (plain VITE_BACKEND_URL LocalTZA
                (run VITE_BACKEND_URL LocalTZA l events)).
  unfold run.
  assert (P : plain VITE_BACKEND_URL LocalTZA
                    (fetchAnalytics VITE_BACKEND_URL LocalTZA l initial)).
  { apply fetchAnalytics_plain. repeat split. constructor. }
  revert P. generalize (fetchAnalytics VITE_BACKEND_URL LocalTZA l initial).
  induction events as [|e events IH]; intros st P; [exact P|].
  cbn [fold_left]. apply IH. now apply step_plain.
Qed.

(** A load, then View Details: the two fetches of the page. *)
Example home_fetches_two_endpoints :
  let zone := JSDate.fixedZone 19800000 in
  let up := mkLoad 1706675400000 1706675400000 1706675400000
                   (fun _ => Chat.jsonDocument (Chat.bytes "{'sessions':[]}")) in
  requested (run (lit "https://b.example") zone up [ViewDetails up])
  = [lit "https://b.example/api/lyzr/analytics?start_date=2024-01-30&end_date=2024-01-31";
     lit "https://b.example/api/lyzr/hubspot-sessions?start_date=2024-01-30&end_date=2024-01-31"].
Proof. vm_compute. reflexivity. Qed.

End HomeFacts.
